(** * Drive Audit: the resumable batch processor of [Code.js]

    A shallow embedding of the Apps Script program [Code.js] and the
    properties of its checkpointed batch engine.

    What is modelled
    - [PropertiesService] script properties: a finite map from keys to stored
      texts ([props]).  [JSON.stringify] of the audit state is stored as the
      state it denotes ([PJson]); a text that [JSON.parse] rejects is
      [PText].
    - the sheets ['Drive Audit'] (its rows), ['Audit Status'] and
      ['Audit Summary'];
    - the project triggers of [ScriptApp];
    - the Drive service ([Drive.Files.list], [Drive.Permissions.list]), the
      clock and the answers given to dialogs.  These are inputs: an [Env]
      gives each answer as a function of the history of calls so far.
    - a history of the calls made to the collaborators ([trace]), used to
      state in which order things happen.

    What is left out: [Logger.log], fonts, colours, column widths and
    filters.  [PropertiesService], [SpreadsheetApp] and [ScriptApp] never
    throw by themselves; what does throw is a method call on [null] (a
    missing sheet), [JSON.parse] of a text that is not JSON, and the Drive
    calls.  Instants of time are integers (milliseconds). *)

From Stdlib Require Import ZArith String List Bool Lia.
From stdpp Require Import base option list gmap strings pretty.
Import ListNotations.

Local Open Scope string_scope.
Local Open Scope Z_scope.
Local Open Scope list_scope.

(** ** Values read from Drive and written to the sheet *)

Record Owner := mkOwner { owner_emailAddress : option string }.

Record File := mkFile {
  id : string;
  name : string;
  mimeType : string;
  owners : option (list Owner);
  createdTime : option string;
  modifiedTime : option string;
  size : option string;
  webViewLink : option string
}.

Record Permission := mkPermission {
  perm_type : string;
  role : string;
  emailAddress : option string;
  domain : option string;
  displayName : option string
}.

(** One cell of a sheet row. *)
Inductive Cell :=
| CStr (s : string)
| CNum (n : Z)
| CDate (iso : string)
| CUndefined.

Definition Row := list Cell.

(** [x || ''] on a string that may be absent: an absent or empty [x] gives
    the right operand. *)
Definition or_empty (x : option string) : Cell :=
  match x with
  | Some s => if String.eqb s "" then CStr "" else CStr s
  | None => CStr ""
  end.

(** [x ? new Date(x) : ''] *)
Definition date_or_empty (x : option string) : Cell :=
  match x with
  | Some s => if String.eqb s "" then CStr "" else CDate s
  | None => CStr ""
  end.

(** [file.owners && file.owners.length > 0 ? file.owners[0].emailAddress : 'Unknown'] *)
Definition owner_cell (file : File) : Cell :=
  match owners file with
  | Some (o :: _) =>
      match owner_emailAddress o with
      | Some e => CStr e
      | None => CUndefined
      end
  | _ => CStr "Unknown"
  end.

(** *** String methods used by [getFileType] *)

Definition startsWith (s pat : string) : bool := String.prefix pat s.

Definition includes (s pat : string) : bool :=
  match String.index 0 pat s with
  | Some _ => true
  | None => false
  end.

(** [s.replace(pat, by)] with a string pattern: the first occurrence only. *)
Definition replace (s pat by_ : string) : string :=
  match String.index 0 pat s with
  | Some n =>
      String.substring 0 n s +:+ by_ +:+
      String.substring (n + String.length pat)
                       (String.length s - (n + String.length pat)) s
  | None => s
  end.

Definition getFileType (file : File) : string :=
  let mimeType := mimeType file in
  if String.eqb mimeType "application/vnd.google-apps.folder" then "Folder"
  else if startsWith mimeType "application/vnd.google-apps." then
    "Google " +:+ replace (replace mimeType "application/vnd.google-apps." "") "-" " "
  else if startsWith mimeType "image/" then "Image"
  else if startsWith mimeType "video/" then "Video"
  else if startsWith mimeType "audio/" then "Audio"
  else if includes mimeType "pdf" then "PDF"
  else if includes mimeType "document" || includes mimeType "text" then "Document"
  else if includes mimeType "spreadsheet" then "Spreadsheet"
  else if includes mimeType "presentation" then "Presentation"
  else "File".

(** *** Row expansion

    The body of the callback of [filesBatch.files.forEach], once the
    permissions of the file are known: the rows pushed on [auditData]. *)
Definition file_rows (file : File) (permissions : list Permission) : list Row :=
  if Nat.eqb (length permissions) 0 then
    [ [ CStr (name file);
        CStr (id file);
        owner_cell file;
        CStr (getFileType file);
        CStr (mimeType file);
        date_or_empty (createdTime file);
        date_or_empty (modifiedTime file);
        or_empty (size file);
        or_empty (webViewLink file);
        CNum 0;
        CStr "";
        CStr "";
        CStr "";
        CStr "";
        CStr "" ] ]
  else
    map (fun permission =>
      [ CStr (name file);
        CStr (id file);
        owner_cell file;
        CStr (getFileType file);
        CStr (mimeType file);
        date_or_empty (createdTime file);
        date_or_empty (modifiedTime file);
        or_empty (size file);
        or_empty (webViewLink file);
        CNum (Z.of_nat (length permissions));
        CStr (perm_type permission);
        CStr (role permission);
        or_empty (emailAddress permission);
        or_empty (domain permission);
        or_empty (displayName permission) ]) permissions.

(** The nine columns that describe the item, and the six that describe one
    permission. *)
Definition item_fields (r : Row) : list Cell := firstn 9 r.
Definition permission_fields (r : Row) : list Cell := skipn 9 r.

(** ** The collaborators: stored state, sheets, triggers, Drive *)

(** The object kept under the script property ['AUDIT_STATE'].
    [startTime] is the instant the ISO text denotes. *)
Record AuditState := mkState {
  phase : string;
  totalFilesFound : Z;
  filesProcessed : Z;
  auditDataCount : Z;
  pageToken : option string;
  startTime : Z
}.

(** The character can begin a JSON text: white space (tab, line feed,
    carriage return, space) or the first character of a JSON value, which is
    one of the double quote, [-], a digit, [[], [f], [n], [t] and [{]. *)
Definition json_start (c : Ascii.ascii) : bool :=
  existsb (Nat.eqb (Ascii.nat_of_ascii c))
          [9; 10; 13; 32; 34; 45; 48; 49; 50; 51; 52; 53; 54; 55; 56; 57;
           91; 102; 110; 116; 123]%nat.

(** A text that [JSON.parse] is sure to reject with a [SyntaxError]: the
    empty text, and a text whose first character cannot begin a JSON text. *)
Definition json_rejects (s : string) : bool :=
  match s with
  | "" => true
  | String c _ => negb (json_start c)
  end.

(** A stored property: the JSON text of an audit state, or a text that
    [JSON.parse] rejects.  Texts that [JSON.parse] accepts without their
    being a serialized state (as '{}' or '123') are not among the stored
    values of the model. *)
Inductive PropVal :=
| PJson (st : AuditState)
| PText (s : string) (rejected : json_rejects s = true).

Inductive TriggerKind :=
| After (ms : Z)
| OnWeekDay (day : string) (hour : Z).

Record Trigger := mkTrigger {
  handlerFunction : string;
  schedule : TriggerKind
}.

Inductive Outcome (A : Type) :=
| Returns (a : A)
| Throws (error : string).
Arguments Returns {A} a.
Arguments Throws {A} error.

Record FilesResponse := mkFilesResponse {
  files : option (list File);
  nextPageToken : option string
}.

Record PermissionsResponse := mkPermissionsResponse {
  permissions : option (list Permission)
}.

Inductive ClockSite :=
| AtInvocationStart
| AtStateInit
| AtBudgetCheck
| AtFinalize.

Inductive Button := YES | NO | OK | CLOSE.

(** The calls made to the collaborators, in the order they are made. *)
Inductive Event :=
| EvClock (site : ClockSite) (t : Z)
| EvFilesList (token : option string) (pageSize : Z) (result : Outcome FilesResponse)
| EvPermissionsList (fileId : string) (result : Outcome PermissionsResponse)
| EvSetProperty (key : string) (st : AuditState)
| EvDeleteProperty (key : string)
| EvStatus (status message : string) (processed total : Z)
| EvSheetSetup
| EvSetValues (firstRow : Z) (rows : list Row)
| EvSummary (totalFiles totalPermissions : Z)
| EvDeleteTriggers (handler : string)
| EvNewTrigger (trigger : Trigger)
| EvAlert (title : string) (answer : Button).

(** What the ['Audit Status'] sheet shows: the two progress rows are
    written only when [totalFiles > 0]. *)
Record StatusData := mkStatusData {
  shown_status : string;
  shown_message : string;
  shown_progress : option (Z * Z)
}.

Record World := mkWorld {
  props : gmap string PropVal;
  auditSheet : option (list Row);
  statusSheet : option StatusData;
  summarySheet : option (Z * Z);
  triggers : list Trigger;
  trace : list Event
}.

(** The answers of the outside world, each a function of the history. *)
Record Env := mkEnv {
  clock : list Event -> Z;
  Files_list : list Event -> option string -> Z -> Outcome FilesResponse;
  Permissions_list : list Event -> string -> Outcome PermissionsResponse;
  alert_answer : list Event -> string -> Button
}.

Definition with_props (f : gmap string PropVal -> gmap string PropVal) (w : World) : World :=
  mkWorld (f (props w)) (auditSheet w) (statusSheet w) (summarySheet w) (triggers w) (trace w).
Definition with_auditSheet (s : option (list Row)) (w : World) : World :=
  mkWorld (props w) s (statusSheet w) (summarySheet w) (triggers w) (trace w).
Definition with_statusSheet (s : option StatusData) (w : World) : World :=
  mkWorld (props w) (auditSheet w) s (summarySheet w) (triggers w) (trace w).
Definition with_summarySheet (s : option (Z * Z)) (w : World) : World :=
  mkWorld (props w) (auditSheet w) (statusSheet w) s (triggers w) (trace w).
Definition with_triggers (f : list Trigger -> list Trigger) (w : World) : World :=
  mkWorld (props w) (auditSheet w) (statusSheet w) (summarySheet w) (f (triggers w)) (trace w).
Definition record (e : Event) (w : World) : World :=
  mkWorld (props w) (auditSheet w) (statusSheet w) (summarySheet w) (triggers w) (trace w ++ [e]).

Definition set_phase (p : string) (st : AuditState) : AuditState :=
  mkState p (totalFilesFound st) (filesProcessed st) (auditDataCount st) (pageToken st) (startTime st).
Definition set_filesProcessed (n : Z) (st : AuditState) : AuditState :=
  mkState (phase st) (totalFilesFound st) n (auditDataCount st) (pageToken st) (startTime st).
Definition set_auditDataCount (n : Z) (st : AuditState) : AuditState :=
  mkState (phase st) (totalFilesFound st) (filesProcessed st) n (pageToken st) (startTime st).
Definition set_pageToken (t : option string) (st : AuditState) : AuditState :=
  mkState (phase st) (totalFilesFound st) (filesProcessed st) (auditDataCount st) t (startTime st).

(** ** Statements that complete normally, return, or throw *)

Inductive Completion (A : Type) :=
| Normal (a : A)
| Return
| Throw (error : string)
| OutOfFuel.
Arguments Normal {A} a.
Arguments Return {A}.
Arguments Throw {A} error.
Arguments OutOfFuel {A}.

Definition M (A : Type) : Type := World -> Completion A * World.

Definition ret {A} (a : A) : M A := fun w => (Normal a, w).
Definition return_ {A} : M A := fun w => (Return, w).
Definition throw {A} (error : string) : M A := fun w => (Throw error, w).

Definition bind {A B} (m : M A) (k : A -> M B) : M B :=
  fun w =>
    match m w with
    | (Normal a, w') => k a w'
    | (Return, w') => (Return, w')
    | (Throw e, w') => (Throw e, w')
    | (OutOfFuel, w') => (OutOfFuel, w')
    end.

Declare Scope audit_scope.
Delimit Scope audit_scope with audit.
Notation "x <- c ;; k" := (bind c (fun x => k))
  (at level 100, c at next level, right associativity) : audit_scope.
Notation "c ;; k" := (bind c (fun _ => k))
  (at level 100, right associativity) : audit_scope.
Local Open Scope audit_scope.

(** [try { body } catch (error) { handler }] *)
Definition try_catch {A} (body : M A) (handler : string -> M A) : M A :=
  fun w =>
    match body w with
    | (Throw e, w') => handler e w'
    | r => r
    end.

(** A call of a function without result: its [return] ends the call only. *)
Definition call (body : M unit) : M unit :=
  fun w =>
    match body w with
    | (Return, w') => (Normal tt, w')
    | r => r
    end.

Definition exec {A} (m : M A) (w : World) : World := snd (m w).

Fixpoint forEach {A S} (l : list A) (f : A -> S -> M S) (s : S) : M S :=
  match l with
  | [] => ret s
  | x :: l' => s' <- f x s ;; forEach l' f s'
  end.

(** JavaScript truth of a string that may be [null] or [undefined]. *)
Definition truthy (x : option string) : bool :=
  match x with
  | Some s => negb (String.eqb s "")
  | None => false
  end.

(** [!auditState] for what [getProperty] hands back: [null] or a text. *)
Definition is_falsy (v : option PropVal) : bool :=
  match v with
  | None => true
  | Some (PText s _) => String.eqb s ""
  | Some (PJson _) => false
  end.

Definition BATCH_SIZE : Z := 500.
Definition MAX_EXECUTION_TIME : Z := 270000.
Definition CONTINUATION_DELAY_MINUTES : Z := 1.

Definition headers : Row :=
  map CStr [ "File Name"; "File ID"; "Owner"; "Type"; "MIME Type"; "Created Date";
             "Modified Date"; "Size (bytes)"; "URL"; "Permissions Count";
             "Permission Type"; "Permission Role"; "Permission Email";
             "Permission Domain"; "Permission Display Name" ].

Definition null_error (method : string) : string :=
  "TypeError: Cannot read properties of null (reading '" +:+ method +:+ "')".

(** The loop variables of the processing phase. *)
Record LoopVars := mkLoopVars {
  auditState : AuditState;
  filesInThisBatch : Z;
  continueProcessing : bool
}.

Inductive LoopCtl := Continue | Break.

(** ** The program *)

Section Program.

Variable env : Env.

(** *** Calls to the collaborators *)

(** [new Date()] / [new Date().getTime()] *)
Definition now (site : ClockSite) : M Z :=
  fun w => let t := clock env (trace w) in (Normal t, record (EvClock site t) w).

Definition getProperty (key : string) : M (option PropVal) :=
  fun w => (Normal (props w !! key), w).

(** [scriptProps.setProperty(key, JSON.stringify(st))] *)
Definition setProperty (key : string) (st : AuditState) : M unit :=
  fun w => (Normal tt, record (EvSetProperty key st) (with_props (insert key (PJson st)) w)).

Definition deleteProperty (key : string) : M unit :=
  fun w => (Normal tt, record (EvDeleteProperty key) (with_props (delete key) w)).

Definition Drive_Files_list (token : option string) (pageSize : Z) : M FilesResponse :=
  fun w =>
    let result := Files_list env (trace w) token pageSize in
    let w' := record (EvFilesList token pageSize result) w in
    match result with
    | Returns response => (Normal response, w')
    | Throws error => (Throw error, w')
    end.

Definition Drive_Permissions_list (fileId : string) : M PermissionsResponse :=
  fun w =>
    let result := Permissions_list env (trace w) fileId in
    let w' := record (EvPermissionsList fileId result) w in
    match result with
    | Returns response => (Normal response, w')
    | Throws error => (Throw error, w')
    end.

Definition ui_alert (title : string) : M Button :=
  fun w => let b := alert_answer env (trace w) title in (Normal b, record (EvAlert title b) w).

(** [auditSheet.getLastRow()]; the rows of the sheet all have content.
    The variable [auditSheet] of the source is what
    [ss.getSheetByName('Drive Audit')] handed back, or the sheet made by the
    setup; nothing removes the sheet during an invocation, so the variable
    is [null] exactly when the world has no audit sheet. *)
Definition getLastRow : M Z :=
  fun w =>
    match auditSheet w with
    | Some rows => (Normal (Z.of_nat (length rows)), w)
    | None => (Throw (null_error "getLastRow"), w)
    end.

(** [auditSheet.getRange(firstRow, 1, rows.length, 15).setValues(rows)],
    called with [firstRow = lastRow + 1]. *)
Definition setValues (firstRow : Z) (rows : list Row) : M unit :=
  fun w =>
    match auditSheet w with
    | Some old => (Normal tt, record (EvSetValues firstRow rows) (with_auditSheet (Some (old ++ rows)) w))
    | None => (Throw (null_error "getRange"), w)
    end.

(** The audit sheet is cleared, or created when it is missing, and the
    header row is written. *)
Definition prepare_audit_sheet : M unit :=
  fun w => (Normal tt, record EvSheetSetup (with_auditSheet (Some [headers]) w)).

(** [createSummary(summarySheet, totalFiles, totalPermissions)], on the
    summary sheet cleared or created just before. *)
Definition createSummary (totalFiles totalPermissions : Z) : M unit :=
  fun w => (Normal tt,
            record (EvSummary totalFiles totalPermissions)
                   (with_summarySheet (Some (totalFiles, totalPermissions)) w)).

(** *** [updateAuditStatus]

    The body of the function is one [try] block whose [catch] only logs;
    with a spreadsheet service that does not throw, the status sheet is
    rewritten each time. *)
Definition updateAuditStatus (status message : string) (filesProcessed totalFiles : Z) : M unit :=
  fun w =>
    let progress := if 0 <? totalFiles then Some (filesProcessed, totalFiles) else None in
    (Normal tt,
     record (EvStatus status message filesProcessed totalFiles)
            (with_statusSheet (Some (mkStatusData status message progress)) w)).

(** *** [deleteContinuationTriggers] *)
Definition deleteContinuationTriggers : M unit :=
  fun w =>
    (Normal tt,
     record (EvDeleteTriggers "processDriveAuditBatch")
            (with_triggers
               (List.filter (fun trigger =>
                          negb (String.eqb (handlerFunction trigger) "processDriveAuditBatch")))
               w)).

(** [ScriptApp.newTrigger(handler).timeBased(). ... .create()] *)
Definition newTrigger (handler : string) (kind : TriggerKind) : M unit :=
  fun w =>
    let trigger := mkTrigger handler kind in
    (Normal tt, record (EvNewTrigger trigger) (with_triggers (fun l => l ++ [trigger]) w)).

(** *** [scheduleAuditContinuation] *)
Definition scheduleAuditContinuation : M unit :=
  try_catch
    (deleteContinuationTriggers ;;
     newTrigger "processDriveAuditBatch" (After (CONTINUATION_DELAY_MINUTES * 60 * 1000)) ;;
     updateAuditStatus "RUNNING"
       ("Audit in progress. Will continue automatically in "
          +:+ pretty CONTINUATION_DELAY_MINUTES +:+ " minute. "
          +:+ "Check back later for results.")
       0 0)
    (fun error => ret tt).

(** *** [getDriveFilesBatch]: [null] when the listing call throws *)
Definition getDriveFilesBatch (pageToken : option string) (pageSize : Z) : M (option FilesResponse) :=
  try_catch
    (response <- Drive_Files_list pageToken (if pageSize =? 0 then 100 else pageSize) ;;
     ret (Some response))
    (fun error => ret None).

(** *** [getFilePermissions]: the empty list when the call throws *)
Definition getFilePermissions (fileId : string) : M (list Permission) :=
  let permissions_ : list Permission := [] in
  try_catch
    (response <- Drive_Permissions_list fileId ;;
     match permissions response with
     | Some ps => ret ps
     | None => ret permissions_
     end)
    (fun error => ret []).

(** *** The processing loop *)

(** The callback of [filesBatch.files.forEach]; it updates the audit state,
    [filesInThisBatch] and [auditData]. *)
Definition process_file (file : File) (acc : AuditState * Z * list Row)
  : M (AuditState * Z * list Row) :=
  let '(st, n, auditData) := acc in
  let st := set_filesProcessed (filesProcessed st + 1) st in
  let n := n + 1 in
  permissions <- getFilePermissions (id file) ;;
  ret (st, n, auditData ++ file_rows file permissions).

(** [!filesBatch || !filesBatch.files || filesBatch.files.length === 0] *)
Definition no_files (filesBatch : option FilesResponse) : bool :=
  match filesBatch with
  | None => true
  | Some response =>
      match files response with
      | None => true
      | Some fs => Nat.eqb (length fs) 0
      end
  end.

Definition batch_files (filesBatch : option FilesResponse) : list File :=
  match filesBatch with
  | Some response => default [] (files response)
  | None => []
  end.

Definition batch_nextPageToken (filesBatch : option FilesResponse) : option string :=
  match filesBatch with
  | Some response => nextPageToken response
  | None => None
  end.

(** One turn of the [while] loop. *)
Definition loop_body (startTime : Z) (v : LoopVars) : M (LoopCtl * LoopVars) :=
  t <- now AtBudgetCheck ;;
  let elapsedTime := t - startTime in
  if MAX_EXECUTION_TIME <? elapsedTime then
    setProperty "AUDIT_STATE" (auditState v) ;;
    call scheduleAuditContinuation ;;
    return_
  else
    filesBatch <- getDriveFilesBatch (pageToken (auditState v)) 100 ;;
    if no_files filesBatch then
      ret (Break, mkLoopVars (set_phase "FINALIZING" (auditState v))
                             (filesInThisBatch v) (continueProcessing v))
    else
      acc <- forEach (batch_files filesBatch) process_file
                     (auditState v, filesInThisBatch v, []) ;;
      let '(st, n, auditData) := acc in
      st <- (if (0 <? length auditData)%nat then
               lastRow <- getLastRow ;;
               setValues (lastRow + 1) auditData ;;
               ret (set_auditDataCount (auditDataCount st + Z.of_nat (length auditData)) st)
             else ret st) ;;
      let st := set_pageToken (batch_nextPageToken filesBatch) st in
      (if Z.rem (filesProcessed st) 50 =? 0 then
         updateAuditStatus "RUNNING"
           ("Processing files... " +:+ pretty (filesProcessed st) +:+ " files processed")
           (filesProcessed st) 0
       else ret tt) ;;
      let '(st, continue) :=
        if negb (truthy (pageToken st))
        then (set_phase "FINALIZING" st, false)
        else (st, continueProcessing v) in
      setProperty "AUDIT_STATE" st ;;
      ret (Continue, mkLoopVars st n continue).

(** [while (continueProcessing && filesInThisBatch < BATCH_SIZE) { ... }] *)
Fixpoint while_loop (fuel : nat) (startTime : Z) (v : LoopVars) : M LoopVars :=
  if continueProcessing v && (filesInThisBatch v <? BATCH_SIZE) then
    match fuel with
    | O => fun w => (OutOfFuel, w)
    | S fuel' =>
        r <- loop_body startTime v ;;
        match r with
        | (Break, v') => ret v'
        | (Continue, v') => while_loop fuel' startTime v'
        end
    end
  else ret v.

(** *** The three phases *)

(** [if (auditState.phase === 'SETUP') { ... }] *)
Definition setup_phase (st : AuditState) : M AuditState :=
  if String.eqb (phase st) "SETUP" then
    prepare_audit_sheet ;;
    let st := set_phase "PROCESSING" st in
    setProperty "AUDIT_STATE" st ;;
    ret st
  else ret st.

(** [if (auditState.phase === 'PROCESSING') { ... }]; the loop gets fuel
    for [BATCH_SIZE] turns, which it never uses up ([while_loop_run]). *)
Definition processing_phase (startTime : Z) (st : AuditState) : M AuditState :=
  if String.eqb (phase st) "PROCESSING" then
    updateAuditStatus "RUNNING" "Processing files and permissions..." (filesProcessed st) 0 ;;
    v <- while_loop (Z.to_nat BATCH_SIZE) startTime (mkLoopVars st 0 true) ;;
    let st := auditState v in
    if String.eqb (phase st) "PROCESSING" then
      setProperty "AUDIT_STATE" st ;;
      call scheduleAuditContinuation ;;
      return_
    else ret st
  else ret st.

(** [Math.round(ms / 1000)] *)
Definition round_seconds (ms : Z) : Z := (ms + 500) / 1000.

(** [if (auditState.phase === 'FINALIZING') { ... }]; [lastRow] only
    decides whether the columns are resized and a filter is added. *)
Definition finalizing_phase (st : AuditState) : M unit :=
  if String.eqb (phase st) "FINALIZING" then
    updateAuditStatus "RUNNING" "Finalizing audit..." (filesProcessed st) (filesProcessed st) ;;
    lastRow <- getLastRow ;;
    createSummary (filesProcessed st) (auditDataCount st) ;;
    endTime <- now AtFinalize ;;
    let totalDuration := endTime - startTime st in
    updateAuditStatus "COMPLETED"
      ("Audit completed successfully! "
         +:+ "Files audited: " +:+ pretty (filesProcessed st) +:+ ", "
         +:+ "Permission entries: " +:+ pretty (auditDataCount st) +:+ ", "
         +:+ "Duration: " +:+ pretty (round_seconds totalDuration) +:+ " seconds")
      (filesProcessed st) (filesProcessed st) ;;
    deleteProperty "AUDIT_STATE" ;;
    deleteProperty "AUDIT_PAGE_TOKEN" ;;
    call deleteContinuationTriggers
  else ret tt.

(** [JSON.parse(text)] of a stored property. *)
Definition JSON_parse (v : PropVal) : M AuditState :=
  match v with
  | PJson st => ret st
  | PText s _ => throw ("SyntaxError: Unexpected token in JSON: " +:+ s)
  end.

(** Reading or creating the audit state (the start of the [try] block). *)
Definition load_state : M AuditState :=
  auditState <- getProperty "AUDIT_STATE" ;;
  match auditState with
  | Some v =>
      if is_falsy auditState then
        t <- now AtStateInit ;;
        ret (mkState "SETUP" 0 0 0 None t)
      else JSON_parse v
  | None =>
      t <- now AtStateInit ;;
      ret (mkState "SETUP" 0 0 0 None t)
  end.

(** *** [processDriveAuditBatch] *)

(** The [try] block. *)
Definition try_block (startTime : Z) : M unit :=
  auditState <- load_state ;;
  auditState <- setup_phase auditState ;;
  auditState <- processing_phase startTime auditState ;;
  finalizing_phase auditState.

(** The [catch] block. *)
Definition catch_block (error : string) : M unit :=
  updateAuditStatus "ERROR" ("An error occurred during the audit: " +:+ error) 0 0 ;;
  deleteProperty "AUDIT_STATE" ;;
  deleteProperty "AUDIT_PAGE_TOKEN" ;;
  call deleteContinuationTriggers.

Definition processDriveAuditBatch : M unit :=
  call
    (startTime <- now AtInvocationStart ;;
     try_catch (try_block startTime) catch_block).

(** *** [runDriveAudit] *)
Definition runDriveAudit : M unit :=
  call
    (deleteProperty "AUDIT_STATE" ;;
     deleteProperty "AUDIT_PAGE_TOKEN" ;;
     updateAuditStatus "RUNNING"
       "Audit is in progress. For large Drive accounts, this may take some time. The audit will automatically continue every minute if needed."
       0 0 ;;
     ui_alert "Drive Audit" ;;
     processDriveAuditBatch).

(** *** [cancelRunningAudit] *)
Definition cancelRunningAudit : M unit :=
  call
    (auditState <- getProperty "AUDIT_STATE" ;;
     if is_falsy auditState then
       ui_alert "No Running Audit" ;;
       return_
     else
       result <- ui_alert "Cancel Running Audit?" ;;
       match result with
       | YES =>
           try_catch
             (deleteProperty "AUDIT_STATE" ;;
              deleteProperty "AUDIT_PAGE_TOKEN" ;;
              call deleteContinuationTriggers ;;
              updateAuditStatus "CANCELLED"
                "Audit was cancelled by user. You can run a new audit anytime from the Add-ons menu."
                0 0 ;;
              ui_alert "Audit Cancelled" ;;
              ret tt)
             (fun error => ui_alert "Error" ;; ret tt)
       | _ => ret tt
       end).

End Program.

(** ** What is observed of a run *)

(** The statuses reported, oldest first. *)
Definition statuses (evs : list Event) : list string :=
  flat_map (fun e => match e with EvStatus s _ _ _ => [s] | _ => [] end) evs.

Definition continuation_triggers (w : World) : list Trigger :=
  List.filter (fun trigger => String.eqb (handlerFunction trigger) "processDriveAuditBatch")
         (triggers w).

(** ** What one page does *)

Definition record_all (evs : list Event) (w : World) : World :=
  mkWorld (props w) (auditSheet w) (statusSheet w) (summarySheet w) (triggers w) (trace w ++ evs).

(** The permissions [getFilePermissions] hands back for an answer of Drive. *)
Definition permissions_of (result : Outcome PermissionsResponse) : list Permission :=
  match result with
  | Returns response => default [] (permissions response)
  | Throws _ => []
  end.

(** The answers of Drive to the permission calls of a page, asked file by
    file after history [h]. *)
Fixpoint fan_out (env : Env) (h : list Event) (fs : list File) : list (Outcome PermissionsResponse) :=
  match fs with
  | [] => []
  | f :: fs' =>
      let o := Permissions_list env h (id f) in
      o :: fan_out env (h ++ [EvPermissionsList (id f) o]) fs'
  end.

Fixpoint fan_out_events (fs : list File) (outs : list (Outcome PermissionsResponse)) : list Event :=
  match fs, outs with
  | f :: fs', o :: outs' => EvPermissionsList (id f) o :: fan_out_events fs' outs'
  | _, _ => []
  end.

Fixpoint fan_out_rows (fs : list File) (outs : list (Outcome PermissionsResponse)) : list Row :=
  match fs, outs with
  | f :: fs', o :: outs' => file_rows f (permissions_of o) ++ fan_out_rows fs' outs'
  | _, _ => []
  end.

(** The audit state after a page with files [fs], next-page token [next]
    and permission answers [outs]. *)
Definition next_state (st : AuditState) (fs : list File) (next : option string)
           (outs : list (Outcome PermissionsResponse)) : AuditState :=
  let st1 := set_filesProcessed (filesProcessed st + Z.of_nat (length fs)) st in
  let st2 := set_auditDataCount (auditDataCount st1 + Z.of_nat (length (fan_out_rows fs outs))) st1 in
  let st3 := set_pageToken next st2 in
  if truthy next then st3 else set_phase "FINALIZING" st3.

Definition next_vars (v : LoopVars) (fs : list File) (next : option string)
           (outs : list (Outcome PermissionsResponse)) : LoopVars :=
  mkLoopVars (next_state (auditState v) fs next outs)
             (filesInThisBatch v + Z.of_nat (length fs))
             (if truthy next then continueProcessing v else false).

Definition progress_message (n : Z) : string :=
  "Processing files... " +:+ pretty n +:+ " files processed".

(** The status report made every 50 files. *)
Definition cadence_events (st : AuditState) : list Event :=
  if Z.rem (filesProcessed st) 50 =? 0
  then [EvStatus "RUNNING" (progress_message (filesProcessed st)) (filesProcessed st) 0]
  else [].

(** The calls of one full turn of the loop: budget check, page fetch, one
    permission call per file, rows appended, cadence report, state saved. *)
Definition page_events (t : Z) (st : AuditState) (r : FilesResponse) (fs : list File)
           (outs : list (Outcome PermissionsResponse)) (lastRow : Z) : list Event :=
  [EvClock AtBudgetCheck t; EvFilesList (pageToken st) 100 (Returns r)]
    ++ fan_out_events fs outs
    ++ [EvSetValues (lastRow + 1) (fan_out_rows fs outs)]
    ++ cadence_events (next_state st fs (nextPageToken r) outs)
    ++ [EvSetProperty "AUDIT_STATE" (next_state st fs (nextPageToken r) outs)].

Definition continuation_message : string :=
  "Audit in progress. Will continue automatically in 1 minute. Check back later for results.".

Definition continuation_trigger : Trigger :=
  mkTrigger "processDriveAuditBatch" (After 60000).

(** The calls of a checkpoint: state saved, old continuations cancelled, one
    registered, status reported. *)
Definition checkpoint_events (st : AuditState) : list Event :=
  [EvSetProperty "AUDIT_STATE" st;
   EvDeleteTriggers "processDriveAuditBatch";
   EvNewTrigger continuation_trigger;
   EvStatus "RUNNING" continuation_message 0 0].

Definition checkpoint_world (st : AuditState) (w : World) : World :=
  mkWorld (<["AUDIT_STATE" := PJson st]> (props w))
          (auditSheet w)
          (Some (mkStatusData "RUNNING" continuation_message None))
          (summarySheet w)
          (List.filter (fun trigger => negb (String.eqb (handlerFunction trigger) "processDriveAuditBatch"))
                  (triggers w) ++ [continuation_trigger])
          (trace w ++ checkpoint_events st).

(** The world after a full turn of the loop on a sheet with rows [old]. *)
Definition page_world (t : Z) (st : AuditState) (r : FilesResponse) (fs : list File)
           (outs : list (Outcome PermissionsResponse)) (old : list Row) (w : World) : World :=
  let st' := next_state st fs (nextPageToken r) outs in
  mkWorld (<["AUDIT_STATE" := PJson st']> (props w))
          (Some (old ++ fan_out_rows fs outs))
          (if Z.rem (filesProcessed st') 50 =? 0
           then Some (mkStatusData "RUNNING" (progress_message (filesProcessed st')) None)
           else statusSheet w)
          (summarySheet w)
          (triggers w)
          (trace w ++ page_events t st r fs outs (Z.of_nat (length old))).

(** What [getDriveFilesBatch] hands back for an answer of Drive. *)
Definition batch_of (result : Outcome FilesResponse) : option FilesResponse :=
  match result with
  | Returns response => Some response
  | Throws _ => None
  end.

Section StepsDefinitions.

Variable env : Env.

(** The first Drive answer of a turn of the loop that starts in world [w]. *)
Definition turn_time (w : World) : Z := clock env (trace w).
Definition turn_answer (v : LoopVars) (w : World) : Outcome FilesResponse :=
  Files_list env (trace w ++ [EvClock AtBudgetCheck (turn_time w)])
             (pageToken (auditState v)) 100.
Definition turn_outcomes (v : LoopVars) (w : World) (fs : list File)
  : list (Outcome PermissionsResponse) :=
  fan_out env
    (trace w ++ [EvClock AtBudgetCheck (turn_time w);
                 EvFilesList (pageToken (auditState v)) 100 (turn_answer v w)]) fs.

End StepsDefinitions.

(** ** The loop as a sequence of page turns *)

(** [continueProcessing && filesInThisBatch < BATCH_SIZE] *)
Definition loop_guard (v : LoopVars) : bool :=
  continueProcessing v && (filesInThisBatch v <? BATCH_SIZE).

Definition finalizing_vars (v : LoopVars) : LoopVars :=
  mkLoopVars (set_phase "FINALIZING" (auditState v)) (filesInThisBatch v) (continueProcessing v).

Section LoopDefinitions.

Variable env : Env.

Variable t0 : Z.

(** A full turn: the guard holds, the budget is not exceeded, Drive hands
    back a page with files, and the audit sheet is there to take the rows. *)
Definition page_turn (v : LoopVars) (w : World) (v' : LoopVars) (w' : World) : Prop :=
  loop_guard v = true /\
  turn_time env w - t0 <= MAX_EXECUTION_TIME /\
  exists r fs old,
    turn_answer env v w = Returns r /\ files r = Some fs /\ fs <> [] /\
    auditSheet w = Some old /\
    v' = next_vars v fs (nextPageToken r) (turn_outcomes env v w fs) /\
    w' = page_world (turn_time env w) (auditState v) r fs (turn_outcomes env v w fs) old w.

Inductive turns : LoopVars -> World -> LoopVars -> World -> Prop :=
| turns_refl v w : turns v w v w
| turns_step v w v1 w1 v' w' :
    page_turn v w v1 w1 -> turns v1 w1 v' w' -> turns v w v' w'.

(** The four ways the loop is left from its head [(v, w)]. *)
Inductive loop_end (v : LoopVars) (w : World) : Completion LoopVars -> World -> Prop :=
| end_guard :
    loop_guard v = false ->
    loop_end v w (Normal v) w
| end_timeout :
    loop_guard v = true ->
    MAX_EXECUTION_TIME < turn_time env w - t0 ->
    loop_end v w Return
      (checkpoint_world (auditState v) (record (EvClock AtBudgetCheck (turn_time env w)) w))
| end_break :
    loop_guard v = true ->
    turn_time env w - t0 <= MAX_EXECUTION_TIME ->
    no_files (batch_of (turn_answer env v w)) = true ->
    loop_end v w (Normal (finalizing_vars v))
      (record_all [EvClock AtBudgetCheck (turn_time env w);
                   EvFilesList (pageToken (auditState v)) 100 (turn_answer env v w)] w)
| end_throw r fs :
    loop_guard v = true ->
    turn_time env w - t0 <= MAX_EXECUTION_TIME ->
    turn_answer env v w = Returns r -> files r = Some fs -> fs <> [] ->
    auditSheet w = None ->
    loop_end v w (Throw (null_error "getLastRow"))
      (record_all ([EvClock AtBudgetCheck (turn_time env w);
                    EvFilesList (pageToken (auditState v)) 100 (Returns r)]
                     ++ fan_out_events fs (turn_outcomes env v w fs)) w).

End LoopDefinitions.

(** ** What the page turns leave behind *)

(** The calls of a run of full turns that begins in state [st] and ends in
    state [st']: page after page, each with its budget check, its fetch,
    its permission calls, its rows and its saved state. *)
Inductive page_trace (t0 : Z) : AuditState -> list Event -> AuditState -> Prop :=
| page_trace_nil st : page_trace t0 st [] st
| page_trace_cons st t r fs outs lastRow evs st' :
    t - t0 <= MAX_EXECUTION_TIME ->
    files r = Some fs -> fs <> [] -> length outs = length fs ->
    page_trace t0 (next_state st fs (nextPageToken r) outs) evs st' ->
    page_trace t0 st (page_events t st r fs outs lastRow ++ evs) st'.

(** Number of items whose permissions were asked for. *)
Definition items_processed (evs : list Event) : Z :=
  Z.of_nat (length (List.filter (fun e => match e with EvPermissionsList _ _ => true | _ => false end) evs)).

(** Number of pages asked for. *)
Definition pages_fetched (evs : list Event) : Z :=
  Z.of_nat (length (List.filter (fun e => match e with EvFilesList _ _ _ => true | _ => false end) evs)).

(** Number of budget checks. *)
Definition budget_checks (evs : list Event) : Z :=
  Z.of_nat (length (List.filter (fun e => match e with EvClock AtBudgetCheck _ => true | _ => false end) evs)).

(** The loop variables agree with the phase: processing goes on exactly
    while the phase is ['PROCESSING']. *)
Definition phase_agrees (v : LoopVars) : Prop :=
  (phase (auditState v) = "PROCESSING" /\ continueProcessing v = true) \/
  (phase (auditState v) = "FINALIZING" /\ continueProcessing v = false).

(** ** The processing phase as a whole *)

Definition processing_message : string := "Processing files and permissions...".

(** The world after the status report that opens the processing phase. *)
Definition status_world (st : AuditState) (w : World) : World :=
  mkWorld (props w) (auditSheet w)
          (Some (mkStatusData "RUNNING" processing_message None))
          (summarySheet w) (triggers w)
          (trace w ++ [EvStatus "RUNNING" processing_message (filesProcessed st) 0]).

Section PhaseDefinitions.

Variable env : Env.

Variable t0 : Z.

(** The five ways the processing phase is left after its page turns. *)
Inductive phase_end (v : LoopVars) (w : World) : Completion AuditState -> World -> Prop :=
| phase_cap :
    loop_guard v = false -> phase (auditState v) = "PROCESSING" ->
    phase_end v w Return (checkpoint_world (auditState v) w)
| phase_exhausted :
    loop_guard v = false -> phase (auditState v) = "FINALIZING" ->
    phase_end v w (Normal (auditState v)) w
| phase_timeout :
    loop_guard v = true ->
    MAX_EXECUTION_TIME < turn_time env w - t0 ->
    phase_end v w Return
      (checkpoint_world (auditState v) (record (EvClock AtBudgetCheck (turn_time env w)) w))
| phase_break :
    loop_guard v = true ->
    turn_time env w - t0 <= MAX_EXECUTION_TIME ->
    no_files (batch_of (turn_answer env v w)) = true ->
    phase_end v w (Normal (set_phase "FINALIZING" (auditState v)))
      (record_all [EvClock AtBudgetCheck (turn_time env w);
                   EvFilesList (pageToken (auditState v)) 100 (turn_answer env v w)] w)
| phase_throw r fs :
    loop_guard v = true ->
    turn_time env w - t0 <= MAX_EXECUTION_TIME ->
    turn_answer env v w = Returns r -> files r = Some fs -> fs <> [] ->
    auditSheet w = None ->
    phase_end v w (Throw (null_error "getLastRow"))
      (record_all ([EvClock AtBudgetCheck (turn_time env w);
                    EvFilesList (pageToken (auditState v)) 100 (Returns r)]
                     ++ fan_out_events fs (turn_outcomes env v w fs)) w).

End PhaseDefinitions.

(** ** Cancellation *)

(** [AUDIT_STATE] holds something ([auditState] is truthy). *)
Definition has_state (w : World) : bool := negb (is_falsy (props w !! "AUDIT_STATE")).

(** The triggers that are not continuations of the batch processor. *)
Definition other_triggers (w : World) : list Trigger :=
  List.filter (fun trigger => negb (String.eqb (handlerFunction trigger) "processDriveAuditBatch"))
              (triggers w).

(** The events a call adds to the history of [w]. *)
Definition added (w w' : World) : list Event := drop (length (trace w)) (trace w').

Definition cancelled_message : string :=
  "Audit was cancelled by user. You can run a new audit anytime from the Add-ons menu.".

(** The world after a confirmed cancellation. *)
Definition cancelled_world (env : Env) (w : World) : World :=
  let h := trace w ++ [EvAlert "Cancel Running Audit?" YES;
                       EvDeleteProperty "AUDIT_STATE";
                       EvDeleteProperty "AUDIT_PAGE_TOKEN";
                       EvDeleteTriggers "processDriveAuditBatch";
                       EvStatus "CANCELLED" cancelled_message 0 0] in
  mkWorld (delete "AUDIT_PAGE_TOKEN" (delete "AUDIT_STATE" (props w)))
          (auditSheet w)
          (Some (mkStatusData "CANCELLED" cancelled_message None))
          (summarySheet w)
          (List.filter (fun trigger => negb (String.eqb (handlerFunction trigger) "processDriveAuditBatch"))
                       (triggers w))
          (h ++ [EvAlert "Audit Cancelled" (alert_answer env h "Audit Cancelled")]).

(** ** The shape of the processing phase *)

(** How the processing phase ends, after page turns that brought the state
    to [st1] and counted [n] files in this invocation: the calls made at
    the end, and how the phase completes. *)
Inductive ending (t0 : Z) (st1 : AuditState) (n : Z) : list Event -> Completion AuditState -> Prop :=
| ending_cap :
    BATCH_SIZE <= n -> phase st1 = "PROCESSING" ->
    ending t0 st1 n (checkpoint_events st1) Return
| ending_exhausted :
    phase st1 = "FINALIZING" ->
    ending t0 st1 n [] (Normal st1)
| ending_timeout t :
    n < BATCH_SIZE -> phase st1 = "PROCESSING" ->
    MAX_EXECUTION_TIME < t - t0 ->
    ending t0 st1 n (EvClock AtBudgetCheck t :: checkpoint_events st1) Return
| ending_break t o :
    n < BATCH_SIZE -> phase st1 = "PROCESSING" ->
    t - t0 <= MAX_EXECUTION_TIME ->
    no_files (batch_of o) = true ->
    ending t0 st1 n [EvClock AtBudgetCheck t; EvFilesList (pageToken st1) 100 o]
           (Normal (set_phase "FINALIZING" st1))
| ending_throw t r fs outs :
    n < BATCH_SIZE -> phase st1 = "PROCESSING" ->
    t - t0 <= MAX_EXECUTION_TIME ->
    files r = Some fs -> fs <> [] -> length outs = length fs ->
    ending t0 st1 n
           ([EvClock AtBudgetCheck t; EvFilesList (pageToken st1) 100 (Returns r)]
              ++ fan_out_events fs outs)
           (Throw (null_error "getLastRow")).

(** What a completion of the processing phase says about the world. *)
Definition ending_world (st1 : AuditState) (w w' : World) (c : Completion AuditState) : Prop :=
  match c with
  | Return =>
      props w' !! "AUDIT_STATE" = Some (PJson st1) /\
      triggers w' = other_triggers w ++ [continuation_trigger] /\
      statusSheet w' = Some (mkStatusData "RUNNING" continuation_message None)
  | Normal _ => triggers w' = triggers w
  | Throw _ => triggers w' = triggers w /\ auditSheet w' = None
  | OutOfFuel => False
  end.

(** ** The state is saved after every page *)

(** The rows written to the audit sheet by the calls [evs], in order. *)
Definition written_rows (evs : list Event) : list Row :=
  flat_map (fun e => match e with EvSetValues _ rows => rows | _ => [] end) evs.

(** A reading of a history: [stored] is the audit state that the calls so
    far left under ['AUDIT_STATE'], [processed] the number of items handled
    so far and [rows] the number of rows written so far.  The history is
    good when every page fetch is made with the cursor of the stored state,
    and the stored state counts every item handled and every row written
    before the fetch. *)
Fixpoint fetches_see_saved_state (stored : option AuditState) (processed rows : Z)
         (evs : list Event) : Prop :=
  match evs with
  | [] => True
  | EvFilesList token _ _ :: evs' =>
      (exists s, stored = Some s /\ pageToken s = token /\
                 filesProcessed s = processed /\ auditDataCount s = rows) /\
      fetches_see_saved_state stored processed rows evs'
  | EvSetProperty key s :: evs' =>
      fetches_see_saved_state (if String.eqb key "AUDIT_STATE" then Some s else stored)
                              processed rows evs'
  | EvDeleteProperty key :: evs' =>
      fetches_see_saved_state (if String.eqb key "AUDIT_STATE" then None else stored)
                              processed rows evs'
  | EvPermissionsList _ _ :: evs' =>
      fetches_see_saved_state stored (processed + 1) rows evs'
  | EvSetValues _ rs :: evs' =>
      fetches_see_saved_state stored processed (rows + Z.of_nat (length rs)) evs'
  | _ :: evs' => fetches_see_saved_state stored processed rows evs'
  end.

(** ** Finalization and the error handler *)

Definition finalizing_message : string := "Finalizing audit...".

Definition completed_message (st : AuditState) (endTime : Z) : string :=
  "Audit completed successfully! "
    +:+ "Files audited: " +:+ pretty (filesProcessed st) +:+ ", "
    +:+ "Permission entries: " +:+ pretty (auditDataCount st) +:+ ", "
    +:+ "Duration: " +:+ pretty (round_seconds (endTime - startTime st)) +:+ " seconds".

(** The calls of a finalization that goes through. *)
Definition finalize_events (st : AuditState) (endTime : Z) : list Event :=
  [EvStatus "RUNNING" finalizing_message (filesProcessed st) (filesProcessed st);
   EvSummary (filesProcessed st) (auditDataCount st);
   EvClock AtFinalize endTime;
   EvStatus "COMPLETED" (completed_message st endTime) (filesProcessed st) (filesProcessed st);
   EvDeleteProperty "AUDIT_STATE";
   EvDeleteProperty "AUDIT_PAGE_TOKEN";
   EvDeleteTriggers "processDriveAuditBatch"].

Definition error_message (error : string) : string :=
  "An error occurred during the audit: " +:+ error.

(** The calls of the [catch] block. *)
Definition error_events (error : string) : list Event :=
  [EvStatus "ERROR" (error_message error) 0 0;
   EvDeleteProperty "AUDIT_STATE";
   EvDeleteProperty "AUDIT_PAGE_TOKEN";
   EvDeleteTriggers "processDriveAuditBatch"].

(** No state is stored and no continuation is pending. *)
Definition cleaned (w : World) : Prop :=
  props w !! "AUDIT_STATE" = None /\ continuation_triggers w = [].

(** ** One invocation as a whole *)

(** Number of page fetches that threw. *)
Definition failed_fetches (evs : list Event) : Z :=
  Z.of_nat (length (List.filter
                      (fun e => match e with EvFilesList _ _ (Throws _) => true | _ => false end)
                      evs)).

(** When a page fetch threw among the calls [evs], it is the last of them
    and the only one that threw. *)
Definition failure_is_last (evs : list Event) : Prop :=
  0 < failed_fetches evs ->
  exists pre token n e,
    evs = pre ++ [EvFilesList token n (Throws e)] /\ failed_fetches pre = 0.

(** The start of the [try] block: the state is read or created, and the
    sheet is set up for a fresh job. *)
Definition prologue (env : Env) : M AuditState :=
  (auditState <- load_state env ;; setup_phase auditState)%audit.

(** What is left of the [try] block. *)
Definition phases (env : Env) (t0 : Z) (st : AuditState) : M unit :=
  (auditState <- processing_phase env t0 st ;; finalizing_phase env auditState)%audit.

(** The ways the [try] block ends, with the world it leaves and the calls
    it made. *)
Inductive outcome : Completion unit -> World -> list Event -> Prop :=
| out_checkpoint w' evs :
    Forall (eq "RUNNING") (statuses evs) -> failed_fetches evs = 0 ->
    is_Some (props w' !! "AUDIT_STATE") ->
    continuation_triggers w' = [continuation_trigger] ->
    outcome Return w' evs
| out_thrown e w' evs :
    Forall (eq "RUNNING") (statuses evs) ->
    (0 < failed_fetches evs -> auditSheet w' = None) ->
    outcome (Throw e) w' evs
| out_finalized w' evs0 st t :
    Forall (eq "RUNNING") (statuses evs0) ->
    cleaned w' -> is_Some (auditSheet w') ->
    failure_is_last evs0 ->
    outcome (Normal tt) w' (evs0 ++ finalize_events st t)
| out_idle w' evs :
    statuses evs = [] -> failed_fetches evs = 0 ->
    outcome (Normal tt) w' evs.

(** ** Terminal cleanup *)

(** The statuses that end a job. *)
Definition terminal (status : string) : bool :=
  String.eqb status "COMPLETED" || String.eqb status "ERROR" || String.eqb status "CANCELLED".

(** The world in which [runDriveAudit] calls the batch processor. *)
Definition started_world (env : Env) (w : World) : World :=
  let h := trace w ++ [EvDeleteProperty "AUDIT_STATE";
                       EvDeleteProperty "AUDIT_PAGE_TOKEN";
                       EvStatus "RUNNING"
                         "Audit is in progress. For large Drive accounts, this may take some time. The audit will automatically continue every minute if needed."
                         0 0] in
  mkWorld (delete "AUDIT_PAGE_TOKEN" (delete "AUDIT_STATE" (props w)))
          (auditSheet w)
          (Some (mkStatusData "RUNNING"
                   "Audit is in progress. For large Drive accounts, this may take some time. The audit will automatically continue every minute if needed."
                   None))
          (summarySheet w) (triggers w)
          (h ++ [EvAlert "Drive Audit" (alert_answer env h "Drive Audit")]).

(** ** A permission fetch that fails *)


(** ** Scenarios: concrete Drives, clocks and worlds *)

Definition token_of (i : nat) : string := "page" +:+ pretty (Z.of_nat i).

(** Index of the page a token stands for, among [n] pages. *)
Definition index_of_token (n : nat) (token : option string) : nat :=
  match token with
  | None => 0%nat
  | Some s => default n (find (fun i => String.eqb (token_of i) s) (seq 0 n))
  end.

(** A Drive whose listing is the given pages, in order. *)
Definition paged_drive (pages : list (list File)) (token : option string) : Outcome FilesResponse :=
  let i := index_of_token (length pages) token in
  Returns (mkFilesResponse (pages !! i)
             (if (S i <? length pages)%nat then Some (token_of (S i)) else None)).

Definition plain_file (i : nat) : File :=
  mkFile ("id" +:+ pretty (Z.of_nat i)) ("file" +:+ pretty (Z.of_nat i))
         "application/pdf" None None None None None.

(** [k] files numbered from [from]. *)
Definition plain_files (from k : nat) : list File := map plain_file (seq from k).

Definition reader (n : nat) : Permission :=
  mkPermission "user" "reader" (Some ("u" +:+ pretty (Z.of_nat n) +:+ "@example.com")) None None.

(** An empty spreadsheet, no stored property, no trigger. *)
Definition fresh_world : World := mkWorld ∅ None None None [] [].

(** A world left by an earlier invocation: the given state is stored, the
    audit sheet has its header row, and one continuation is pending. *)
Definition resumed_world (st : AuditState) : World :=
  mkWorld {[ "AUDIT_STATE" := PJson st ]} (Some [headers]) None None
          [mkTrigger "processDriveAuditBatch" (After 60000)] [].

Definition processing_state : AuditState := mkState "PROCESSING" 0 0 0 None 0.

(** Time stands still. *)
Definition frozen_clock : list Event -> Z := fun _ => 0.

Definition no_permissions : list Event -> string -> Outcome PermissionsResponse :=
  fun _ _ => Returns (mkPermissionsResponse (Some [])).

Definition always (b : Button) : list Event -> string -> Button := fun _ _ => b.

(** Scenario C: three items whose permission fetches give two permissions,
    a failure, and one permission. *)
Definition scenarioC_env : Env :=
  mkEnv frozen_clock
        (fun _ => fun token _ => paged_drive [plain_files 1 3] token)
        (fun _ fileId =>
           if String.eqb fileId "id1" then Returns (mkPermissionsResponse (Some [reader 1; reader 2]))
           else if String.eqb fileId "id2" then Throws "Exception: Rate limit exceeded"
           else Returns (mkPermissionsResponse (Some [reader 3])))
        (always YES).

(** A Drive with nothing in it, a clock that stands still, and a user who
    always gives the same answer. *)
Definition quiet_env (answer : Button) : Env :=
  mkEnv frozen_clock (fun _ token _ => paged_drive [] token) no_permissions (always answer).

(** A clock that jumps past the budget once a page has been fetched. *)
Definition late_clock : list Event -> Z :=
  fun h => if 0 <? pages_fetched h then 300000 else 0.

(** Two pages of three files, no permissions, and the late clock. *)
Definition late_env : Env :=
  mkEnv late_clock
        (fun _ token _ => paged_drive [plain_files 1 3; plain_files 4 3] token)
        no_permissions (always YES).

(** Two pages of three files, no permissions, no budget pressure. *)
Definition two_page_env : Env :=
  mkEnv frozen_clock
        (fun _ token _ => paged_drive [plain_files 1 3; plain_files 4 3] token)
        no_permissions (always YES).

(** Pages of the given sizes, the files numbered from [from] on. *)
Fixpoint pages_of_sizes (from : nat) (sizes : list nat) : list (list File) :=
  match sizes with
  | [] => []
  | k :: sizes' => plain_files from k :: pages_of_sizes (from + k) sizes'
  end.

(** A Drive with the given pages, no permissions, no budget pressure. *)
Definition paged_env (pages : list (list File)) : Env :=
  mkEnv frozen_clock (fun _ token _ => paged_drive pages token) no_permissions (always YES).

(** A Drive whose first page has three files and a next-page token, and
    whose second page cannot be fetched. *)
Definition flaky_env : Env :=
  mkEnv frozen_clock
        (fun _ token _ =>
           match token with
           | None => Returns (mkFilesResponse (Some (plain_files 1 3)) (Some "page1"))
           | Some _ => Throws "Exception: Internal error encountered"
           end)
        no_permissions (always YES).

(** A state in phase FINALIZING, as the loop stores it after the last
    page. *)
Definition finalizing_state : AuditState := mkState "FINALIZING" 0 6 6 None 0.

(** A world that stores the given state and has no audit sheet. *)
Definition sheetless_world (st : AuditState) : World :=
  mkWorld {[ "AUDIT_STATE" := PJson st ]} None None None [] [].

(** ** More of the program: the weekly schedule and the legacy listing *)

(** The triggers of the weekly schedule. *)
Definition scheduled_triggers (w : World) : list Trigger :=
  List.filter (fun trigger => String.eqb (handlerFunction trigger) "runDriveAudit") (triggers w).

Definition weekly_trigger : Trigger := mkTrigger "runDriveAudit" (OnWeekDay "MONDAY" 6).

Section Schedule.

Variable env : Env.

(** The loop [triggers.forEach(...)] of [setupWeeklyTrigger] and
    [removeScheduledAudits]: every trigger whose handler is
    ['runDriveAudit'] is deleted; the result is [deletedCount]. *)
Definition deleteScheduledTriggers : M nat :=
  fun w =>
    (Normal (length (List.filter
                       (fun trigger => String.eqb (handlerFunction trigger) "runDriveAudit")
                       (triggers w))),
     record (EvDeleteTriggers "runDriveAudit")
            (with_triggers
               (List.filter (fun trigger =>
                               negb (String.eqb (handlerFunction trigger) "runDriveAudit")))
               w)).

(** *** [setupWeeklyTrigger] *)
Definition setupWeeklyTrigger : M unit :=
  call
    (try_catch
       (deletedCount <- deleteScheduledTriggers ;;
        newTrigger "runDriveAudit" (OnWeekDay "MONDAY" 6) ;;
        ui_alert env "Success" ;;
        ret tt)
       (fun error => ui_alert env "Error" ;; ret tt)).

(** *** [removeScheduledAudits] *)
Definition removeScheduledAudits : M unit :=
  call
    (try_catch
       (deletedCount <- deleteScheduledTriggers ;;
        if (0 <? deletedCount)%nat then
          ui_alert env "Success" ;; ret tt
        else
          ui_alert env "No Schedule Found" ;; ret tt)
       (fun error => ui_alert env "Error" ;; ret tt)).

(** *** [showScheduleDialog] *)
Definition showScheduleDialog : M unit :=
  call
    (result <- ui_alert env "Setup Weekly Scheduled Audit" ;;
     match result with
     | YES => setupWeeklyTrigger
     | _ => ret tt
     end).

(** *** [getAllDriveFiles]

    The [do ... while (pageToken)] loop, with fuel; [break] in the [catch]
    leaves the loop with the files gathered so far.  The call asks for
    other [fields] than that of [getDriveFilesBatch]; the answer is the
    environment's in either case. *)
Fixpoint getAllDriveFiles_loop (fuel : nat) (files_ : list File) (pageToken : option string)
  : M (list File) :=
  match fuel with
  | O => fun w => (OutOfFuel, w)
  | S fuel' =>
      fun w =>
        match Drive_Files_list env pageToken 100 w with
        | (Normal response, w') =>
            let files_ :=
              match files response with
              | Some fs => if (0 <? length fs)%nat then files_ ++ fs else files_
              | None => files_
              end in
            let pageToken := nextPageToken response in
            if truthy pageToken
            then getAllDriveFiles_loop fuel' files_ pageToken w'
            else (Normal files_, w')
        | (Throw error, w') => (Normal files_, w')
        | (Return, w') => (Return, w')
        | (OutOfFuel, w') => (OutOfFuel, w')
        end
  end.

Definition getAllDriveFiles (fuel : nat) : M (list File) :=
  getAllDriveFiles_loop fuel [] None.

End Schedule.

(** ** What the calls of an invocation can be *)

(** The calls the batch processor makes: it reads the clock, prepares the
    sheet, asks Drive for pages of 100 and for permissions, appends rows,
    writes the summary, stores and deletes its two properties, deletes the
    triggers of its own handler, registers the one-minute continuation,
    and reports a status whose total is 0 or equal to the processed count.
    It shows no dialog. *)
Definition processor_event (e : Event) : Prop :=
  match e with
  | EvClock _ _ => True
  | EvFilesList _ pageSize _ => pageSize = 100
  | EvPermissionsList _ _ => True
  | EvSetProperty key _ => key = "AUDIT_STATE"
  | EvDeleteProperty key => key = "AUDIT_STATE" \/ key = "AUDIT_PAGE_TOKEN"
  | EvStatus _ _ processed total => total = 0 \/ processed = total
  | EvSheetSetup => True
  | EvSetValues _ _ => True
  | EvSummary _ _ => True
  | EvDeleteTriggers handler => handler = "processDriveAuditBatch"
  | EvNewTrigger trigger => trigger = continuation_trigger
  | EvAlert _ _ => False
  end.

(** Number of rows the audit sheet has (0 when it is missing). *)
Definition sheet_rows (w : World) : Z :=
  match auditSheet w with
  | Some rows => Z.of_nat (length rows)
  | None => 0
  end.

(** The triggers that do not belong to the weekly schedule. *)
Definition unscheduled_triggers (w : World) : list Trigger :=
  List.filter (fun trigger => negb (String.eqb (handlerFunction trigger) "runDriveAudit"))
              (triggers w).

(** The files of the pages that Drive handed back, in the order of the
    calls. *)
Definition listed (evs : list Event) : list File :=
  flat_map (fun e => match e with
                     | EvFilesList _ _ (Returns r) => default [] (files r)
                     | _ => []
                     end) evs.

(** A page fetch of size 100. *)
Definition is_fetch (e : Event) : Prop :=
  match e with
  | EvFilesList _ pageSize _ => pageSize = 100
  | _ => False
  end.

(** A Drive that always announces one more page. *)
Definition endless_env : Env :=
  mkEnv frozen_clock
        (fun _ _ _ => Returns (mkFilesResponse (Some [plain_file 1]) (Some "more")))
        no_permissions (always YES).

(** ** What a call leaves alone *)

(** Every run of [m] takes a world to one that is related to it by [R]. *)
Definition keeps (R : World -> World -> Prop) {A} (m : M A) : Prop :=
  forall w, R w (snd (m w)).

(** The triggers of other handlers and the properties under other keys are
    the same in [w'] as in [w]. *)
Definition same_elsewhere (w w' : World) : Prop :=
  other_triggers w' = other_triggers w /\
  forall key, key <> "AUDIT_STATE" -> key <> "AUDIT_PAGE_TOKEN" ->
              props w' !! key = props w !! key.

(** The history of [w'] is that of [w] with calls of the batch processor
    after it. *)
Definition processor_calls (w w' : World) : Prop :=
  exists evs, trace w' = trace w ++ evs /\ Forall processor_event evs.

(** The rows of the audit sheet of [w] are the first rows of the audit
    sheet of [w']; a missing sheet is still missing. *)
Definition sheet_extended (w w' : World) : Prop :=
  match auditSheet w with
  | Some old => exists new, auditSheet w' = Some (old ++ new)
  | None => auditSheet w' = None
  end.

(** ** The counters and the audit sheet *)

(** A job is under way and its counters agree with the audit sheet: the
    stored state counts exactly the rows below the header, and no more
    items than rows. *)
Definition consistent (w : World) : Prop :=
  exists st rows,
    props w !! "AUDIT_STATE" = Some (PJson st) /\
    (phase st = "PROCESSING" \/ phase st = "FINALIZING") /\
    auditSheet w = Some (headers :: rows) /\
    auditDataCount st = Z.of_nat (length rows) /\
    filesProcessed st <= auditDataCount st.

(** The job is over: nothing is stored, no continuation is pending, and
    the summary gives the number of rows below the header of the audit
    sheet as the number of permission entries. *)
Definition completed (w : World) : Prop :=
  exists totalFiles rows,
    auditSheet w = Some (headers :: rows) /\
    summarySheet w = Some (totalFiles, Z.of_nat (length rows)) /\
    totalFiles <= Z.of_nat (length rows) /\
    cleaned w.

(** An Office spreadsheet: its MIME type contains 'document'. *)
Definition xlsx_file : File :=
  mkFile "id1" "budget.xlsx"
         "application/vnd.openxmlformats-officedocument.spreadsheetml.sheet"
         None None None None None.

(** A file whose MIME type has 'spreadsheet' and none of the earlier marks. *)
Definition csv_sheet_file : File :=
  mkFile "id2" "table" "application/x-spreadsheet" None None None None None.

(** ** What the status sheet shows *)

(** The status sheet after the calls [evs], from a sheet that showed
    [shown]: each status report rewrites it. *)
Definition shown_after (shown : option StatusData) (evs : list Event) : option StatusData :=
  fold_left (fun shown e =>
               match e with
               | EvStatus status message processed total =>
                   Some (mkStatusData status message
                           (if 0 <? total then Some (processed, total) else None))
               | _ => shown
               end) evs shown.

(** The status sheet of [w'] is that of [w] after the calls made since. *)
Definition status_follows (w w' : World) : Prop :=
  exists evs, trace w' = trace w ++ evs /\ statusSheet w' = shown_after (statusSheet w) evs.

(** A world whose ['AUDIT_STATE'] holds a text that is not JSON, with the
    audit sheet and a pending continuation. *)
Definition corrupt_world : World :=
  mkWorld {[ "AUDIT_STATE" := PText "oops" eq_refl ]} (Some [headers]) None None
          [continuation_trigger] [].

(** Every page fetch of the history is made while fewer than [BATCH_SIZE]
    items have been handled; [processed] counts the items handled before
    the history begins. *)
Fixpoint fetches_below_cap (processed : Z) (evs : list Event) : Prop :=
  match evs with
  | [] => True
  | EvFilesList _ _ _ :: evs' => processed < BATCH_SIZE /\ fetches_below_cap processed evs'
  | EvPermissionsList _ _ :: evs' => fetches_below_cap (processed + 1) evs'
  | _ :: evs' => fetches_below_cap processed evs'
  end.

(** Five full pages of 100 files and a sixth page. *)
Definition six_page_env : Env :=
  paged_env (pages_of_sizes 1 [100; 100; 100; 100; 100; 5]%nat).

(** The counters of the stored audit state, and 0 when none is stored. *)
Definition stored_filesProcessed (w : World) : Z :=
  match props w !! "AUDIT_STATE" with
  | Some (PJson st) => filesProcessed st
  | _ => 0
  end.

Definition stored_auditDataCount (w : World) : Z :=
  match props w !! "AUDIT_STATE" with
  | Some (PJson st) => auditDataCount st
  | _ => 0
  end.

(** What the status sheet shows after a completion. *)
Definition completed_status (st : AuditState) (endTime : Z) : StatusData :=
  mkStatusData "COMPLETED" (completed_message st endTime)
               (if 0 <? filesProcessed st
                then Some (filesProcessed st, filesProcessed st) else None).

(** A job in phase FINALIZING with a pending continuation, without and
    with the audit sheet. *)
Definition stranded_world : World :=
  mkWorld {[ "AUDIT_STATE" := PJson finalizing_state ]} None None None
          [continuation_trigger] [].

Definition finishing_world : World :=
  mkWorld {[ "AUDIT_STATE" := PJson finalizing_state ]} (Some [headers]) None None
          [continuation_trigger] [].

(** * Proofs *)

(** ** Basic facts *)

Lemma record_record_all e w : record e w = record_all [e] w.
Proof. reflexivity. Qed.

Lemma record_all_app evs1 evs2 w :
  record_all evs2 (record_all evs1 w) = record_all (evs1 ++ evs2) w.
Proof. unfold record_all; simpl. by rewrite app_assoc. Qed.

Lemma world_eq w1 w2 :
  props w1 = props w2 -> auditSheet w1 = auditSheet w2 ->
  statusSheet w1 = statusSheet w2 -> summarySheet w1 = summarySheet w2 ->
  triggers w1 = triggers w2 -> trace w1 = trace w2 -> w1 = w2.
Proof. destruct w1, w2; simpl; intros; congruence. Qed.

Lemma next_state_filesProcessed st fs next outs :
  filesProcessed (next_state st fs next outs) = filesProcessed st + Z.of_nat (length fs).
Proof. unfold next_state. by destruct (truthy next). Qed.

Lemma next_state_pageToken st fs next outs :
  pageToken (next_state st fs next outs) = next.
Proof. unfold next_state. by destruct (truthy next). Qed.

Lemma next_state_auditDataCount st fs next outs :
  auditDataCount (next_state st fs next outs)
  = auditDataCount st + Z.of_nat (length (fan_out_rows fs outs)).
Proof. unfold next_state. by destruct (truthy next). Qed.

Lemma next_state_phase st fs next outs :
  phase (next_state st fs next outs) = if truthy next then phase st else "FINALIZING".
Proof. unfold next_state. by destruct (truthy next). Qed.

Lemma fan_out_length env h fs : length (fan_out env h fs) = length fs.
Proof. revert h; induction fs as [|f fs IH]; intros h; simpl; [done|]. by rewrite IH. Qed.

Lemma fan_out_rows_length_ge fs outs :
  length outs = length fs -> (length fs <= length (fan_out_rows fs outs))%nat.
Proof.
  revert outs; induction fs as [|f fs IH]; intros [|o outs] Hlen; simpl in *; try lia.
  rewrite length_app. specialize (IH outs ltac:(lia)).
  assert (1 <= length (file_rows f (permissions_of o)))%nat; [|lia].
  unfold file_rows. destruct (permissions_of o); simpl; [lia|]. rewrite length_map. lia.
Qed.

(** ** The steps of the loop body *)

Section Steps.

Variable env : Env.

Lemma getFilePermissions_spec fileId w :
  getFilePermissions env fileId w =
  (Normal (permissions_of (Permissions_list env (trace w) fileId)),
   record (EvPermissionsList fileId (Permissions_list env (trace w) fileId)) w).
Proof.
  unfold getFilePermissions, try_catch, bind, Drive_Permissions_list, ret.
  destruct (Permissions_list env (trace w) fileId) as [r|e]; simpl; [|done].
  by destruct (permissions r).
Qed.

Lemma forEach_process_file fs st n data w :
  forEach fs (process_file env) (st, n, data) w =
  (Normal (set_filesProcessed (filesProcessed st + Z.of_nat (length fs)) st,
           n + Z.of_nat (length fs),
           data ++ fan_out_rows fs (fan_out env (trace w) fs)),
   record_all (fan_out_events fs (fan_out env (trace w) fs)) w).
Proof.
  revert st n data w; induction fs as [|f fs IH]; intros st n data w.
  - cbn [forEach fan_out fan_out_rows fan_out_events length]. unfold ret.
    change (Z.of_nat 0) with 0. rewrite !Z.add_0_r, app_nil_r.
    destruct st, w; unfold record_all, set_filesProcessed; simpl.
    by rewrite app_nil_r.
  - cbn [forEach]. unfold bind at 1. unfold process_file at 1.
    unfold bind at 1. rewrite getFilePermissions_spec. unfold ret at 1.
    rewrite IH. cbn [fan_out fan_out_rows fan_out_events length].
    rewrite record_record_all, record_all_app.
    cbn [trace record_all]. rewrite <- app_assoc.
    replace (filesProcessed (set_filesProcessed (filesProcessed st + 1) st)
             + Z.of_nat (length fs))
      with (filesProcessed st + Z.of_nat (S (length fs)))
      by (destruct st; simpl; lia).
    replace (n + 1 + Z.of_nat (length fs)) with (n + Z.of_nat (S (length fs))) by lia.
    by destruct st.
Qed.

Lemma getDriveFilesBatch_spec token w :
  getDriveFilesBatch env token 100 w =
  (Normal (batch_of (Files_list env (trace w) token 100)),
   record (EvFilesList token 100 (Files_list env (trace w) token 100)) w).
Proof.
  unfold getDriveFilesBatch, try_catch, bind, Drive_Files_list, ret.
  change (100 =? 0) with false. cbv iota.
  by destruct (Files_list env (trace w) token 100).
Qed.

Lemma scheduleAuditContinuation_spec (A : Type) st w :
  (setProperty "AUDIT_STATE" st ;; call (scheduleAuditContinuation) ;; return_)%audit w
  = (@Return A, checkpoint_world st w).
Proof.
  unfold bind, setProperty, call, scheduleAuditContinuation, try_catch, bind,
    deleteContinuationTriggers, newTrigger, updateAuditStatus, return_.
  simpl. f_equal. apply world_eq; simpl; try done.
  by rewrite <- !app_assoc.
Qed.

Lemma loop_body_timeout t0 v w :
  MAX_EXECUTION_TIME < turn_time env w - t0 ->
  loop_body env t0 v w =
  (Return, checkpoint_world (auditState v) (record (EvClock AtBudgetCheck (turn_time env w)) w)).
Proof.
  intros Ht. unfold loop_body. unfold bind at 1. unfold now at 1.
  fold (turn_time env w). apply Z.ltb_lt in Ht. rewrite Ht.
  apply scheduleAuditContinuation_spec.
Qed.

Lemma loop_body_break t0 v w :
  turn_time env w - t0 <= MAX_EXECUTION_TIME ->
  no_files (batch_of (turn_answer env v w)) = true ->
  loop_body env t0 v w =
  (Normal (Break, mkLoopVars (set_phase "FINALIZING" (auditState v))
                             (filesInThisBatch v) (continueProcessing v)),
   record_all [EvClock AtBudgetCheck (turn_time env w);
               EvFilesList (pageToken (auditState v)) 100 (turn_answer env v w)] w).
Proof.
  intros Ht Hno. unfold loop_body. unfold bind at 1. unfold now at 1.
  fold (turn_time env w). apply Z.ltb_ge in Ht. rewrite Ht.
  unfold bind at 1. rewrite getDriveFilesBatch_spec.
  cbn [trace record]. fold (turn_answer env v w). rewrite Hno.
  unfold ret. f_equal. apply world_eq; simpl; try done.
  by rewrite <- app_assoc.
Qed.

Lemma no_files_false o r fs :
  o = Returns r -> files r = Some fs -> fs <> [] -> no_files (batch_of o) = false.
Proof. intros -> Hf Hne. simpl. rewrite Hf. by destruct fs. Qed.

Lemma no_files_inv o :
  no_files (batch_of o) = false ->
  exists r fs, o = Returns r /\ files r = Some fs /\ fs <> [].
Proof.
  destruct o as [r|e]; simpl; [|done].
  destruct (files r) as [fs|] eqn:Hf; [|done].
  destruct fs; [done|]. intros _. by eexists _, _.
Qed.

Lemma fan_out_rows_nonempty fs outs :
  length outs = length fs -> fs <> [] -> (0 <? length (fan_out_rows fs outs))%nat = true.
Proof.
  intros Hlen Hne. apply Nat.ltb_lt.
  pose proof (fan_out_rows_length_ge fs outs Hlen). destruct fs; [done|simpl in *; lia].
Qed.

Lemma loop_body_page t0 v w r fs old :
  turn_time env w - t0 <= MAX_EXECUTION_TIME ->
  turn_answer env v w = Returns r -> files r = Some fs -> fs <> [] ->
  auditSheet w = Some old ->
  loop_body env t0 v w =
  (Normal (Continue, next_vars v fs (nextPageToken r) (turn_outcomes env v w fs)),
   page_world (turn_time env w) (auditState v) r fs (turn_outcomes env v w fs) old w).
Proof.
  intros Ht Ho Hf Hne Hsheet. unfold loop_body. unfold bind at 1. unfold now at 1.
  fold (turn_time env w). apply Z.ltb_ge in Ht. rewrite Ht.
  unfold bind at 1. rewrite getDriveFilesBatch_spec.
  cbn [trace record]. fold (turn_answer env v w).
  rewrite (no_files_false _ _ _ Ho Hf Hne).
  unfold bind at 1. rewrite forEach_process_file.
  assert (Hb : batch_files (batch_of (turn_answer env v w)) = fs)
    by (rewrite Ho; simpl; by rewrite Hf).
  rewrite Hb. cbn [trace record]. rewrite <- app_assoc. cbn [app].
  fold (turn_outcomes env v w fs). cbn [app].
  set (outs := turn_outcomes env v w fs).
  assert (Hlen : length outs = length fs) by apply fan_out_length.
  rewrite (fan_out_rows_nonempty _ _ Hlen Hne).
  unfold bind, getLastRow, setValues, ret, updateAuditStatus, setProperty, record_all, record; simpl.
  rewrite Hsheet. rewrite Ho. simpl.
  unfold next_vars, page_world, page_events, cadence_events.
  rewrite !next_state_filesProcessed. unfold progress_message, next_state.
  destruct (truthy (nextPageToken r)) eqn:Htok; simpl;
    destruct (Z.rem (filesProcessed (auditState v) + Z.of_nat (length fs)) 50 =? 0) eqn:Hrem;
    simpl; f_equal; apply world_eq; simpl; try done;
    rewrite <- ?app_assoc; simpl; rewrite <- ?app_assoc; done.
Qed.

Lemma loop_body_page_nosheet t0 v w r fs :
  turn_time env w - t0 <= MAX_EXECUTION_TIME ->
  turn_answer env v w = Returns r -> files r = Some fs -> fs <> [] ->
  auditSheet w = None ->
  loop_body env t0 v w =
  (Throw (null_error "getLastRow"),
   record_all ([EvClock AtBudgetCheck (turn_time env w);
                EvFilesList (pageToken (auditState v)) 100 (Returns r)]
                 ++ fan_out_events fs (turn_outcomes env v w fs)) w).
Proof.
  intros Ht Ho Hf Hne Hsheet. unfold loop_body. unfold bind at 1. unfold now at 1.
  fold (turn_time env w). apply Z.ltb_ge in Ht. rewrite Ht.
  unfold bind at 1. rewrite getDriveFilesBatch_spec.
  cbn [trace record]. fold (turn_answer env v w).
  rewrite (no_files_false _ _ _ Ho Hf Hne).
  unfold bind at 1. rewrite forEach_process_file.
  assert (Hb : batch_files (batch_of (turn_answer env v w)) = fs)
    by (rewrite Ho; simpl; by rewrite Hf).
  rewrite Hb. cbn [trace record]. rewrite <- app_assoc. cbn [app].
  fold (turn_outcomes env v w fs). cbn [app].
  set (outs := turn_outcomes env v w fs).
  assert (Hlen : length outs = length fs) by apply fan_out_length.
  rewrite (fan_out_rows_nonempty _ _ Hlen Hne).
  unfold bind, getLastRow, record_all, record; simpl.
  rewrite Hsheet. simpl. f_equal. apply world_eq; simpl; try done.
  rewrite Ho, <- !app_assoc. done.
Qed.

End Steps.

(** ** The loop is a run of page turns, and it ends *)

Section Loop.

Variable env : Env.
Variable t0 : Z.

Lemma while_loop_guard_false fuel v w :
  loop_guard v = false -> while_loop env fuel t0 v w = (Normal v, w).
Proof. unfold loop_guard. intros Hg. destruct fuel; cbn [while_loop]; by rewrite Hg. Qed.

Lemma while_loop_guard_true fuel v w :
  loop_guard v = true ->
  while_loop env (S fuel) t0 v w =
  match loop_body env t0 v w with
  | (Normal (Break, v'), w') => (Normal v', w')
  | (Normal (Continue, v'), w') => while_loop env fuel t0 v' w'
  | (Return, w') => (Return, w')
  | (Throw e, w') => (Throw e, w')
  | (OutOfFuel, w') => (OutOfFuel, w')
  end.
Proof.
  unfold loop_guard. intros Hg. cbn [while_loop]. rewrite Hg. unfold bind.
  destruct (loop_body env t0 v w) as [[[[]]| | |] ?]; reflexivity.
Qed.

(** The loop, given fuel for the files that may still be counted, is a
    sequence of page turns env t0 followed by one of the four endings.  In
    particular it never runs out of fuel. *)
Lemma while_loop_run fuel v w :
  BATCH_SIZE - filesInThisBatch v <= Z.of_nat fuel ->
  exists v' w',
    turns env t0 v w v' w' /\
    loop_end env t0 v' w' (fst (while_loop env fuel t0 v w)) (snd (while_loop env fuel t0 v w)).
Proof.
  revert v w. induction fuel as [|fuel IH]; intros v w Hfuel.
  - exists v, w. split; [constructor|].
    assert (Hg : loop_guard v = false).
    { unfold loop_guard. apply andb_false_iff. right. apply Z.ltb_ge. lia. }
    rewrite (while_loop_guard_false _ _ _ Hg). simpl. by constructor.
  - destruct (loop_guard v) eqn:Hg.
    2:{ exists v, w. split; [constructor|].
        rewrite (while_loop_guard_false _ _ _ Hg). simpl. by constructor. }
    rewrite (while_loop_guard_true _ _ _ Hg).
    destruct (Z.lt_ge_cases MAX_EXECUTION_TIME (turn_time env w - t0)) as [Ht|Ht].
    { exists v, w. split; [constructor|].
      rewrite (loop_body_timeout env t0 v w Ht). simpl. by constructor. }
    destruct (no_files (batch_of (turn_answer env v w))) eqn:Hno.
    { exists v, w. split; [constructor|].
      rewrite (loop_body_break env t0 v w Ht Hno). simpl. by constructor. }
    destruct (no_files_inv _ Hno) as (r & fs & Ho & Hf & Hne).
    destruct (auditSheet w) as [old|] eqn:Hsheet.
    2:{ exists v, w. split; [constructor|].
        rewrite (loop_body_page_nosheet env t0 v w r fs Ht Ho Hf Hne Hsheet). simpl.
        by eapply end_throw. }
    rewrite (loop_body_page env t0 v w r fs old Ht Ho Hf Hne Hsheet).
    set (v1 := next_vars v fs (nextPageToken r) (turn_outcomes env v w fs)).
    set (w1 := page_world (turn_time env w) (auditState v) r fs (turn_outcomes env v w fs) old w).
    destruct (IH v1 w1) as (v' & w' & Hturns & Hend).
    { subst v1. simpl. destruct fs; [done|]. simpl length. lia. }
    exists v', w'. split; [|exact Hend].
    eapply turns_step; [|exact Hturns].
    split; [done|]. split; [done|]. by exists r, fs, old.
Qed.

End Loop.

(** ** Counting calls *)

Lemma items_processed_app evs1 evs2 :
  items_processed (evs1 ++ evs2) = items_processed evs1 + items_processed evs2.
Proof. unfold items_processed. rewrite List.filter_app, length_app. lia. Qed.

Lemma pages_fetched_app evs1 evs2 :
  pages_fetched (evs1 ++ evs2) = pages_fetched evs1 + pages_fetched evs2.
Proof. unfold pages_fetched. rewrite List.filter_app, length_app. lia. Qed.

Lemma budget_checks_app evs1 evs2 :
  budget_checks (evs1 ++ evs2) = budget_checks evs1 + budget_checks evs2.
Proof. unfold budget_checks. rewrite List.filter_app, length_app. lia. Qed.

Lemma fan_out_events_counts fs outs :
  length outs = length fs ->
  items_processed (fan_out_events fs outs) = Z.of_nat (length fs) /\
  pages_fetched (fan_out_events fs outs) = 0 /\
  budget_checks (fan_out_events fs outs) = 0 /\
  statuses (fan_out_events fs outs) = [].
Proof.
  revert outs. induction fs as [|f fs IH]; intros [|o outs] Hlen; try done.
  simpl in Hlen. destruct (IH outs ltac:(lia)) as (H1 & H2 & H3 & H4).
  unfold items_processed, pages_fetched, budget_checks in *.
  cbn [fan_out_events List.filter statuses flat_map].
  fold (statuses (fan_out_events fs outs)). rewrite H4.
  repeat split; try done. simpl length. lia.
Qed.

Lemma cadence_events_counts st :
  items_processed (cadence_events st) = 0 /\
  pages_fetched (cadence_events st) = 0 /\
  budget_checks (cadence_events st) = 0 /\
  Forall (eq "RUNNING") (statuses (cadence_events st)).
Proof. unfold cadence_events. destruct (_ =? _); repeat split; by repeat constructor. Qed.

Lemma statuses_app evs1 evs2 : statuses (evs1 ++ evs2) = statuses evs1 ++ statuses evs2.
Proof. unfold statuses. apply flat_map_app. Qed.

Lemma page_events_counts t st r fs outs lastRow :
  length outs = length fs ->
  items_processed (page_events t st r fs outs lastRow) = Z.of_nat (length fs) /\
  pages_fetched (page_events t st r fs outs lastRow) = 1 /\
  budget_checks (page_events t st r fs outs lastRow) = 1 /\
  Forall (eq "RUNNING") (statuses (page_events t st r fs outs lastRow)).
Proof.
  intros Hlen. unfold page_events.
  destruct (fan_out_events_counts fs outs Hlen) as (H1 & H2 & H3 & H4).
  destruct (cadence_events_counts (next_state st fs (nextPageToken r) outs)) as (C1 & C2 & C3 & C4).
  rewrite !items_processed_app, !pages_fetched_app, !budget_checks_app, !statuses_app.
  rewrite H1, H2, H3, H4, C1, C2, C3. repeat split; try done.
  - unfold items_processed; simpl; lia.
  - simpl. by rewrite app_nil_r.
Qed.

Section Turns.

Variable env : Env.
Variable t0 : Z.

Lemma page_turn_trace v w v' w' :
  page_turn env t0 v w v' w' ->
  exists t r fs outs lastRow,
    t - t0 <= MAX_EXECUTION_TIME /\ files r = Some fs /\ fs <> [] /\
    length outs = length fs /\
    auditState v' = next_state (auditState v) fs (nextPageToken r) outs /\
    filesInThisBatch v' = filesInThisBatch v + Z.of_nat (length fs) /\
    continueProcessing v' = (if truthy (nextPageToken r) then continueProcessing v else false) /\
    trace w' = trace w ++ page_events t (auditState v) r fs outs lastRow.
Proof.
  intros (Hg & Ht & r & fs & old & Ho & Hf & Hne & Hsheet & -> & ->).
  exists (turn_time env w), r, fs, (turn_outcomes env v w fs), (Z.of_nat (length old)).
  repeat split; try done. apply fan_out_length.
Qed.

Lemma turns_page_trace v w v' w' :
  turns env t0 v w v' w' ->
  exists evs,
    trace w' = trace w ++ evs /\
    page_trace t0 (auditState v) evs (auditState v') /\
    filesInThisBatch v' = filesInThisBatch v + items_processed evs.
Proof.
  induction 1 as [v w|v w v1 w1 v' w' Hturn _ (evs & Htr & Hpt & Hn)].
  - exists []. rewrite app_nil_r. repeat split; [constructor|].
    unfold items_processed; simpl; lia.
  - destruct (page_turn_trace _ _ _ _ Hturn)
      as (t & r & fs & outs & lastRow & Ht & Hf & Hne & Hlen & Hst & Hcount & _ & Htr1).
    exists (page_events t (auditState v) r fs outs lastRow ++ evs).
    split; [by rewrite Htr, Htr1, app_assoc|]. split.
    + constructor; try done. by rewrite <- Hst.
    + rewrite items_processed_app, Hn, Hcount.
      destruct (page_events_counts t (auditState v) r fs outs lastRow Hlen) as (-> & _). lia.
Qed.

Lemma turns_world v w v' w' :
  turns env t0 v w v' w' ->
  triggers w' = triggers w /\ summarySheet w' = summarySheet w /\
  (is_Some (auditSheet w') <-> is_Some (auditSheet w)) /\
  (props w !! "AUDIT_STATE" = Some (PJson (auditState v)) ->
   props w' !! "AUDIT_STATE" = Some (PJson (auditState v'))) /\
  (phase_agrees v -> phase_agrees v').
Proof.
  induction 1 as [v w|v w v1 w1 v' w' Hturn _ (IH1 & IH2 & IH3 & IH4 & IH5)]; [done|].
  destruct Hturn as (Hg & Ht & r & fs & old & Ho & Hf & Hne & Hsheet & Hv1 & Hw1).
  assert (triggers w1 = triggers w) as E1 by (by subst w1).
  assert (summarySheet w1 = summarySheet w) as E2 by (by subst w1).
  assert (is_Some (auditSheet w1) /\ is_Some (auditSheet w)) as [E3 E3'].
  { subst w1. rewrite Hsheet. simpl. by split. }
  assert (props w1 !! "AUDIT_STATE" = Some (PJson (auditState v1))) as E4.
  { subst w1 v1. simpl. by rewrite lookup_insert_eq. }
  assert (phase_agrees v -> phase_agrees v1) as E5.
  { subst v1. unfold phase_agrees. simpl. rewrite next_state_phase.
    destruct (truthy (nextPageToken r)); [done|]. by right. }
  repeat split; try congruence; try tauto.
Qed.

End Turns.

Section Phase.

Variable env : Env.
Variable t0 : Z.

Lemma processing_phase_unfold st w :
  phase st = "PROCESSING" ->
  processing_phase env t0 st w =
  match while_loop env (Z.to_nat BATCH_SIZE) t0 (mkLoopVars st 0 true) (status_world st w) with
  | (Normal v, w1) =>
      if String.eqb (phase (auditState v)) "PROCESSING"
      then (Return, checkpoint_world (auditState v) w1)
      else (Normal (auditState v), w1)
  | (Return, w1) => (Return, w1)
  | (Throw e, w1) => (Throw e, w1)
  | (OutOfFuel, w1) => (OutOfFuel, w1)
  end.
Proof.
  intros Hphase. unfold processing_phase. rewrite Hphase. cbn [String.eqb Ascii.eqb Bool.eqb].
  unfold bind at 1. unfold updateAuditStatus at 1. cbv beta iota zeta.
  change (0 <? 0) with false. cbv iota.
  change (record _ (with_statusSheet _ w)) with (status_world st w).
  unfold bind at 1.
  destruct (while_loop env (Z.to_nat BATCH_SIZE) t0 (mkLoopVars st 0 true) (status_world st w))
    as [[v| | |] w1]; try reflexivity.
  destruct (String.eqb (phase (auditState v)) "PROCESSING"); [|reflexivity].
  apply scheduleAuditContinuation_spec.
Qed.

Lemma processing_phase_run st w :
  phase st = "PROCESSING" ->
  exists v w1,
    turns env t0 (mkLoopVars st 0 true) (status_world st w) v w1 /\
    phase_agrees v /\
    phase_end env t0 v w1 (fst (processing_phase env t0 st w)) (snd (processing_phase env t0 st w)).
Proof.
  intros Hphase. rewrite (processing_phase_unfold st w Hphase).
  destruct (while_loop_run env t0 (Z.to_nat BATCH_SIZE) (mkLoopVars st 0 true) (status_world st w))
    as (v & w1 & Hturns & Hend); [simpl; unfold BATCH_SIZE; lia|].
  exists v, w1. split; [done|].
  assert (Hagree : phase_agrees v).
  { apply (turns_world _ _ _ _ _ _ Hturns). left. split; [exact Hphase|done]. }
  split; [done|].
  destruct (while_loop env (Z.to_nat BATCH_SIZE) t0 (mkLoopVars st 0 true) (status_world st w))
    as [c w2]. simpl in Hend.
  inversion Hend; subst; cbv beta iota.
  - destruct Hagree as [[Hp _]|[Hp _]]; rewrite Hp; cbn [String.eqb Ascii.eqb Bool.eqb];
      simpl; by constructor.
  - simpl. by constructor.
  - cbn [finalizing_vars auditState phase set_phase String.eqb Ascii.eqb Bool.eqb].
    simpl. by constructor.
  - simpl. by econstructor.
Qed.

End Phase.

(** ** Row expansion *)

Lemma file_rows_length file ps :
  length (file_rows file ps) = Nat.max 1 (length ps).
Proof.
  unfold file_rows. destruct ps as [|p ps]; [done|].
  cbn [length Nat.eqb]. rewrite length_map. simpl. lia.
Qed.

Lemma file_rows_item_fields file ps r :
  In r (file_rows file ps) ->
  item_fields r =
  [ CStr (name file); CStr (id file); owner_cell file; CStr (getFileType file);
    CStr (mimeType file); date_or_empty (createdTime file);
    date_or_empty (modifiedTime file); or_empty (size file);
    or_empty (webViewLink file) ].
Proof.
  unfold file_rows. destruct ps as [|p ps].
  - intros [<-|[]]. reflexivity.
  - cbn [length Nat.eqb]. intros (q & <- & _)%in_map_iff. reflexivity.
Qed.

Lemma file_rows_lookup file ps i p :
  ps !! i = Some p ->
  exists r, file_rows file ps !! i = Some r /\
    permission_fields r =
    [ CNum (Z.of_nat (length ps)); CStr (perm_type p); CStr (role p);
      or_empty (emailAddress p); or_empty (domain p); or_empty (displayName p) ].
Proof.
  intros Hp. unfold file_rows. destruct ps as [|p0 ps]; [done|].
  cbn [length Nat.eqb]. eexists. rewrite list_lookup_fmap, Hp. simpl. by split.
Qed.

(** ** Cancellation *)

Lemma added_app w w' evs : trace w' = trace w ++ evs -> added w w' = evs.
Proof. unfold added. intros ->. by rewrite drop_app_length. Qed.

Lemma continuation_triggers_deleted l :
  List.filter (fun trigger => String.eqb (handlerFunction trigger) "processDriveAuditBatch")
    (List.filter (fun trigger => negb (String.eqb (handlerFunction trigger) "processDriveAuditBatch")) l)
  = [].
Proof.
  induction l as [|x l IH]; [done|]. simpl.
  destruct (String.eqb (handlerFunction x) "processDriveAuditBatch") eqn:E; simpl; [done|].
  by rewrite E.
Qed.

Lemma other_triggers_deleted l :
  List.filter (fun trigger => negb (String.eqb (handlerFunction trigger) "processDriveAuditBatch"))
    (List.filter (fun trigger => negb (String.eqb (handlerFunction trigger) "processDriveAuditBatch")) l)
  = List.filter (fun trigger => negb (String.eqb (handlerFunction trigger) "processDriveAuditBatch")) l.
Proof.
  induction l as [|x l IH]; [done|]. simpl.
  destruct (String.eqb (handlerFunction x) "processDriveAuditBatch") eqn:E; simpl; [done|].
  by rewrite E, IH.
Qed.

Lemma cancelRunningAudit_run (env : Env) (w : World) :
  cancelRunningAudit env w =
  if is_falsy (props w !! "AUDIT_STATE") then
    (Normal tt, record (EvAlert "No Running Audit" (alert_answer env (trace w) "No Running Audit")) w)
  else
    match alert_answer env (trace w) "Cancel Running Audit?" with
    | YES => (Normal tt, cancelled_world env w)
    | b => (Normal tt, record (EvAlert "Cancel Running Audit?" b) w)
    end.
Proof.
  unfold cancelRunningAudit, call, bind, getProperty.
  destruct (is_falsy (props w !! "AUDIT_STATE")) eqn:Hf; simpl; [done|].
  unfold ui_alert, try_catch, bind, deleteProperty, call, deleteContinuationTriggers,
    updateAuditStatus, ret. cbv beta zeta.
  destruct (alert_answer env (trace w) "Cancel Running Audit?") eqn:Hans; simpl; try done.
  f_equal. unfold cancelled_world. apply world_eq; simpl; try done.
  rewrite <- !app_assoc. reflexivity.
Qed.

(** C8 (as amended).  The cancel operation asks for confirmation when a
    state is stored.  With a stored state and the answer YES it deletes the
    state, deletes every continuation trigger (and no other trigger),
    reports CANCELLED once, and leaves the rows of the audit sheet as they
    are.  With a stored state and any other answer it changes nothing and
    reports nothing.  With no stored state it shows the no-op dialog and
    changes nothing.  It never throws. *)
Theorem cancel_operation (env : Env) (w : World) :
  let w' := exec (cancelRunningAudit env) w in
  fst (cancelRunningAudit env w) = Normal tt /\
  (has_state w = true ->
   alert_answer env (trace w) "Cancel Running Audit?" = YES ->
   props w' !! "AUDIT_STATE" = None /\
   continuation_triggers w' = [] /\
   other_triggers w' = other_triggers w /\
   statuses (added w w') = ["CANCELLED"] /\
   auditSheet w' = auditSheet w) /\
  (has_state w = true ->
   alert_answer env (trace w) "Cancel Running Audit?" <> YES ->
   w' = record (EvAlert "Cancel Running Audit?"
                  (alert_answer env (trace w) "Cancel Running Audit?")) w) /\
  (has_state w = false ->
   w' = record (EvAlert "No Running Audit" (alert_answer env (trace w) "No Running Audit")) w).
Proof.
  unfold has_state, exec. rewrite cancelRunningAudit_run.
  destruct (is_falsy (props w !! "AUDIT_STATE")) eqn:Hf; simpl.
  { repeat split; done. }
  destruct (alert_answer env (trace w) "Cancel Running Audit?") eqn:Hans;
    simpl; repeat split; try done.
  - by rewrite lookup_delete_ne, lookup_delete_eq.
  - unfold continuation_triggers. simpl. apply continuation_triggers_deleted.
  - unfold other_triggers. simpl. apply other_triggers_deleted.
  - unfold added. simpl. rewrite <- !app_assoc. by rewrite drop_app_length.
Qed.

(** Scenario D, first half: cancel while a state is stored. *)
Lemma cancel_operation_witness :
  has_state (resumed_world processing_state) = true /\
  alert_answer (quiet_env YES) (trace (resumed_world processing_state)) "Cancel Running Audit?" = YES /\
  props (exec (cancelRunningAudit (quiet_env YES)) (resumed_world processing_state)) !! "AUDIT_STATE" = None /\
  continuation_triggers (exec (cancelRunningAudit (quiet_env YES)) (resumed_world processing_state)) = [] /\
  statuses (added (resumed_world processing_state)
                  (exec (cancelRunningAudit (quiet_env YES)) (resumed_world processing_state)))
  = ["CANCELLED"].
Proof.
  pose proof (cancel_operation (quiet_env YES) (resumed_world processing_state)) as (_ & H & _).
  split; [reflexivity|]. split; [reflexivity|].
  destruct (H eq_refl eq_refl) as (H1 & H2 & _ & H4 & _).
  exact (conj H1 (conj H2 H4)).
Defined.

(** Scenario D, second half: cancel again, with no state stored. *)
Example cancel_twice :
  let w1 := exec (cancelRunningAudit (quiet_env YES)) (resumed_world processing_state) in
  let w2 := exec (cancelRunningAudit (quiet_env YES)) w1 in
  fst (cancelRunningAudit (quiet_env YES) w1) = Normal tt /\
  added w1 w2 = [EvAlert "No Running Audit" YES] /\
  props w2 = props w1 /\ triggers w2 = triggers w1 /\ statusSheet w2 = statusSheet w1.
Proof. vm_compute. repeat split; reflexivity. Qed.

(** C8 as first stated fails when the user answers NO to the confirmation:
    a state is stored, yet after the cancel operation the state and the
    continuation trigger are still there and nothing was reported. *)
Lemma cancel_declined_counterexample :
  has_state (resumed_world processing_state) = true /\
  props (exec (cancelRunningAudit (quiet_env NO)) (resumed_world processing_state)) !! "AUDIT_STATE"
    = Some (PJson processing_state) /\
  continuation_triggers (exec (cancelRunningAudit (quiet_env NO)) (resumed_world processing_state))
    = [continuation_trigger] /\
  statuses (added (resumed_world processing_state)
                  (exec (cancelRunningAudit (quiet_env NO)) (resumed_world processing_state)))
    = [].
Proof. vm_compute. repeat split; reflexivity. Qed.

(** ** The shape of the processing phase *)

Lemma loop_guard_false_inv v :
  loop_guard v = false -> phase_agrees v ->
  (phase (auditState v) = "PROCESSING" /\ BATCH_SIZE <= filesInThisBatch v) \/
  phase (auditState v) = "FINALIZING".
Proof.
  unfold loop_guard. intros Hg [[Hp Hc]|[Hp Hc]]; [|by right].
  rewrite Hc in Hg. simpl in Hg. apply Z.ltb_ge in Hg. by left.
Qed.

Lemma loop_guard_true_inv v :
  loop_guard v = true -> phase_agrees v ->
  phase (auditState v) = "PROCESSING" /\ filesInThisBatch v < BATCH_SIZE.
Proof.
  unfold loop_guard. intros [Hc Hn%Z.ltb_lt]%andb_true_iff [[Hp _]|[_ Hc']]; [done|congruence].
Qed.

Section Shape.

Variable env : Env.
Variable t0 : Z.

Lemma processing_phase_shape st w :
  phase st = "PROCESSING" ->
  exists evs st1 tail,
    trace (snd (processing_phase env t0 st w))
      = trace w ++ EvStatus "RUNNING" processing_message (filesProcessed st) 0 :: evs ++ tail /\
    page_trace t0 st evs st1 /\
    ending t0 st1 (items_processed evs) tail (fst (processing_phase env t0 st w)) /\
    ending_world st1 w (snd (processing_phase env t0 st w)) (fst (processing_phase env t0 st w)) /\
    summarySheet (snd (processing_phase env t0 st w)) = summarySheet w /\
    (is_Some (auditSheet (snd (processing_phase env t0 st w))) <-> is_Some (auditSheet w)) /\
    (props w !! "AUDIT_STATE" = Some (PJson st) ->
     (forall e, fst (processing_phase env t0 st w) <> Throw e) ->
     exists s, props (snd (processing_phase env t0 st w)) !! "AUDIT_STATE" = Some (PJson s) /\
               filesProcessed s = filesProcessed st1 /\ pageToken s = pageToken st1).
Proof.
  intros Hphase.
  destruct (processing_phase_run env t0 st w Hphase) as (v & w1 & Hturns & Hagree & Hend).
  destruct (turns_page_trace _ _ _ _ _ _ Hturns) as (evs & Htr & Hpt & Hn).
  destruct (turns_world _ _ _ _ _ _ Hturns) as (Htrig & Hsum & Hsheet & Hsaved & _).
  simpl in Htr, Hpt, Hn, Htrig, Hsum, Hsheet, Hsaved.
  rewrite <- app_assoc in Htr. simpl in Htr. rewrite Z.add_0_l in Hn.
  destruct (processing_phase env t0 st w) as [c w']. simpl. simpl in Hend.
  exists evs, (auditState v).
  inversion Hend as [Hg Hp| Hg Hp | Hg Ht | Hg Ht Hno | r fs Hg Ht Ho Hf Hne Hns]; subst.
  - destruct (loop_guard_false_inv _ Hg Hagree) as [[_ Hcap]|Hfin]; [|congruence].
    exists (checkpoint_events (auditState v)). simpl. rewrite Htr, <- !app_assoc. simpl.
    repeat split; try done.
    + constructor; [lia|done].
    + by rewrite lookup_insert_eq.
    + by rewrite Htrig.
    + apply Hsheet.
    + apply Hsheet.
    + intros _ _. exists (auditState v). by rewrite lookup_insert_eq.
  - exists []. rewrite app_nil_r, Htr. simpl.
    repeat split; try done; try apply Hsheet.
    + by constructor.
    + intros Hs _. exists (auditState v). by rewrite (Hsaved Hs).
  - destruct (loop_guard_true_inv _ Hg Hagree) as [Hp Hlt].
    exists (EvClock AtBudgetCheck (turn_time env w1) :: checkpoint_events (auditState v)).
    simpl. rewrite Htr, <- !app_assoc. simpl.
    repeat split; try done; try apply Hsheet.
    + constructor; [lia|done|done].
    + by rewrite lookup_insert_eq.
    + by rewrite Htrig.
    + intros _ _. exists (auditState v). by rewrite lookup_insert_eq.
  - destruct (loop_guard_true_inv _ Hg Hagree) as [Hp Hlt].
    eexists. simpl. rewrite Htr, <- !app_assoc. simpl.
    repeat split; try done; try apply Hsheet.
    + constructor; [lia|done|done|done].
    + intros Hs _. exists (auditState v). by rewrite (Hsaved Hs).
  - destruct (loop_guard_true_inv _ Hg Hagree) as [Hp Hlt].
    eexists. simpl. rewrite Htr, <- !app_assoc. simpl.
    repeat split; try done.
    + econstructor; try done; [lia|apply fan_out_length].
    + rewrite Hns. intros []%is_Some_None.
    + intros Hs. apply Hsheet in Hs. rewrite Hns in Hs. by apply is_Some_None in Hs.
    + intros _ He. by destruct (He (null_error "getLastRow")).
Qed.

End Shape.

(** ** Facts about page traces *)

Lemma in_fan_out_events e fs outs :
  In e (fan_out_events fs outs) -> exists fileId o, e = EvPermissionsList fileId o.
Proof.
  revert outs. induction fs as [|f fs IH]; intros [|o outs]; simpl; try done.
  intros [<-|H]; [by eexists _, _|by eapply IH].
Qed.

Lemma in_page_events e t st r fs outs lastRow :
  In e (page_events t st r fs outs lastRow) ->
  e = EvClock AtBudgetCheck t \/
  e = EvFilesList (pageToken st) 100 (Returns r) \/
  (exists fileId o, e = EvPermissionsList fileId o) \/
  e = EvSetValues (lastRow + 1) (fan_out_rows fs outs) \/
  (exists n, e = EvStatus "RUNNING" (progress_message n) n 0) \/
  e = EvSetProperty "AUDIT_STATE" (next_state st fs (nextPageToken r) outs).
Proof.
  unfold page_events. rewrite !in_app_iff. simpl.
  intros [[<-|[<-|[]]]|[H|[[<-|[]]|[H|[<-|[]]]]]]; try tauto.
  - right. right. left. by eapply in_fan_out_events.
  - right. right. right. right. left. unfold cadence_events in H.
    destruct (_ =? _); [|done]. destruct H as [<-|[]]. by eexists.
Qed.

Lemma page_trace_counts t0 st evs st' :
  page_trace t0 st evs st' ->
  filesProcessed st' = filesProcessed st + items_processed evs /\
  budget_checks evs = pages_fetched evs /\
  Forall (eq "RUNNING") (statuses evs).
Proof.
  induction 1 as [st|st t r fs outs lastRow evs st' Ht Hf Hne Hlen _ (IH1 & IH2 & IH3)].
  - repeat split; [unfold items_processed; simpl; lia|constructor].
  - destruct (page_events_counts t st r fs outs lastRow Hlen) as (P1 & P2 & P3 & P4).
    rewrite items_processed_app, budget_checks_app, pages_fetched_app, statuses_app.
    rewrite IH1, next_state_filesProcessed, P1, P2, P3, IH2.
    repeat split; [lia|]. by apply Forall_app.
Qed.

Lemma page_trace_clock t0 st evs st' site t :
  page_trace t0 st evs st' -> In (EvClock site t) evs ->
  site = AtBudgetCheck /\ t - t0 <= MAX_EXECUTION_TIME.
Proof.
  induction 1 as [st|st t1 r fs outs lastRow evs st' Ht Hf Hne Hlen _ IH]; [done|].
  rewrite in_app_iff. intros [H|H]; [|by apply IH].
  apply in_page_events in H
    as [[= -> ->]|[[=]|[(? & ? & [=])|[[=]|[(? & [=])|[=]]]]]]. done.
Qed.

Lemma page_trace_fetch t0 st evs st' token n o :
  page_trace t0 st evs st' -> In (EvFilesList token n o) evs ->
  n = 100 /\ exists r fs, o = Returns r /\ files r = Some fs /\ fs <> [].
Proof.
  induction 1 as [st|st t1 r fs outs lastRow evs st' Ht Hf Hne Hlen _ IH]; [done|].
  rewrite in_app_iff. intros [H|H]; [|by apply IH].
  apply in_page_events in H
    as [[=]|[[= -> -> ->]|[(? & ? & [=])|[[=]|[(? & [=])|[=]]]]]].
  split; [done|]. by exists r, fs.
Qed.

Lemma continuation_triggers_after_checkpoint w w' :
  triggers w' = other_triggers w ++ [continuation_trigger] ->
  continuation_triggers w' = [continuation_trigger].
Proof.
  unfold continuation_triggers, other_triggers. intros ->.
  rewrite List.filter_app, continuation_triggers_deleted. reflexivity.
Qed.

Lemma ending_clock t0 st1 n tail c site t :
  ending t0 st1 n tail c -> In (EvClock site t) tail -> MAX_EXECUTION_TIME < t - t0 ->
  c = Return /\ tail = EvClock AtBudgetCheck t :: checkpoint_events st1.
Proof.
  intros Hend Hin Hlate. inversion Hend as [| |t1|t1 o|t1 r fs outs]; subst; simpl in Hin.
  - by destruct Hin as [[=]|[[=]|[[=]|[[=]|[]]]]].
  - done.
  - destruct Hin as [[= <- <-]|[[=]|[[=]|[[=]|[[=]|[]]]]]]. done.
  - destruct Hin as [[= <- <-]|[[=]|[]]]. lia.
  - destruct Hin as [[= <- <-]|[[=]|Hin]]; [lia|].
    by apply in_fan_out_events in Hin as (? & ? & [=]).
Qed.

(** C3.  In the processing phase the calls made are: the opening status
    report, then page after page as [page_trace] describes them (one budget
    check, then the page fetch, then one permission call per file of the
    page with no budget check in between, then rows, cadence report and
    saved state), then one of the endings of [ending].  There are as many
    budget checks as page fetches among the pages.  When a budget check
    reads a time past the ceiling, the phase returns; the calls after that
    check are exactly: state saved, continuation triggers deleted, one
    trigger registered, status reported (no page fetch); the state is
    stored and exactly one continuation trigger is registered. *)
Theorem budget_checked_once_per_page (env : Env) (t0 : Z) (st : AuditState) (w : World) :
  phase st = "PROCESSING" ->
  exists evs st1 tail,
    added w (snd (processing_phase env t0 st w))
      = EvStatus "RUNNING" processing_message (filesProcessed st) 0 :: evs ++ tail /\
    page_trace t0 st evs st1 /\
    ending t0 st1 (items_processed evs) tail (fst (processing_phase env t0 st w)) /\
    budget_checks evs = pages_fetched evs /\
    forall t,
      MAX_EXECUTION_TIME < t - t0 ->
      In (EvClock AtBudgetCheck t) (added w (snd (processing_phase env t0 st w))) ->
      fst (processing_phase env t0 st w) = Return /\
      tail = EvClock AtBudgetCheck t :: checkpoint_events st1 /\
      props (snd (processing_phase env t0 st w)) !! "AUDIT_STATE" = Some (PJson st1) /\
      continuation_triggers (snd (processing_phase env t0 st w)) = [continuation_trigger].
Proof.
  intros Hphase.
  destruct (processing_phase_shape env t0 st w Hphase)
    as (evs & st1 & tail & Htr & Hpt & Hend & Hworld & _).
  exists evs, st1, tail. rewrite (added_app _ _ _ Htr).
  destruct (page_trace_counts _ _ _ _ Hpt) as (_ & Hcount & _).
  split; [done|]. split; [done|]. split; [done|]. split; [done|].
  intros t Hlate [[=]|[Hin|Hin]%in_app_iff].
  { apply (page_trace_clock _ _ _ _ _ _ Hpt) in Hin. lia. }
  destruct (ending_clock _ _ _ _ _ _ _ Hend Hin Hlate) as [Hc Htail].
  rewrite Hc in Hworld. destruct Hworld as (Hprops & Htrig & _).
  repeat split; try done. by eapply continuation_triggers_after_checkpoint.
Qed.

Lemma budget_checked_once_per_page_witness :
  phase processing_state = "PROCESSING" /\
  MAX_EXECUTION_TIME < 300000 - 0 /\
  In (EvClock AtBudgetCheck 300000)
     (added (resumed_world processing_state)
            (snd (processing_phase late_env 0 processing_state (resumed_world processing_state)))) /\
  fst (processing_phase late_env 0 processing_state (resumed_world processing_state)) = Return /\
  continuation_triggers
    (snd (processing_phase late_env 0 processing_state (resumed_world processing_state)))
    = [continuation_trigger].
Proof.
  assert (Hin : In (EvClock AtBudgetCheck 300000)
                   (added (resumed_world processing_state)
                          (snd (processing_phase late_env 0 processing_state
                                                 (resumed_world processing_state))))).
  { vm_compute. do 8 right. left. reflexivity. }
  assert (Hlate : MAX_EXECUTION_TIME < 300000 - 0) by reflexivity.
  split; [reflexivity|]. split; [exact Hlate|]. split; [exact Hin|].
  destruct (budget_checked_once_per_page late_env 0 processing_state
              (resumed_world processing_state) eq_refl)
    as (evs & st1 & tail & _ & _ & _ & _ & Hexceeded).
  destruct (Hexceeded 300000 Hlate Hin) as (Hreturn & _ & _ & Htrigger).
  exact (conj Hreturn Htrigger).
Defined.

(** Scenario B, first invocation, in small: the budget is found exceeded
    at the second budget check; the first page was processed in full. *)
Example checkpoint_run :
  let w' := exec (processDriveAuditBatch late_env) (resumed_world processing_state) in
  fst (processDriveAuditBatch late_env (resumed_world processing_state)) = Normal tt /\
  map (fun e => match e with
                | EvClock AtBudgetCheck _ => "check"
                | EvFilesList _ _ _ => "fetch"
                | EvPermissionsList _ _ => "permissions"
                | EvSetValues _ _ => "rows"
                | EvSetProperty _ _ => "save"
                | EvDeleteTriggers _ => "cancel"
                | EvNewTrigger _ => "register"
                | EvStatus s _ _ _ => s
                | _ => "other"
                end) (added (resumed_world processing_state) w')
  = ["other"; "RUNNING"; "check"; "fetch"; "permissions"; "permissions"; "permissions";
     "rows"; "save"; "check"; "save"; "cancel"; "register"; "RUNNING"] /\
  props w' !! "AUDIT_STATE" = Some (PJson (mkState "PROCESSING" 0 3 3 (Some "page1") 0)) /\
  triggers w' = [continuation_trigger].
Proof. vm_compute. repeat split; reflexivity. Qed.

(** ** The status reported at a checkpoint *)

Lemma ending_items t0 st1 n tail c :
  ending t0 st1 n tail c -> c = Return -> items_processed tail = 0.
Proof. intros Hend ->. by inversion Hend. Qed.

Lemma ending_last_status t0 st1 n tail c h :
  ending t0 st1 n tail c -> c = Return ->
  last (h ++ tail) = Some (EvStatus "RUNNING" continuation_message 0 0).
Proof.
  intros Hend ->. inversion Hend; subst.
  - unfold checkpoint_events.
    change [?a; ?b; ?c; ?d] with ([a; b; c] ++ [d]).
    by rewrite app_assoc, last_snoc.
  - unfold checkpoint_events.
    change (?e :: [?a; ?b; ?c; ?d]) with ([e; a; b; c] ++ [d]).
    by rewrite app_assoc, last_snoc.
Qed.

(** C5 (as amended).  When a budget check of the processing phase reads a
    time past the ceiling, the phase returns, and the last thing it does is
    to report RUNNING with both counters equal to 0 (the status sheet shows
    no progress rows); the current counters are in the state it stored:
    the stored [filesProcessed] is the count at the start plus the items
    processed in this invocation. *)
Theorem checkpoint_report_counters (env : Env) (t0 : Z) (st : AuditState) (w : World) (t : Z) :
  phase st = "PROCESSING" ->
  In (EvClock AtBudgetCheck t) (added w (snd (processing_phase env t0 st w))) ->
  MAX_EXECUTION_TIME < t - t0 ->
  fst (processing_phase env t0 st w) = Return /\
  last (trace (snd (processing_phase env t0 st w)))
    = Some (EvStatus "RUNNING" continuation_message 0 0) /\
  statusSheet (snd (processing_phase env t0 st w))
    = Some (mkStatusData "RUNNING" continuation_message None) /\
  exists st1,
    props (snd (processing_phase env t0 st w)) !! "AUDIT_STATE" = Some (PJson st1) /\
    filesProcessed st1
      = filesProcessed st + items_processed (added w (snd (processing_phase env t0 st w))).
Proof.
  intros Hphase Hin Hlate.
  destruct (processing_phase_shape env t0 st w Hphase)
    as (evs & st1 & tail & Htr & Hpt & Hend & Hworld & _).
  rewrite (added_app _ _ _ Htr) in Hin |- *.
  destruct (page_trace_counts _ _ _ _ Hpt) as (Hfp & _ & _).
  assert (Hc : fst (processing_phase env t0 st w) = Return).
  { destruct Hin as [[=]|[Hin|Hin]%in_app_iff].
    - apply (page_trace_clock _ _ _ _ _ _ Hpt) in Hin. lia.
    - by destruct (ending_clock _ _ _ _ _ _ _ Hend Hin Hlate). }
  split; [done|]. rewrite Hc in Hworld. destruct Hworld as (Hprops & _ & Hstatus).
  split.
  { rewrite Htr.
    change (?e :: evs ++ tail) with ([e] ++ evs ++ tail). rewrite !app_assoc.
    by eapply ending_last_status. }
  split; [done|]. exists st1. split; [done|].
  change (?e :: evs ++ tail) with ([e] ++ evs ++ tail).
  rewrite !items_processed_app, (ending_items _ _ _ _ _ Hend Hc), Hfp.
  unfold items_processed at 2. simpl. lia.
Qed.

Lemma checkpoint_report_counters_witness :
  phase processing_state = "PROCESSING" /\
  MAX_EXECUTION_TIME < 300000 - 0 /\
  fst (processing_phase late_env 0 processing_state (resumed_world processing_state)) = Return /\
  last (trace (snd (processing_phase late_env 0 processing_state (resumed_world processing_state))))
    = Some (EvStatus "RUNNING" continuation_message 0 0).
Proof.
  split; [reflexivity|]. split; [reflexivity|].
  assert (Hin : In (EvClock AtBudgetCheck 300000)
                   (added (resumed_world processing_state)
                          (snd (processing_phase late_env 0 processing_state
                                                 (resumed_world processing_state))))).
  { vm_compute. do 8 right. left. reflexivity. }
  destruct (checkpoint_report_counters late_env 0 processing_state
              (resumed_world processing_state) 300000 eq_refl Hin eq_refl) as (H1 & H2 & _).
  exact (conj H1 H2).
Defined.

(** C5 as first stated fails: three items have been processed when the
    budget is found exceeded, the stored state says so, and the RUNNING
    report of the checkpoint carries the counters 0 and 0. *)
Lemma checkpoint_report_counterexample :
  last (trace (exec (processDriveAuditBatch late_env) (resumed_world processing_state)))
    = Some (EvStatus "RUNNING" continuation_message 0 0) /\
  props (exec (processDriveAuditBatch late_env) (resumed_world processing_state)) !! "AUDIT_STATE"
    = Some (PJson (mkState "PROCESSING" 0 3 3 (Some "page1") 0)) /\
  statusSheet (exec (processDriveAuditBatch late_env) (resumed_world processing_state))
    = Some (mkStatusData "RUNNING" continuation_message None).
Proof. vm_compute. repeat split; reflexivity. Qed.

(** ** The state is saved after every page *)

Lemma fetches_fan_out stored processed rows fs outs rest :
  length outs = length fs ->
  fetches_see_saved_state stored (processed + Z.of_nat (length fs)) rows rest ->
  fetches_see_saved_state stored processed rows (fan_out_events fs outs ++ rest).
Proof.
  revert outs processed. induction fs as [|f fs IH]; intros [|o outs] processed Hlen; try done.
  - simpl. by rewrite Z.add_0_r.
  - simpl in Hlen. cbn [fan_out_events app fetches_see_saved_state length]. intros H.
    apply IH; [lia|]. by replace (processed + 1 + Z.of_nat (length fs))
                          with (processed + Z.of_nat (S (length fs))) by lia.
Qed.

Lemma fetches_page_trace t0 st evs st1 rest :
  page_trace t0 st evs st1 ->
  fetches_see_saved_state (Some st1) (filesProcessed st1) (auditDataCount st1) rest ->
  fetches_see_saved_state (Some st) (filesProcessed st) (auditDataCount st) (evs ++ rest).
Proof.
  induction 1 as [st|st t r fs outs lastRow evs st1 Ht Hf Hne Hlen _ IH]; [done|].
  intros Hrest. specialize (IH Hrest).
  unfold page_events. rewrite <- !app_assoc.
  cbn [app fetches_see_saved_state]. split; [by exists st|].
  apply fetches_fan_out; [done|]. cbn [app fetches_see_saved_state].
  assert (Hsave : fetches_see_saved_state (Some st)
                    (filesProcessed st + Z.of_nat (length fs))
                    (auditDataCount st + Z.of_nat (length (fan_out_rows fs outs)))
                    (EvSetProperty "AUDIT_STATE" (next_state st fs (nextPageToken r) outs)
                       :: evs ++ rest)).
  { cbn [fetches_see_saved_state String.eqb Ascii.eqb Bool.eqb].
    by rewrite <- (next_state_filesProcessed st fs (nextPageToken r) outs),
         <- (next_state_auditDataCount st fs (nextPageToken r) outs). }
  unfold cadence_events. by destruct (_ =? _).
Qed.

Lemma fetches_ending t0 st1 n tail c :
  ending t0 st1 n tail c ->
  fetches_see_saved_state (Some st1) (filesProcessed st1) (auditDataCount st1) tail.
Proof.
  intros Hend. inversion Hend as [| |t|t o|t r fs outs]; subst; try done.
  - cbn [fetches_see_saved_state]. split; [by exists st1|done].
  - cbn [app fetches_see_saved_state]. split; [by exists st1|].
    rewrite <- (app_nil_r (fan_out_events fs outs)). by apply fetches_fan_out.
Qed.

Lemma ending_items_not_thrown t0 st1 n tail c :
  ending t0 st1 n tail c -> (forall e, c <> Throw e) -> items_processed tail = 0.
Proof.
  intros Hend Hc. inversion Hend; subst; try done. by destruct (Hc (null_error "getLastRow")).
Qed.

(** The two pages are fetched with the cursors of the states saved before
    them, and six items are counted in the state stored at the end. *)
Example two_pages_saved :
  let w' := snd (processing_phase two_page_env 0 processing_state (resumed_world processing_state)) in
  flat_map (fun e => match e with
                     | EvFilesList token _ _ => [inl token]
                     | EvSetProperty _ s => [inr (pageToken s, filesProcessed s)]
                     | _ => []
                     end) (added (resumed_world processing_state) w')
  = [inl None; inr (Some "page1", 3); inl (Some "page1"); inr (None, 6)] /\
  fst (processing_phase two_page_env 0 processing_state (resumed_world processing_state))
  = Normal (mkState "FINALIZING" 0 6 6 None 0).
Proof. vm_compute. split; reflexivity. Qed.

(** ** The batch cap *)

(** C10 as first stated fails twice.  With pages of 100, 100, 100, 100, 99
    and 2 files (and more to come) one invocation handles 501 items: the
    sixth page is fetched because only 499 items were counted before it.
    With exactly five pages of 100 files, 500 items are handled and the
    invocation does not return in phase PROCESSING: the listing is
    exhausted, the audit is finalized and no continuation is registered. *)
Lemma batch_cap_counterexample :
  (items_processed
     (added (resumed_world processing_state)
            (exec (processDriveAuditBatch
                     (paged_env (pages_of_sizes 1 [100; 100; 100; 100; 99; 2; 5]%nat)))
                  (resumed_world processing_state))) = 501 /\
   props (exec (processDriveAuditBatch
                  (paged_env (pages_of_sizes 1 [100; 100; 100; 100; 99; 2; 5]%nat)))
               (resumed_world processing_state)) !! "AUDIT_STATE"
   = Some (PJson (mkState "PROCESSING" 0 501 501 (Some "page6") 0))) /\
  (items_processed
     (added (resumed_world processing_state)
            (exec (processDriveAuditBatch
                     (paged_env (pages_of_sizes 1 [100; 100; 100; 100; 100]%nat)))
                  (resumed_world processing_state))) = 500 /\
   last (statuses
           (added (resumed_world processing_state)
                  (exec (processDriveAuditBatch
                           (paged_env (pages_of_sizes 1 [100; 100; 100; 100; 100]%nat)))
                        (resumed_world processing_state)))) = Some "COMPLETED" /\
   triggers (exec (processDriveAuditBatch
                     (paged_env (pages_of_sizes 1 [100; 100; 100; 100; 100]%nat)))
                  (resumed_world processing_state)) = []).
Proof. vm_compute. repeat split; reflexivity. Qed.

(** ** Finalization and the error handler *)

Section Finish.

Variable env : Env.

Lemma finalizing_phase_done st w :
  phase st = "FINALIZING" -> is_Some (auditSheet w) ->
  exists t,
    fst (finalizing_phase env st w) = Normal tt /\
    trace (snd (finalizing_phase env st w)) = trace w ++ finalize_events st t /\
    cleaned (snd (finalizing_phase env st w)) /\
    auditSheet (snd (finalizing_phase env st w)) = auditSheet w /\
    other_triggers (snd (finalizing_phase env st w)) = other_triggers w.
Proof.
  intros Hphase [rows Hrows]. unfold finalizing_phase. rewrite Hphase.
  cbn [String.eqb Ascii.eqb Bool.eqb].
  unfold bind, updateAuditStatus, getLastRow, now, deleteProperty, call,
    deleteContinuationTriggers. simpl. rewrite Hrows. simpl.
  eexists. split; [reflexivity|]. split.
  { rewrite <- !app_assoc. reflexivity. }
  split; [split|split].
  - simpl. by rewrite lookup_delete_ne, lookup_delete_eq.
  - unfold continuation_triggers. simpl. apply continuation_triggers_deleted.
  - simpl. done.
  - unfold other_triggers. simpl. apply other_triggers_deleted.
Qed.

Lemma finalizing_phase_throws st w :
  phase st = "FINALIZING" -> auditSheet w = None ->
  fst (finalizing_phase env st w) = Throw (null_error "getLastRow") /\
  trace (snd (finalizing_phase env st w))
    = trace w ++ [EvStatus "RUNNING" finalizing_message (filesProcessed st) (filesProcessed st)] /\
  auditSheet (snd (finalizing_phase env st w)) = None /\
  triggers (snd (finalizing_phase env st w)) = triggers w.
Proof.
  intros Hphase Hrows. unfold finalizing_phase. rewrite Hphase.
  cbn [String.eqb Ascii.eqb Bool.eqb].
  unfold bind, updateAuditStatus, getLastRow. simpl. rewrite Hrows. simpl. done.
Qed.

Lemma finalizing_phase_skip st w :
  phase st <> "FINALIZING" -> finalizing_phase env st w = (Normal tt, w).
Proof.
  intros Hphase%String.eqb_neq. unfold finalizing_phase. by rewrite Hphase.
Qed.

Lemma catch_block_spec error w :
  fst (catch_block error w) = Normal tt /\
  trace (snd (catch_block error w)) = trace w ++ error_events error /\
  cleaned (snd (catch_block error w)) /\
  auditSheet (snd (catch_block error w)) = auditSheet w /\
  other_triggers (snd (catch_block error w)) = other_triggers w.
Proof.
  unfold catch_block, bind, updateAuditStatus, deleteProperty, call,
    deleteContinuationTriggers. simpl.
  split; [reflexivity|]. split.
  { rewrite <- !app_assoc. reflexivity. }
  split; [split|split].
  - simpl. by rewrite lookup_delete_ne, lookup_delete_eq.
  - unfold continuation_triggers. simpl. apply continuation_triggers_deleted.
  - simpl. done.
  - unfold other_triggers. simpl. apply other_triggers_deleted.
Qed.

(** The batch processor is its [try] block, followed by the [catch] block
    when the [try] block throws. *)
Lemma processDriveAuditBatch_unfold w :
  processDriveAuditBatch env w =
  let t0 := clock env (trace w) in
  let w0 := record (EvClock AtInvocationStart t0) w in
  match try_block env t0 w0 with
  | (Throw e, w1) => (Normal tt, snd (catch_block e w1))
  | (Normal _, w1) => (Normal tt, w1)
  | (Return, w1) => (Normal tt, w1)
  | (OutOfFuel, w1) => (OutOfFuel, w1)
  end.
Proof.
  unfold processDriveAuditBatch, call, bind, now, try_catch. cbv zeta.
  destruct (try_block env (clock env (trace w)) (record _ w)) as [[[]| |e|] w1]; reflexivity.
Qed.

End Finish.

(** ** One invocation as a whole *)

Lemma failed_fetches_app evs1 evs2 :
  failed_fetches (evs1 ++ evs2) = failed_fetches evs1 + failed_fetches evs2.
Proof. unfold failed_fetches. rewrite List.filter_app, length_app. lia. Qed.

Lemma failed_fetches_nonneg evs : 0 <= failed_fetches evs.
Proof. unfold failed_fetches. lia. Qed.

Lemma failed_fetches_in evs token n e :
  In (EvFilesList token n (Throws e)) evs -> 0 < failed_fetches evs.
Proof.
  induction evs as [|x evs IH]; [done|]. intros [->|Hin].
  - unfold failed_fetches. simpl. lia.
  - specialize (IH Hin). change (x :: evs) with ([x] ++ evs).
    rewrite failed_fetches_app. pose proof (failed_fetches_nonneg [x]). lia.
Qed.

Lemma failed_fetches_fan_out fs outs : failed_fetches (fan_out_events fs outs) = 0.
Proof.
  revert outs. induction fs as [|f fs IH]; intros [|o outs]; try done.
  cbn [fan_out_events]. change (?x :: ?l) with ([x] ++ l).
  rewrite failed_fetches_app, IH. reflexivity.
Qed.

Lemma failed_fetches_page_trace t0 st evs st' :
  page_trace t0 st evs st' -> failed_fetches evs = 0.
Proof.
  induction 1 as [st|st t r fs outs lastRow evs st' Ht Hf Hne Hlen _ IH]; [done|].
  unfold page_events, cadence_events.
  rewrite !failed_fetches_app, failed_fetches_fan_out, IH.
  by destruct (_ =? _).
Qed.

Section Invocation.

Variable env : Env.

Lemma try_block_unfold t0 w :
  try_block env t0 w =
  match prologue env w with
  | (Normal st, w1) => phases env t0 st w1
  | (Return, w1) => (Return, w1)
  | (Throw e, w1) => (Throw e, w1)
  | (OutOfFuel, w1) => (OutOfFuel, w1)
  end.
Proof.
  unfold try_block, prologue, phases, bind.
  destruct (load_state env w) as [[st| |e|] w1]; try reflexivity.
Qed.

Lemma prologue_spec w :
  exists evs,
    trace (snd (prologue env w)) = trace w ++ evs /\
    statuses evs = [] /\ failed_fetches evs = 0 /\
    triggers (snd (prologue env w)) = triggers w /\
    (is_Some (auditSheet w) -> is_Some (auditSheet (snd (prologue env w)))) /\
    match fst (prologue env w) with
    | Normal st =>
        phase st <> "SETUP" /\
        (phase st = "PROCESSING" -> props (snd (prologue env w)) !! "AUDIT_STATE" = Some (PJson st)) /\
        (phase st = "FINALIZING" ->
         props w !! "AUDIT_STATE" = Some (PJson st) /\ snd (prologue env w) = w)
    | Throw e => evs = [] /\ snd (prologue env w) = w
    | Return => False
    | OutOfFuel => False
    end.
Proof.
  destruct (props w !! "AUDIT_STATE") as [[st|s]|] eqn:Hprops;
    unfold prologue, load_state, getProperty, bind; cbv beta; rewrite Hprops;
    cbn [is_falsy].
  - (* a stored state *)
    cbn [JSON_parse ret]. unfold setup_phase.
    destruct (String.eqb (phase st) "SETUP") eqn:Hsetup.
    + unfold bind, setProperty, ret. simpl. eexists. split; [by rewrite <- app_assoc|].
      repeat split; try done. by rewrite lookup_insert_eq.
    + unfold ret. simpl. exists []. rewrite app_nil_r.
      apply String.eqb_neq in Hsetup. repeat split; try done.
  - (* a stored text *)
    destruct (String.eqb s "") eqn:Hs.
    + unfold bind, now, ret, setup_phase, bind, setProperty, ret. simpl.
      eexists. split; [by rewrite <- !app_assoc|].
      repeat split; try done. by rewrite lookup_insert_eq.
    + unfold JSON_parse, throw. simpl. exists []. by rewrite app_nil_r.
  - (* nothing stored *)
    unfold bind, now, ret, setup_phase, bind, setProperty, ret. simpl.
    eexists. split; [by rewrite <- !app_assoc|].
    repeat split; try done. by rewrite lookup_insert_eq.
Qed.

End Invocation.

Lemma ending_facts t0 st1 n tail c :
  ending t0 st1 n tail c ->
  Forall (eq "RUNNING") (statuses tail) /\
  match c with
  | Normal st2 => phase st2 = "FINALIZING"
  | _ => failed_fetches tail = 0
  end.
Proof.
  intros Hend. inversion Hend as [| |t|t o|t r fs outs]; subst.
  - split; [by repeat constructor|done].
  - split; [constructor|done].
  - split; [by repeat constructor|done].
  - split; [constructor|done].
  - split.
    + rewrite statuses_app. simpl.
      by destruct (fan_out_events_counts fs outs ltac:(done)) as (_ & _ & _ & ->).
    + rewrite failed_fetches_app, failed_fetches_fan_out. reflexivity.
Qed.

Lemma ending_failure_is_last t0 st1 n tail st2 pre :
  ending t0 st1 n tail (Normal st2) -> failed_fetches pre = 0 ->
  failure_is_last (pre ++ tail).
Proof.
  intros Hend Hpre Hfail. rewrite failed_fetches_app, Hpre in Hfail.
  inversion Hend as [| |t|t o|t r fs outs]; subst; [done|].
  destruct o as [r|e]; [done|].
  exists (pre ++ [EvClock AtBudgetCheck t]), (pageToken st1), 100, e.
  split; [by rewrite <- app_assoc|]. by rewrite failed_fetches_app, Hpre.
Qed.

Section Phases.

Variable env : Env.
Variable t0 : Z.

Lemma processing_phase_skip st w :
  phase st <> "PROCESSING" -> processing_phase env t0 st w = (Normal st, w).
Proof.
  intros Hphase%String.eqb_neq. unfold processing_phase. by rewrite Hphase.
Qed.

Lemma phases_unfold st w :
  phases env t0 st w =
  match processing_phase env t0 st w with
  | (Normal st2, w2) => finalizing_phase env st2 w2
  | (Return, w2) => (Return, w2)
  | (Throw e, w2) => (Throw e, w2)
  | (OutOfFuel, w2) => (OutOfFuel, w2)
  end.
Proof. reflexivity. Qed.

(** Finalization of a state in phase FINALIZING, after calls [evs0] that
    reported nothing but RUNNING. *)
Lemma finalization_outcome st2 w2 w1 evs0 :
  phase st2 = "FINALIZING" ->
  trace w2 = trace w1 ++ evs0 ->
  Forall (eq "RUNNING") (statuses evs0) ->
  failure_is_last evs0 ->
  exists evs,
    trace (snd (finalizing_phase env st2 w2)) = trace w1 ++ evs /\
    outcome (fst (finalizing_phase env st2 w2)) (snd (finalizing_phase env st2 w2)) evs.
Proof.
  intros Hphase Htr Hrun Hlast. destruct (auditSheet w2) as [rows|] eqn:Hsheet.
  - destruct (finalizing_phase_done env st2 w2 Hphase) as (t & Hc & Htr' & Hclean & Hsh & _);
      [by rewrite Hsheet|].
    exists (evs0 ++ finalize_events st2 t). split; [by rewrite Htr', Htr, app_assoc|].
    rewrite Hc. constructor; [done|done| |done]. by rewrite Hsh, Hsheet.
  - destruct (finalizing_phase_throws env st2 w2 Hphase Hsheet) as (Hc & Htr' & Hsh & _).
    eexists. split; [by rewrite Htr', Htr, <- app_assoc|].
    rewrite Hc. constructor; [|done].
    rewrite statuses_app. apply Forall_app. split; [done|by repeat constructor].
Qed.

Lemma phases_outcome st w :
  phase st <> "SETUP" ->
  exists evs,
    trace (snd (phases env t0 st w)) = trace w ++ evs /\
    outcome (fst (phases env t0 st w)) (snd (phases env t0 st w)) evs.
Proof.
  intros Hsetup. rewrite phases_unfold.
  destruct (String.eqb_spec (phase st) "PROCESSING") as [Hphase|Hphase].
  - destruct (processing_phase_shape env t0 st w Hphase)
      as (evs & st1 & tail & Htr & Hpt & Hend & Hworld & _ & _ & _).
    destruct (page_trace_counts _ _ _ _ Hpt) as (_ & _ & Hrun).
    pose proof (failed_fetches_page_trace _ _ _ _ Hpt) as Hfail.
    destruct (ending_facts _ _ _ _ _ Hend) as (Hrun' & Hc).
    assert (Hall : Forall (eq "RUNNING")
                     (statuses (EvStatus "RUNNING" processing_message (filesProcessed st) 0
                                  :: evs ++ tail))).
    { cbn [statuses flat_map app]. constructor; [done|].
      fold (statuses (evs ++ tail)). rewrite statuses_app. by apply Forall_app. }
    destruct (processing_phase env t0 st w) as [[st2| |e|] w2]; simpl in *.
    + eapply finalization_outcome; [done|exact Htr|done|].
      change (?e :: evs ++ tail) with (([e] ++ evs) ++ tail).
      eapply ending_failure_is_last; [exact Hend|].
      by rewrite failed_fetches_app, Hfail.
    + eexists. split; [exact Htr|]. destruct Hworld as (Hprops & Htrig & _).
      constructor; try done.
      * change (?e :: evs ++ tail) with ([e] ++ evs ++ tail).
        rewrite !failed_fetches_app, Hfail, Hc. reflexivity.
      * by eapply continuation_triggers_after_checkpoint.
    + eexists. split; [exact Htr|]. constructor; [done|]. intros _. apply Hworld.
    + done.
  - rewrite (processing_phase_skip st w Hphase).
    destruct (String.eqb_spec (phase st) "FINALIZING") as [Hfin|Hfin].
    + apply (finalization_outcome st w w []); [done|by rewrite app_nil_r|constructor|].
      intros Hfail. unfold failed_fetches in Hfail. simpl in Hfail. lia.
    + rewrite (finalizing_phase_skip env st w Hfin). exists []. simpl.
      split; [by rewrite app_nil_r|]. by constructor.
Qed.

End Phases.

Section Invoke.

Variable env : Env.

(** One invocation: the start time is read, the [try] block ends in one of
    the ways of [outcome], and the [catch] block runs when it threw. *)
Lemma processDriveAuditBatch_outcome w :
  exists t0 evs c w1,
    outcome c w1 evs /\
    fst (processDriveAuditBatch env w) = Normal tt /\
    match c with
    | Throw e =>
        trace (snd (processDriveAuditBatch env w))
          = trace w ++ EvClock AtInvocationStart t0 :: evs ++ error_events e /\
        cleaned (snd (processDriveAuditBatch env w)) /\
        auditSheet (snd (processDriveAuditBatch env w)) = auditSheet w1
    | _ =>
        trace (snd (processDriveAuditBatch env w))
          = trace w ++ EvClock AtInvocationStart t0 :: evs /\
        snd (processDriveAuditBatch env w) = w1
    end.
Proof.
  rewrite processDriveAuditBatch_unfold. cbv zeta.
  set (t0 := clock env (trace w)). set (w0 := record (EvClock AtInvocationStart t0) w).
  rewrite try_block_unfold.
  destruct (prologue_spec env w0) as (evs0 & Htr0 & Hst0 & Hf0 & _ & _ & Hcase).
  destruct (prologue env w0) as [[st| |e|] w1]; simpl in Htr0, Hcase; try done.
  - destruct Hcase as (Hsetup & _).
    destruct (phases_outcome env t0 st w1 Hsetup) as (evs & Htr & Hout).
    destruct (phases env t0 st w1) as [c w2]. simpl in Htr, Hout.
    assert (Hout' : outcome c w2 (evs0 ++ evs)).
    { inversion Hout as [w' evs' Hrun Hnone Hstored Htrig
                        | e w' evs' Hrun Hnosheet
                        | w' pre st' t Hrun Hclean Hsheet Hlast
                        | w' evs' Hnostatus Hnone]; subst.
      - constructor; try done.
        + rewrite statuses_app, Hst0. done.
        + rewrite failed_fetches_app, Hf0. lia.
      - constructor.
        + rewrite statuses_app, Hst0. done.
        + intros Hlt. rewrite failed_fetches_app, Hf0 in Hlt. auto.
      - rewrite app_assoc. constructor; try done.
        + rewrite statuses_app, Hst0. done.
        + intros Hfail. rewrite failed_fetches_app, Hf0 in Hfail.
          destruct (Hlast Hfail) as (pre' & token & n & e & -> & Hpre).
          exists (evs0 ++ pre'), token, n, e. split; [by rewrite app_assoc|].
          by rewrite failed_fetches_app, Hf0, Hpre.
      - apply out_idle.
        + rewrite statuses_app, Hst0. done.
        + rewrite failed_fetches_app, Hf0. lia. }
    assert (Htrace : trace w2 = trace w ++ EvClock AtInvocationStart t0 :: evs0 ++ evs).
    { rewrite Htr, Htr0. subst w0. simpl. by rewrite <- !app_assoc. }
    exists t0, (evs0 ++ evs), c, w2. split; [done|].
    destruct c as [[]| |e|]; cbn [fst snd].
    + split; [reflexivity|]. split; [exact Htrace|reflexivity].
    + split; [reflexivity|]. split; [exact Htrace|reflexivity].
    + destruct (catch_block_spec e w2) as (_ & Htr' & Hclean & Hsh & _).
      split; [done|]. split; [|done].
      rewrite Htr', Htrace, <- !app_assoc. simpl. by rewrite <- !app_assoc.
    + inversion Hout.
  - destruct Hcase as [-> ->].
    exists t0, [], (Throw e), w0. split; [by constructor|]. cbn [fst snd app].
    destruct (catch_block_spec e w0) as (_ & Htr' & Hclean & Hsh & _).
    split; [done|]. split; [|done]. rewrite Htr'. subst w0. simpl.
    by rewrite <- app_assoc.
Qed.

End Invoke.

(** ** Terminal cleanup *)

Lemma runDriveAudit_run env w :
  runDriveAudit env w = processDriveAuditBatch env (started_world env w).
Proof.
  unfold runDriveAudit, call at 1, bind, deleteProperty, updateAuditStatus, ui_alert.
  cbv beta zeta.
  match goal with
  | |- context [processDriveAuditBatch env ?w0] =>
      replace w0 with (started_world env w)
  end.
  - rewrite processDriveAuditBatch_unfold. cbv zeta.
    by destruct (try_block env _ _) as [[[]| |e|] w1].
  - unfold started_world. apply world_eq; simpl; try done.
    rewrite <- !app_assoc. reflexivity.
Qed.

Lemma all_running_not_terminal l s :
  Forall (eq "RUNNING") l -> In s l -> terminal s = true -> False.
Proof.
  intros Hall Hin Hterm. rewrite Forall_forall in Hall.
  apply list_elem_of_In, Hall in Hin. by subst s.
Qed.

Lemma processDriveAuditBatch_cleanup env w s :
  In s (statuses (added w (snd (processDriveAuditBatch env w)))) ->
  terminal s = true ->
  cleaned (snd (processDriveAuditBatch env w)).
Proof.
  intros Hin Hterm.
  destruct (processDriveAuditBatch_outcome env w) as (t0 & evs & c & w1 & Hout & _ & Hcase).
  inversion Hout as [w' evs' Hrun| e w' evs' Hrun | w' evs0 st t Hrun Hclean | w' evs' Hnone];
    subst.
  - destruct Hcase as [Hadd Hw]. rewrite (added_app _ _ _ Hadd) in Hin.
    by destruct (all_running_not_terminal _ _ Hrun Hin Hterm).
  - by destruct Hcase as (_ & Hclean & _).
  - by destruct Hcase as [_ ->].
  - destruct Hcase as [Hadd Hw]. rewrite (added_app _ _ _ Hadd) in Hin.
    cbn [statuses flat_map app] in Hin.
    fold (statuses evs) in Hin. by rewrite Hnone in Hin.
Qed.

Lemma processDriveAuditBatch_extends env w :
  trace (snd (processDriveAuditBatch env w))
  = trace w ++ added w (snd (processDriveAuditBatch env w)).
Proof.
  destruct (processDriveAuditBatch_outcome env w) as (t0 & evs & c & w1 & _ & _ & Hcase).
  destruct c; destruct Hcase as [Hadd _]; by rewrite (added_app _ _ _ Hadd).
Qed.

(** ** A page fetch that fails *)

(** C1 as first stated fails: the fetch of the second page throws, and the
    invocation goes on to finalize and reports COMPLETED for the three
    files of the first page; ERROR is never reported. *)
Lemma page_fetch_failure_counterexample :
  flat_map (fun e => match e with
                     | EvFilesList token _ (Returns _) => ["fetched"]
                     | EvFilesList token _ (Throws _) => ["fetch failed"]
                     | EvStatus s _ _ _ => [s]
                     | _ => []
                     end)
           (added (resumed_world processing_state)
                  (exec (processDriveAuditBatch flaky_env) (resumed_world processing_state)))
  = ["RUNNING"; "fetched"; "fetch failed"; "RUNNING"; "COMPLETED"] /\
  statusSheet (exec (processDriveAuditBatch flaky_env) (resumed_world processing_state))
  = Some (mkStatusData "COMPLETED"
            "Audit completed successfully! Files audited: 3, Permission entries: 3, Duration: 0 seconds"
            (Some (3, 3))).
Proof. vm_compute. split; reflexivity. Qed.

(** ** A job in phase FINALIZING *)

Lemma prologue_stored env w st :
  props w !! "AUDIT_STATE" = Some (PJson st) -> phase st <> "SETUP" ->
  prologue env w = (Normal st, w).
Proof.
  intros Hprops Hsetup%String.eqb_neq.
  unfold prologue, load_state, getProperty, bind. cbv beta. rewrite Hprops.
  cbn [is_falsy JSON_parse ret]. unfold setup_phase. by rewrite Hsetup.
Qed.

Lemma processDriveAuditBatch_finalizing env w st :
  props w !! "AUDIT_STATE" = Some (PJson st) -> phase st = "FINALIZING" ->
  processDriveAuditBatch env w =
  let w0 := record (EvClock AtInvocationStart (clock env (trace w))) w in
  match finalizing_phase env st w0 with
  | (Throw e, w1) => (Normal tt, snd (catch_block e w1))
  | (Normal _, w1) => (Normal tt, w1)
  | (Return, w1) => (Normal tt, w1)
  | (OutOfFuel, w1) => (OutOfFuel, w1)
  end.
Proof.
  intros Hprops Hphase. rewrite processDriveAuditBatch_unfold. cbv zeta.
  rewrite try_block_unfold, (prologue_stored env _ st); [|done|by rewrite Hphase].
  rewrite phases_unfold, processing_phase_skip; [done|by rewrite Hphase].
Qed.

(** C6 (as amended).  A job whose stored state is in phase FINALIZING can
    still end in ERROR and in CANCELLED.  The batch processor, invoked on
    such a state, reports RUNNING and then ERROR when the audit sheet is
    missing (the exception of the finalization goes to the same handler as
    any other), and RUNNING and then COMPLETED when the sheet is there.  The
    cancel operation, confirmed, reports CANCELLED.  In all three cases no
    state is stored and no continuation is pending afterwards. *)
Theorem finalizing_can_end_in_error_or_cancel (env : Env) (w : World) (st : AuditState) :
  props w !! "AUDIT_STATE" = Some (PJson st) ->
  phase st = "FINALIZING" ->
  (auditSheet w = None ->
   statuses (added w (exec (processDriveAuditBatch env) w)) = ["RUNNING"; "ERROR"] /\
   cleaned (exec (processDriveAuditBatch env) w)) /\
  (is_Some (auditSheet w) ->
   statuses (added w (exec (processDriveAuditBatch env) w)) = ["RUNNING"; "COMPLETED"] /\
   cleaned (exec (processDriveAuditBatch env) w)) /\
  (alert_answer env (trace w) "Cancel Running Audit?" = YES ->
   statuses (added w (exec (cancelRunningAudit env) w)) = ["CANCELLED"] /\
   cleaned (exec (cancelRunningAudit env) w)).
Proof.
  intros Hprops Hphase. unfold exec. split; [|split].
  - intros Hsheet. rewrite (processDriveAuditBatch_finalizing env w st Hprops Hphase). cbv zeta.
    set (w0 := record _ w).
    destruct (finalizing_phase_throws env st w0 Hphase Hsheet) as (Hc & Htr & _).
    destruct (finalizing_phase env st w0) as [c w1]. simpl in Hc, Htr. subst c.
    destruct (catch_block_spec (null_error "getLastRow") w1) as (_ & Htr' & Hclean & _).
    cbn [snd]. split; [|done].
    rewrite (added_app w _ ([EvClock AtInvocationStart (clock env (trace w));
                             EvStatus "RUNNING" finalizing_message (filesProcessed st)
                                      (filesProcessed st)]
                              ++ error_events (null_error "getLastRow"))); [done|].
    rewrite Htr', Htr. subst w0. simpl. by rewrite <- !app_assoc.
  - intros Hsheet. rewrite (processDriveAuditBatch_finalizing env w st Hprops Hphase). cbv zeta.
    set (w0 := record _ w).
    destruct (finalizing_phase_done env st w0 Hphase Hsheet) as (t & Hc & Htr & Hclean & _).
    destruct (finalizing_phase env st w0) as [c w1]. simpl in Hc, Htr, Hclean. subst c.
    cbn [snd]. split; [|done].
    rewrite (added_app w _ (EvClock AtInvocationStart (clock env (trace w))
                              :: finalize_events st t)); [done|].
    rewrite Htr. subst w0. simpl. by rewrite <- !app_assoc.
  - intros Hyes. rewrite cancelRunningAudit_run, Hprops, Hyes. cbn [is_falsy snd].
    split; [|split].
    + unfold added, cancelled_world. cbn [trace]. rewrite <- !app_assoc.
      by rewrite drop_app_length.
    + simpl. by rewrite lookup_delete_ne, lookup_delete_eq.
    + unfold continuation_triggers. simpl. apply continuation_triggers_deleted.
Qed.

Lemma finalizing_can_end_in_error_or_cancel_witness :
  props (sheetless_world finalizing_state) !! "AUDIT_STATE" = Some (PJson finalizing_state) /\
  phase finalizing_state = "FINALIZING" /\
  auditSheet (sheetless_world finalizing_state) = None /\
  statuses (added (sheetless_world finalizing_state)
                  (exec (processDriveAuditBatch (quiet_env YES)) (sheetless_world finalizing_state)))
    = ["RUNNING"; "ERROR"] /\
  statuses (added (sheetless_world finalizing_state)
                  (exec (cancelRunningAudit (quiet_env YES)) (sheetless_world finalizing_state)))
    = ["CANCELLED"].
Proof.
  destruct (finalizing_can_end_in_error_or_cancel (quiet_env YES)
              (sheetless_world finalizing_state) finalizing_state eq_refl eq_refl)
    as (Herr & _ & Hcancel).
  split; [reflexivity|]. split; [reflexivity|]. split; [reflexivity|].
  exact (conj (proj1 (Herr eq_refl)) (proj1 (Hcancel eq_refl))).
Defined.

(** C6 as first stated fails.  An invocation that resumes a job in phase
    PROCESSING on an empty listing, in a spreadsheet whose audit sheet was
    removed, enters FINALIZING (it reports "Finalizing audit...") and then
    reports ERROR.  And the cancel operation, on a stored state in phase
    FINALIZING, reports CANCELLED. *)
Lemma finalizing_counterexample :
  flat_map (fun e => match e with EvStatus s m _ _ => [(s, m)] | _ => [] end)
           (added (sheetless_world processing_state)
                  (exec (processDriveAuditBatch (quiet_env YES)) (sheetless_world processing_state)))
  = [("RUNNING", "Processing files and permissions...");
     ("RUNNING", "Finalizing audit...");
     ("ERROR", "An error occurred during the audit: TypeError: Cannot read properties of null (reading 'getLastRow')")] /\
  statuses (added (resumed_world finalizing_state)
                  (exec (cancelRunningAudit (quiet_env YES)) (resumed_world finalizing_state)))
  = ["CANCELLED"].
Proof. vm_compute. split; reflexivity. Qed.

(** ** A permission fetch that fails *)




(** * More properties of the code *)

(** ** [getFileType] *)

Lemma prefix_inv p s :
  String.prefix p s = true -> exists r, s = p +:+ r.
Proof.
  revert s. induction p as [|c p IH]; intros s; [by eexists|].
  destruct s as [|c' s']; [done|].
  cbn [String.prefix String.append].
  destruct (Ascii.ascii_dec c c') as [->|]; [|done].
  intros [r ->]%IH. by eexists.
Qed.

(** X1.  [getFileType] tests 'pdf', then 'document' or 'text', then
    'spreadsheet', then 'presentation'.  So it answers "Spreadsheet" or
    "Presentation" only for a MIME type that contains neither 'pdf' nor
    'document' nor 'text' and is not a Google Apps type. *)
Theorem getFileType_spreadsheet_last (file : File) :
  getFileType file = "Spreadsheet" \/ getFileType file = "Presentation" ->
  includes (mimeType file) "pdf" = false /\
  includes (mimeType file) "document" = false /\
  includes (mimeType file) "text" = false /\
  startsWith (mimeType file) "application/vnd.google-apps." = false.
Proof.
  unfold getFileType.
  destruct (String.eqb (mimeType file) "application/vnd.google-apps.folder"); [by intros [|]|].
  destruct (startsWith (mimeType file) "application/vnd.google-apps."); [by intros [|]|].
  destruct (startsWith (mimeType file) "image/"); [by intros [|]|].
  destruct (startsWith (mimeType file) "video/"); [by intros [|]|].
  destruct (startsWith (mimeType file) "audio/"); [by intros [|]|].
  destruct (includes (mimeType file) "pdf"); [by intros [|]|].
  destruct (includes (mimeType file) "document"); [by intros [|]|].
  destruct (includes (mimeType file) "text"); [by intros [|]|].
  done.
Qed.

Lemma getFileType_spreadsheet_last_witness :
  (getFileType csv_sheet_file = "Spreadsheet" \/ getFileType csv_sheet_file = "Presentation") /\
  includes (mimeType csv_sheet_file) "document" = false /\
  getFileType xlsx_file = "Document".
Proof.
  assert (H : getFileType csv_sheet_file = "Spreadsheet" \/
              getFileType csv_sheet_file = "Presentation") by (left; reflexivity).
  split; [exact H|].
  destruct (getFileType_spreadsheet_last csv_sheet_file H) as (_ & Hdoc & _).
  split; [exact Hdoc|reflexivity].
Defined.

(** X2.  A MIME type that starts with 'image/', 'video/' or 'audio/' is
    labelled by that prefix alone, whatever follows it: the tests on 'pdf',
    'document' and the like are not reached. *)
Theorem getFileType_media (file : File) :
  (startsWith (mimeType file) "image/" = true -> getFileType file = "Image") /\
  (startsWith (mimeType file) "video/" = true -> getFileType file = "Video") /\
  (startsWith (mimeType file) "audio/" = true -> getFileType file = "Audio").
Proof.
  unfold getFileType, startsWith.
  repeat split; intros H; destruct (prefix_inv _ _ H) as [r Hr];
    replace (String.eqb (mimeType file) "application/vnd.google-apps.folder")
      with false by (rewrite Hr; reflexivity);
    replace (String.prefix "application/vnd.google-apps." (mimeType file))
      with false by (rewrite Hr; reflexivity).
  - by rewrite H.
  - replace (String.prefix "image/" (mimeType file)) with false by (rewrite Hr; reflexivity).
    by rewrite H.
  - replace (String.prefix "image/" (mimeType file)) with false by (rewrite Hr; reflexivity).
    replace (String.prefix "video/" (mimeType file)) with false by (rewrite Hr; reflexivity).
    by rewrite H.
Qed.

Lemma getFileType_media_witness :
  startsWith "image/pdf" "image/" = true /\
  getFileType (mkFile "id3" "scan" "image/pdf" None None None None None) = "Image".
Proof.
  split; [reflexivity|].
  exact (proj1 (getFileType_media (mkFile "id3" "scan" "image/pdf" None None None None None))
               eq_refl).
Defined.

(** ** The rows have the width of the header *)

Lemma file_rows_width file ps : Forall (fun r => length r = 15%nat) (file_rows file ps).
Proof.
  unfold file_rows. destruct ps as [|p ps]; [by repeat constructor|].
  cbn [length Nat.eqb]. apply Forall_forall. intros r Hr.
  apply list_elem_of_In, in_map_iff in Hr as (q & <- & _). reflexivity.
Qed.

Lemma fan_out_rows_width fs outs : Forall (fun r => length r = 15%nat) (fan_out_rows fs outs).
Proof.
  revert outs. induction fs as [|f fs IH]; intros [|o outs]; try by constructor.
  cbn [fan_out_rows]. apply Forall_app. split; [apply file_rows_width|apply IH].
Qed.

(** X3.  Every row written for an item has 15 cells, the number of header
    columns and the width of the range the rows are written to; this holds
    for every row of a whole page as well. *)
Theorem rows_have_header_width (file : File) (ps : list Permission)
        (fs : list File) (outs : list (Outcome PermissionsResponse)) :
  length headers = 15%nat /\
  Forall (fun r => length r = length headers) (file_rows file ps) /\
  Forall (fun r => length r = length headers) (fan_out_rows fs outs).
Proof.
  split; [reflexivity|]. split; [apply file_rows_width|apply fan_out_rows_width].
Qed.

(** ** The weekly schedule *)

Lemma filter_filter_negb {A} (f : A -> bool) (l : list A) :
  List.filter f (List.filter (fun x => negb (f x)) l) = [] /\
  List.filter (fun x => negb (f x)) (List.filter (fun x => negb (f x)) l)
  = List.filter (fun x => negb (f x)) l.
Proof.
  induction l as [|x l [IH1 IH2]]; [done|].
  simpl. destruct (f x) eqn:Hx; simpl; [done|].
  rewrite Hx. simpl. by rewrite IH1, IH2.
Qed.

(** Deleting the triggers of one handler leaves those of the other. *)
Lemma filter_continuation_unscheduled (l : list Trigger) :
  List.filter (fun trigger => String.eqb (handlerFunction trigger) "processDriveAuditBatch")
    (List.filter (fun trigger => negb (String.eqb (handlerFunction trigger) "runDriveAudit")) l)
  = List.filter (fun trigger => String.eqb (handlerFunction trigger) "processDriveAuditBatch") l.
Proof.
  induction l as [|x l IH]; [done|].
  simpl. destruct (String.eqb_spec (handlerFunction x) "runDriveAudit") as [Hx|Hx]; simpl.
  - rewrite Hx. simpl. exact IH.
  - destruct (String.eqb (handlerFunction x) "processDriveAuditBatch"); by rewrite IH.
Qed.

Lemma filter_scheduled_other (l : list Trigger) :
  List.filter (fun trigger => String.eqb (handlerFunction trigger) "runDriveAudit")
    (List.filter (fun trigger => negb (String.eqb (handlerFunction trigger) "processDriveAuditBatch")) l)
  = List.filter (fun trigger => String.eqb (handlerFunction trigger) "runDriveAudit") l.
Proof.
  induction l as [|x l IH]; [done|].
  simpl. destruct (String.eqb_spec (handlerFunction x) "processDriveAuditBatch") as [Hx|Hx]; simpl.
  - rewrite Hx. simpl. exact IH.
  - destruct (String.eqb (handlerFunction x) "runDriveAudit"); by rewrite IH.
Qed.

Lemma setupWeeklyTrigger_run (env : Env) (w : World) :
  setupWeeklyTrigger env w =
  let h := trace w ++ [EvDeleteTriggers "runDriveAudit"; EvNewTrigger weekly_trigger] in
  (Normal tt,
   mkWorld (props w) (auditSheet w) (statusSheet w) (summarySheet w)
           (unscheduled_triggers w ++ [weekly_trigger])
           (h ++ [EvAlert "Success" (alert_answer env h "Success")])).
Proof.
  unfold setupWeeklyTrigger, call, try_catch, bind, deleteScheduledTriggers, newTrigger,
    ui_alert, ret, record, with_triggers, unscheduled_triggers, weekly_trigger.
  cbn [fst snd props auditSheet statusSheet summarySheet triggers trace].
  by rewrite <- !app_assoc.
Qed.

Lemma removeScheduledAudits_run (env : Env) (w : World) :
  removeScheduledAudits env w =
  let h := trace w ++ [EvDeleteTriggers "runDriveAudit"] in
  let title := if (0 <? length (scheduled_triggers w))%nat then "Success" else "No Schedule Found" in
  (Normal tt,
   mkWorld (props w) (auditSheet w) (statusSheet w) (summarySheet w)
           (unscheduled_triggers w)
           (h ++ [EvAlert title (alert_answer env h title)])).
Proof.
  unfold removeScheduledAudits, call, try_catch, bind, deleteScheduledTriggers,
    ui_alert, ret, record, with_triggers, unscheduled_triggers, scheduled_triggers.
  cbn [fst snd props auditSheet statusSheet summarySheet triggers trace].
  by destruct (0 <? length _)%nat.
Qed.

(** X4.  [setupWeeklyTrigger] always ends normally and leaves exactly one
    trigger for [runDriveAudit], the weekly one (Monday, hour 6), however
    many there were; every other trigger, the continuations of a running
    audit among them, and the stored properties and the audit sheet are
    left as they were; calling it again changes no trigger. *)
Theorem weekly_schedule_is_single (env : Env) (w : World) :
  let w' := exec (setupWeeklyTrigger env) w in
  fst (setupWeeklyTrigger env w) = Normal tt /\
  scheduled_triggers w' = [weekly_trigger] /\
  unscheduled_triggers w' = unscheduled_triggers w /\
  continuation_triggers w' = continuation_triggers w /\
  props w' = props w /\ auditSheet w' = auditSheet w /\
  triggers (exec (setupWeeklyTrigger env) w') = triggers w'.
Proof.
  assert (Htr : forall w0, triggers (exec (setupWeeklyTrigger env) w0)
                           = unscheduled_triggers w0 ++ [weekly_trigger])
    by (intros w0; unfold exec; by rewrite setupWeeklyTrigger_run).
  cbv zeta. split; [by rewrite setupWeeklyTrigger_run|].
  pose proof (filter_filter_negb
                (fun trigger => String.eqb (handlerFunction trigger) "runDriveAudit")
                (triggers w)) as [Hnone Hsame].
  assert (Hun : unscheduled_triggers (exec (setupWeeklyTrigger env) w) = unscheduled_triggers w).
  { unfold unscheduled_triggers at 1. rewrite Htr. unfold unscheduled_triggers.
    rewrite List.filter_app, Hsame. simpl. by rewrite app_nil_r. }
  repeat apply conj.
  - unfold scheduled_triggers. rewrite Htr. unfold unscheduled_triggers.
    rewrite List.filter_app, Hnone. reflexivity.
  - exact Hun.
  - unfold continuation_triggers. rewrite Htr. unfold unscheduled_triggers.
    rewrite List.filter_app, filter_continuation_unscheduled. simpl. by rewrite app_nil_r.
  - unfold exec. rewrite setupWeeklyTrigger_run. reflexivity.
  - unfold exec. rewrite setupWeeklyTrigger_run. reflexivity.
  - rewrite (Htr (exec (setupWeeklyTrigger env) w)), Hun. by rewrite Htr.
Qed.

(** X5.  [removeScheduledAudits] always ends normally and removes every
    trigger for [runDriveAudit] and nothing else: the continuations of a
    running audit and its stored state stay.  It says 'Success' when there
    was a schedule and 'No Schedule Found' when there was none; after
    [setupWeeklyTrigger] it says 'Success' and the triggers are those that
    were not of the schedule before. *)
Theorem remove_schedule_only (env : Env) (w : World) :
  let w' := exec (removeScheduledAudits env) w in
  fst (removeScheduledAudits env w) = Normal tt /\
  scheduled_triggers w' = [] /\
  triggers w' = unscheduled_triggers w /\
  continuation_triggers w' = continuation_triggers w /\
  props w' = props w /\
  (exists b,
     added w w' = [EvDeleteTriggers "runDriveAudit";
                   EvAlert (if decide (scheduled_triggers w = [])
                            then "No Schedule Found" else "Success") b]) /\
  (let w1 := exec (setupWeeklyTrigger env) w in
   triggers (exec (removeScheduledAudits env) w1) = unscheduled_triggers w /\
   exists b, last (trace (exec (removeScheduledAudits env) w1)) = Some (EvAlert "Success" b)).
Proof.
  assert (Htr : forall w0, triggers (exec (removeScheduledAudits env) w0) = unscheduled_triggers w0)
    by (intros w0; unfold exec; by rewrite removeScheduledAudits_run).
  pose proof (filter_filter_negb
                (fun trigger => String.eqb (handlerFunction trigger) "runDriveAudit")
                (triggers w)) as [Hnone Hsame].
  cbv zeta. split; [by rewrite removeScheduledAudits_run|].
  repeat apply conj.
  - unfold scheduled_triggers. rewrite Htr. exact Hnone.
  - apply Htr.
  - unfold continuation_triggers. rewrite Htr. apply filter_continuation_unscheduled.
  - unfold exec. rewrite removeScheduledAudits_run. reflexivity.
  - unfold exec. rewrite removeScheduledAudits_run. cbv zeta.
    destruct (scheduled_triggers w) as [|x l];
      eexists; apply added_app; cbn [snd trace]; rewrite <- app_assoc; reflexivity.
  - rewrite Htr. unfold unscheduled_triggers, exec. rewrite setupWeeklyTrigger_run.
    cbn [snd triggers]. unfold unscheduled_triggers.
    rewrite List.filter_app, Hsame. simpl. by rewrite app_nil_r.
  - eexists. unfold exec at 1. rewrite removeScheduledAudits_run. cbn [snd trace].
    rewrite last_snoc.
    assert (Hone : scheduled_triggers (exec (setupWeeklyTrigger env) w) = [weekly_trigger]).
    { unfold scheduled_triggers, exec. rewrite setupWeeklyTrigger_run. cbn [snd triggers].
      unfold unscheduled_triggers. rewrite List.filter_app, Hnone. reflexivity. }
    rewrite Hone. reflexivity.
Qed.

(** X6.  [showScheduleDialog] asks first: with any answer but YES the only
    thing that happens is the dialog, and no trigger is made; with YES the
    weekly trigger is the one trigger for [runDriveAudit] afterwards. *)
Theorem schedule_dialog_asks_first (env : Env) (w : World) :
  let answer := alert_answer env (trace w) "Setup Weekly Scheduled Audit" in
  let w' := exec (showScheduleDialog env) w in
  fst (showScheduleDialog env w) = Normal tt /\
  (answer <> YES -> w' = record (EvAlert "Setup Weekly Scheduled Audit" answer) w) /\
  (answer = YES ->
   scheduled_triggers w' = [weekly_trigger] /\
   unscheduled_triggers w' = unscheduled_triggers w /\
   added w w' = [EvAlert "Setup Weekly Scheduled Audit" YES;
                 EvDeleteTriggers "runDriveAudit";
                 EvNewTrigger weekly_trigger;
                 EvAlert "Success"
                   (alert_answer env (trace w ++ [EvAlert "Setup Weekly Scheduled Audit" YES;
                                                  EvDeleteTriggers "runDriveAudit";
                                                  EvNewTrigger weekly_trigger]) "Success")]).
Proof.
  cbv zeta. unfold exec, showScheduleDialog, call, bind, ui_alert.
  cbn [fst snd].
  destruct (alert_answer env (trace w) "Setup Weekly Scheduled Audit") eqn:Hans;
    try (split; [reflexivity|]; split; [reflexivity|done]).
  rewrite setupWeeklyTrigger_run. cbv zeta. split; [reflexivity|]. split; [done|].
  intros _.
  pose proof (filter_filter_negb
                (fun trigger => String.eqb (handlerFunction trigger) "runDriveAudit")
                (triggers w)) as [Hnone Hsame].
  repeat apply conj.
  - unfold scheduled_triggers, unscheduled_triggers. cbn [snd triggers record].
    rewrite List.filter_app, Hnone. reflexivity.
  - unfold unscheduled_triggers. cbn [snd triggers record].
    rewrite List.filter_app, Hsame. simpl. by rewrite app_nil_r.
  - apply added_app. cbn [snd trace record]. by rewrite <- !app_assoc.
Qed.

(** ** The legacy listing [getAllDriveFiles] *)

Lemma token_of_inj i j : token_of i = token_of j -> i = j.
Proof.
  unfold token_of. simpl. intros [= H].
  change (pretty (Z.of_nat i) = pretty (Z.of_nat j)) in H.
  apply (inj pretty) in H. lia.
Qed.

Lemma find_token i a m :
  (a <= i < a + m)%nat ->
  find (fun j => String.eqb (token_of j) (token_of i)) (seq a m) = Some i.
Proof.
  revert a. induction m as [|m IH]; intros a Hi; [lia|].
  cbn [seq find]. destruct (String.eqb_spec (token_of a) (token_of i)) as [Heq|Hne].
  - apply token_of_inj in Heq. by subst.
  - apply IH. destruct (decide (a = i)) as [->|]; [done|lia].
Qed.

Lemma index_of_token_of n i : (i < n)%nat -> index_of_token n (Some (token_of i)) = i.
Proof. intros Hi. unfold index_of_token. rewrite find_token; [done|lia]. Qed.

Lemma truthy_token_of i : truthy (Some (token_of i)) = true.
Proof. reflexivity. Qed.

Lemma getAllDriveFiles_loop_paged env pages fuel acc token w i :
  (forall h tok, Files_list env h tok 100 = paged_drive pages tok) ->
  index_of_token (length pages) token = i ->
  (i < length pages)%nat -> (length pages - i <= fuel)%nat ->
  exists evs,
    fst (getAllDriveFiles_loop env fuel acc token w) = Normal (acc ++ concat (drop i pages)) /\
    trace (snd (getAllDriveFiles_loop env fuel acc token w)) = trace w ++ evs /\
    pages_fetched evs = Z.of_nat (length pages - i).
Proof.
  intros Hdrive. revert acc token w i.
  induction fuel as [|fuel IH]; intros acc token w i Htoken Hi Hfuel; [lia|].
  destruct (lookup_lt_is_Some_2 pages i Hi) as [fs Hfs].
  assert (Hans : Files_list env (trace w) token 100
                 = Returns (mkFilesResponse
                              (Some fs)
                              (if (S i <? length pages)%nat then Some (token_of (S i)) else None))).
  { rewrite Hdrive. unfold paged_drive. by rewrite Htoken, Hfs. }
  assert (Hacc : (if (0 <? length fs)%nat then acc ++ fs else acc) = acc ++ fs).
  { destruct fs; [by rewrite app_nil_r|reflexivity]. }
  cbn [getAllDriveFiles_loop]. unfold Drive_Files_list. rewrite Hans.
  cbn [files nextPageToken]. rewrite Hacc.
  rewrite (drop_S _ _ _ Hfs). cbn [concat].
  destruct (Nat.ltb_spec (S i) (length pages)) as [Hlt|Hge].
  - rewrite truthy_token_of.
    set (e := EvFilesList token 100 _).
    destruct (IH (acc ++ fs) (Some (token_of (S i))) (record e w) (S i))
      as (evs & Hres & Htrace & Hcount); [by apply index_of_token_of|exact Hlt|lia|].
    exists (e :: evs).
    split; [by rewrite Hres, <- app_assoc|].
    split; [rewrite Htrace; cbn [record trace]; by rewrite <- app_assoc|].
    change (pages_fetched ([e] ++ evs) = Z.of_nat (length pages - i)).
    rewrite pages_fetched_app, Hcount. unfold pages_fetched. simpl. lia.
  - cbn [truthy fst snd]. eexists [_].
    rewrite (drop_ge pages (S i)) by lia. cbn [concat]. rewrite app_nil_r.
    split; [reflexivity|]. split; [reflexivity|].
    unfold pages_fetched. simpl. lia.
Qed.

(** X7.  On a Drive whose listing is a fixed sequence of pages, handed out
    one per call with a token for the next, [getAllDriveFiles] returns all
    the files of all the pages in order, after one call per page (one call
    when there is no page at all); the loop needs as many turns as there
    are pages. *)
Theorem getAllDriveFiles_lists_every_page (env : Env) (pages : list (list File))
        (fuel : nat) (w : World) :
  (forall h token, Files_list env h token 100 = paged_drive pages token) ->
  (Nat.max 1 (length pages) <= fuel)%nat ->
  fst (getAllDriveFiles env fuel w) = Normal (concat pages) /\
  pages_fetched (added w (snd (getAllDriveFiles env fuel w)))
  = Z.of_nat (Nat.max 1 (length pages)).
Proof.
  intros Hdrive Hfuel. unfold getAllDriveFiles.
  destruct pages as [|p pages].
  - destruct fuel as [|fuel]; [simpl in Hfuel; lia|].
    cbn [getAllDriveFiles_loop]. unfold Drive_Files_list. rewrite Hdrive.
    cbn. split; [reflexivity|].
    erewrite added_app; [|reflexivity]. reflexivity.
  - destruct (getAllDriveFiles_loop_paged env (p :: pages) fuel [] None w 0%nat)
      as (evs & Hres & Htrace & Hcount);
      [exact Hdrive|reflexivity|simpl; lia|simpl in *; lia|].
    rewrite Hres. split; [reflexivity|].
    rewrite (added_app _ _ _ Htrace), Hcount. simpl. lia.
Qed.

Lemma getAllDriveFiles_lists_every_page_witness :
  fst (getAllDriveFiles (paged_env [plain_files 1 3; plain_files 4 3]) 2 fresh_world)
  = Normal (plain_files 1 3 ++ plain_files 4 3) /\
  pages_fetched (added fresh_world
                   (snd (getAllDriveFiles (paged_env [plain_files 1 3; plain_files 4 3]) 2
                                          fresh_world))) = 2.
Proof.
  exact (getAllDriveFiles_lists_every_page
           (paged_env [plain_files 1 3; plain_files 4 3])
           [plain_files 1 3; plain_files 4 3] 2 fresh_world
           (fun _ _ => eq_refl) (le_n 2)).
Defined.

Lemma failed_fetches_cons_returns token n r evs :
  failed_fetches (EvFilesList token n (Returns r) :: evs) = failed_fetches evs.
Proof. reflexivity. Qed.

Lemma getAllDriveFiles_loop_run env fuel acc token w :
  exists evs,
    trace (snd (getAllDriveFiles_loop env fuel acc token w)) = trace w ++ evs /\
    Forall is_fetch evs /\
    failure_is_last evs /\
    (fst (getAllDriveFiles_loop env fuel acc token w) = OutOfFuel \/
     fst (getAllDriveFiles_loop env fuel acc token w) = Normal (acc ++ listed evs)) /\
    (fst (getAllDriveFiles_loop env fuel acc token w) = OutOfFuel -> failed_fetches evs = 0) /\
    props (snd (getAllDriveFiles_loop env fuel acc token w)) = props w /\
    auditSheet (snd (getAllDriveFiles_loop env fuel acc token w)) = auditSheet w /\
    triggers (snd (getAllDriveFiles_loop env fuel acc token w)) = triggers w.
Proof.
  revert acc token w. induction fuel as [|fuel IH]; intros acc token w.
  - exists []. cbn [getAllDriveFiles_loop fst snd]. rewrite app_nil_r.
    split; [reflexivity|]. split; [constructor|].
    split; [intros H; unfold failed_fetches in H; simpl in H; lia|].
    split; [by left|]. done.
  - cbn [getAllDriveFiles_loop]. unfold Drive_Files_list.
    destruct (Files_list env (trace w) token 100) as [r|err] eqn:Hans.
    + set (e := EvFilesList token 100 (Returns r)).
      set (acc' := match files r with
                   | Some fs => if (0 <? length fs)%nat then acc ++ fs else acc
                   | None => acc
                   end).
      assert (Hacc : acc' = acc ++ listed [e]).
      { unfold acc', listed, e. cbn [flat_map]. rewrite app_nil_r.
        destruct (files r) as [[|f fs]|]; cbn [default length Nat.ltb Nat.leb];
          by rewrite ?app_nil_r. }
      destruct (truthy (nextPageToken r)).
      * destruct (IH acc' (nextPageToken r) (record e w))
          as (evs & Htrace & Hall & Hlast & Hres & Hfuel & Hprops & Hsheet & Htrig).
        exists (e :: evs).
        split; [rewrite Htrace; cbn [record trace]; by rewrite <- app_assoc|].
        split; [constructor; [reflexivity|exact Hall]|].
        split.
        { unfold failure_is_last, e. rewrite failed_fetches_cons_returns. intros Hpos.
          destruct (Hlast Hpos) as (pre & tok & n & err & -> & Hpre).
          exists (EvFilesList token 100 (Returns r) :: pre), tok, n, err.
          split; [reflexivity|]. by rewrite failed_fetches_cons_returns. }
        split.
        { destruct Hres as [Hres|Hres]; [by left|right].
          rewrite Hres, Hacc. change (e :: evs) with ([e] ++ evs).
          unfold listed. by rewrite flat_map_app, app_assoc. }
        split; [intros Hout; unfold e; rewrite failed_fetches_cons_returns; by apply Hfuel|].
        done.
      * exists [e]. cbn [fst snd record trace props auditSheet triggers].
        split; [reflexivity|]. split; [by repeat constructor|].
        split; [intros H; unfold failed_fetches in H; simpl in H; lia|].
        split; [right; by rewrite Hacc|]. done.
    + exists [EvFilesList token 100 (Throws err)].
      cbn [fst snd record trace props auditSheet triggers].
      split; [reflexivity|]. split; [by repeat constructor|].
      split; [intros _; by exists [], token, 100, err|].
      split; [right; unfold listed; simpl; by rewrite app_nil_r|]. done.
Qed.

(** X8.  [getAllDriveFiles] never throws: when the loop ends, it returns
    exactly the files of the pages Drive handed back, in order.  Every call
    it makes is a page fetch of size 100; a fetch that throws is the last
    call and the only one that threw, and the files gathered before it are
    returned.  It touches no property, no sheet row and no trigger. *)
Theorem getAllDriveFiles_keeps_gathered (env : Env) (fuel : nat) (w : World) :
  let w' := snd (getAllDriveFiles env fuel w) in
  (fst (getAllDriveFiles env fuel w) = OutOfFuel \/
   fst (getAllDriveFiles env fuel w) = Normal (listed (added w w'))) /\
  Forall is_fetch (added w w') /\
  failure_is_last (added w w') /\
  (0 < failed_fetches (added w w') -> fst (getAllDriveFiles env fuel w) <> OutOfFuel) /\
  props w' = props w /\ auditSheet w' = auditSheet w /\ triggers w' = triggers w.
Proof.
  cbv zeta. unfold getAllDriveFiles.
  destruct (getAllDriveFiles_loop_run env fuel [] None w)
    as (evs & Htrace & Hall & Hlast & Hres & Hfuel & Hprops & Hsheet & Htrig).
  rewrite (added_app _ _ _ Htrace).
  split; [exact Hres|]. split; [exact Hall|]. split; [exact Hlast|].
  split; [intros Hpos Hout; apply Hfuel in Hout; lia|]. done.
Qed.

(** X9.  The loop of [getAllDriveFiles] has no bound of its own: as long
    as Drive hands back pages with a next-page token, it goes on, whatever
    the number of turns allowed. *)
Theorem getAllDriveFiles_needs_last_page (env : Env) :
  (forall h token, exists r,
      Files_list env h token 100 = Returns r /\ truthy (nextPageToken r) = true) ->
  forall fuel w, fst (getAllDriveFiles env fuel w) = OutOfFuel /\
                 pages_fetched (added w (snd (getAllDriveFiles env fuel w))) = Z.of_nat fuel.
Proof.
  intros Hdrive fuel w. unfold getAllDriveFiles.
  assert (H : forall acc token w0,
             exists evs,
               fst (getAllDriveFiles_loop env fuel acc token w0) = OutOfFuel /\
               trace (snd (getAllDriveFiles_loop env fuel acc token w0)) = trace w0 ++ evs /\
               pages_fetched evs = Z.of_nat fuel).
  { induction fuel as [|fuel IH]; intros acc token w0.
    - exists []. cbn. by rewrite app_nil_r.
    - cbn [getAllDriveFiles_loop]. unfold Drive_Files_list.
      destruct (Hdrive (trace w0) token) as (r & Hans & Hnext). rewrite Hans, Hnext.
      set (e := EvFilesList token 100 (Returns r)).
      match goal with
      | |- context [getAllDriveFiles_loop env fuel ?a ?t ?w1] =>
          destruct (IH a t w1) as (evs & Hres & Htrace & Hcount)
      end.
      exists (e :: evs). split; [exact Hres|].
      split; [rewrite Htrace; cbn [record trace]; by rewrite <- app_assoc|].
      change (e :: evs) with ([e] ++ evs).
      rewrite pages_fetched_app, Hcount. unfold pages_fetched. simpl. lia. }
  destruct (H [] None w) as (evs & Hres & Htrace & Hcount).
  by rewrite (added_app _ _ _ Htrace).
Qed.

Lemma getAllDriveFiles_needs_last_page_witness :
  fst (getAllDriveFiles endless_env 1000 fresh_world) = OutOfFuel /\
  pages_fetched (added fresh_world (snd (getAllDriveFiles endless_env 1000 fresh_world)))
  = Z.of_nat 1000.
Proof.
  exact (getAllDriveFiles_needs_last_page endless_env
           (fun _ _ => ex_intro _ (mkFilesResponse (Some [plain_file 1]) (Some "more"))
                                (conj eq_refl eq_refl))
           1000%nat fresh_world).
Defined.

(** ** What an invocation leaves alone *)

Section Frame.

Variable R : World -> World -> Prop.
Hypothesis R_refl : forall w, R w w.
Hypothesis R_trans : forall w1 w2 w3, R w1 w2 -> R w2 w3 -> R w1 w3.

Lemma keeps_ret {A} (a : A) : keeps R (ret a).
Proof. intros w. apply R_refl. Qed.

Lemma keeps_return {A} : keeps R (@return_ A).
Proof. intros w. apply R_refl. Qed.

Lemma keeps_throw {A} e : keeps R (@throw A e).
Proof. intros w. apply R_refl. Qed.

Lemma keeps_bind {A B} (m : M A) (k : A -> M B) :
  keeps R m -> (forall a, keeps R (k a)) -> keeps R (bind m k).
Proof.
  intros Hm Hk w. unfold bind. specialize (Hm w).
  destruct (m w) as [[a| |e|] w1]; try exact Hm.
  eapply R_trans; [exact Hm|apply Hk].
Qed.

Lemma keeps_try_catch {A} (m : M A) (handler : string -> M A) :
  keeps R m -> (forall e, keeps R (handler e)) -> keeps R (try_catch m handler).
Proof.
  intros Hm Hh w. unfold try_catch. specialize (Hm w).
  destruct (m w) as [[a| |e|] w1]; try exact Hm.
  eapply R_trans; [exact Hm|apply Hh].
Qed.

Lemma keeps_call (m : M unit) : keeps R m -> keeps R (call m).
Proof.
  intros Hm w. unfold call. specialize (Hm w).
  by destruct (m w) as [[a| |e|] w1].
Qed.

Lemma keeps_forEach {A S} (l : list A) (f : A -> S -> M S) (s : S) :
  (forall x s', keeps R (f x s')) -> keeps R (forEach l f s).
Proof.
  intros Hf. revert s. induction l as [|x l IH]; intros s; cbn [forEach].
  - apply keeps_ret.
  - apply keeps_bind; [apply Hf|apply IH].
Qed.

Variable env : Env.

Hypothesis K_now : forall site, keeps R (now env site).
Hypothesis K_setProperty : forall st, keeps R (setProperty "AUDIT_STATE" st).
Hypothesis K_deleteState : keeps R (deleteProperty "AUDIT_STATE").
Hypothesis K_deleteToken : keeps R (deleteProperty "AUDIT_PAGE_TOKEN").
Hypothesis K_Files_list : forall token, keeps R (Drive_Files_list env token 100).
Hypothesis K_Permissions_list : forall fileId, keeps R (Drive_Permissions_list env fileId).
Hypothesis K_setValues : forall firstRow rows, keeps R (setValues firstRow rows).
Hypothesis K_status :
  forall status message processed total,
    total = 0 \/ processed = total ->
    keeps R (updateAuditStatus status message processed total).
Hypothesis K_deleteTriggers : keeps R deleteContinuationTriggers.
Hypothesis K_newTrigger : keeps R (newTrigger "processDriveAuditBatch" (After 60000)).
Hypothesis K_createSummary :
  forall totalFiles totalPermissions, keeps R (createSummary totalFiles totalPermissions).
Hypothesis K_prepare : keeps R prepare_audit_sheet.

Lemma keeps_getProperty key : keeps R (getProperty key).
Proof. intros w. apply R_refl. Qed.

Lemma keeps_getLastRow : keeps R getLastRow.
Proof. intros w. unfold getLastRow. destruct (auditSheet w); apply R_refl. Qed.

Ltac keeps_step :=
  first
    [ assumption
    | apply keeps_ret | apply keeps_return | apply keeps_throw
    | apply keeps_getProperty | apply keeps_getLastRow
    | apply K_status; (by left) || (by right)
    | exact K_newTrigger
    | apply keeps_call
    | apply keeps_bind; [|intros ?]
    | apply keeps_try_catch; [|intros ?]
    | match goal with
      | |- keeps _ (if ?b then _ else _) => destruct b
      | |- keeps _ (match ?x with _ => _ end) => destruct x
      end ].

Lemma keeps_scheduleAuditContinuation : keeps R scheduleAuditContinuation.
Proof. unfold scheduleAuditContinuation. repeat keeps_step. Qed.

Lemma keeps_getDriveFilesBatch token : keeps R (getDriveFilesBatch env token 100).
Proof.
  unfold getDriveFilesBatch. change (if 100 =? 0 then 100 else 100) with 100.
  repeat keeps_step. apply K_Files_list.
Qed.

Lemma keeps_getFilePermissions fileId : keeps R (getFilePermissions env fileId).
Proof. unfold getFilePermissions. repeat keeps_step. apply K_Permissions_list. Qed.

Lemma keeps_process_file file acc : keeps R (process_file env file acc).
Proof.
  unfold process_file. destruct acc as [[st n] auditData].
  apply keeps_bind; [apply keeps_getFilePermissions|intros ?; apply keeps_ret].
Qed.

Lemma keeps_loop_body t0 v : keeps R (loop_body env t0 v).
Proof.
  unfold loop_body. apply keeps_bind; [apply K_now|intros t].
  destruct (MAX_EXECUTION_TIME <? t - t0).
  { apply keeps_bind; [apply K_setProperty|intros _].
    apply keeps_bind; [apply keeps_call, keeps_scheduleAuditContinuation|intros _].
    apply keeps_return. }
  apply keeps_bind; [apply keeps_getDriveFilesBatch|intros filesBatch].
  destruct (no_files filesBatch); [apply keeps_ret|].
  apply keeps_bind; [apply keeps_forEach; intros; apply keeps_process_file|].
  intros [[st n] auditData].
  apply keeps_bind.
  { destruct (0 <? length auditData)%nat; [|apply keeps_ret].
    apply keeps_bind; [apply keeps_getLastRow|intros lastRow].
    apply keeps_bind; [apply K_setValues|intros _; apply keeps_ret]. }
  intros st'. apply keeps_bind.
  { destruct (Z.rem _ 50 =? 0); [|apply keeps_ret]. apply K_status. by left. }
  intros _. destruct (if negb _ then _ else _) as [st2 continue].
  apply keeps_bind; [apply K_setProperty|intros _; apply keeps_ret].
Qed.

Lemma keeps_while_loop fuel t0 v : keeps R (while_loop env fuel t0 v).
Proof.
  revert v. induction fuel as [|fuel IH]; intros v; cbn [while_loop];
    destruct (continueProcessing v && (filesInThisBatch v <? BATCH_SIZE));
    try apply keeps_ret.
  - intros w. apply R_refl.
  - apply keeps_bind; [apply keeps_loop_body|]. intros [[] v']; [apply IH|apply keeps_ret].
Qed.

Lemma keeps_processing_phase t0 st : keeps R (processing_phase env t0 st).
Proof.
  unfold processing_phase. destruct (String.eqb (phase st) "PROCESSING"); [|apply keeps_ret].
  apply keeps_bind; [apply K_status; by left|intros _].
  apply keeps_bind; [apply keeps_while_loop|intros v].
  destruct (String.eqb _ "PROCESSING"); [|apply keeps_ret].
  apply keeps_bind; [apply K_setProperty|intros _].
  apply keeps_bind; [apply keeps_call, keeps_scheduleAuditContinuation|intros _].
  apply keeps_return.
Qed.

Lemma keeps_finalizing_phase st : keeps R (finalizing_phase env st).
Proof.
  unfold finalizing_phase. destruct (String.eqb (phase st) "FINALIZING"); [|apply keeps_ret].
  apply keeps_bind; [apply K_status; by right|intros _].
  apply keeps_bind; [apply keeps_getLastRow|intros lastRow].
  apply keeps_bind; [apply K_createSummary|intros _].
  apply keeps_bind; [apply K_now|intros endTime].
  apply keeps_bind; [apply K_status; by right|intros _].
  apply keeps_bind; [apply K_deleteState|intros _].
  apply keeps_bind; [apply K_deleteToken|intros _].
  apply keeps_call, K_deleteTriggers.
Qed.

Lemma keeps_catch_block error : keeps R (catch_block error).
Proof.
  unfold catch_block.
  apply keeps_bind; [apply K_status; by left|intros _].
  apply keeps_bind; [apply K_deleteState|intros _].
  apply keeps_bind; [apply K_deleteToken|intros _].
  apply keeps_call, K_deleteTriggers.
Qed.

Lemma keeps_phases t0 st : keeps R (phases env t0 st).
Proof.
  unfold phases. apply keeps_bind; [apply keeps_processing_phase|intros st'].
  apply keeps_finalizing_phase.
Qed.

Lemma keeps_prologue : keeps R (prologue env).
Proof.
  unfold prologue. apply keeps_bind.
  - unfold load_state. apply keeps_bind; [apply keeps_getProperty|intros v].
    destruct v as [v|].
    + destruct (is_falsy (Some v)).
      * apply keeps_bind; [apply K_now|intros t; apply keeps_ret].
      * destruct v; [apply keeps_ret|apply keeps_throw].
    + apply keeps_bind; [apply K_now|intros t; apply keeps_ret].
  - intros st. unfold setup_phase. destruct (String.eqb (phase st) "SETUP"); [|apply keeps_ret].
    apply keeps_bind; [apply K_prepare|intros _].
    apply keeps_bind; [apply K_setProperty|intros _; apply keeps_ret].
Qed.

(** A relation that every call of the batch processor keeps is kept by an
    invocation as a whole. *)
Lemma keeps_processDriveAuditBatch : keeps R (processDriveAuditBatch env).
Proof.
  intros w. rewrite processDriveAuditBatch_unfold. cbv zeta.
  set (w0 := record _ w).
  assert (H0 : R w w0) by apply (K_now AtInvocationStart w).
  rewrite try_block_unfold.
  pose proof (keeps_prologue w0) as H1.
  destruct (prologue env w0) as [[st| |e|] w1]; cbn [snd] in H1 |- *.
  - pose proof (keeps_phases (clock env (trace w)) st w1) as H2.
    destruct (phases env _ st w1) as [[[]| |e|] w2]; cbn [snd] in H2 |- *;
      try (eapply R_trans; [exact H0|]; eapply R_trans; [exact H1|exact H2]).
    eapply R_trans; [exact H0|]. eapply R_trans; [exact H1|].
    eapply R_trans; [exact H2|apply keeps_catch_block].
  - eapply R_trans; [exact H0|exact H1].
  - eapply R_trans; [exact H0|]. eapply R_trans; [exact H1|apply keeps_catch_block].
  - eapply R_trans; [exact H0|exact H1].
Qed.

(** The same for an invocation that resumes a stored job: the sheet is not
    set up again. *)
Lemma keeps_resumed w st :
  props w !! "AUDIT_STATE" = Some (PJson st) -> phase st <> "SETUP" ->
  R w (snd (processDriveAuditBatch env w)).
Proof.
  intros Hprops Hphase. rewrite processDriveAuditBatch_unfold. cbv zeta.
  set (w0 := record _ w).
  assert (H0 : R w w0) by apply (K_now AtInvocationStart w).
  rewrite try_block_unfold, (prologue_stored env w0 st Hprops Hphase).
  pose proof (keeps_phases (clock env (trace w)) st w0) as H2.
  destruct (phases env _ st w0) as [[[]| |e|] w2]; cbn [snd] in H2 |- *;
    try (eapply R_trans; [exact H0|exact H2]).
  eapply R_trans; [exact H0|]. eapply R_trans; [exact H2|apply keeps_catch_block].
Qed.

End Frame.

Lemma same_elsewhere_refl w : same_elsewhere w w.
Proof. by split. Qed.

Lemma same_elsewhere_trans w1 w2 w3 :
  same_elsewhere w1 w2 -> same_elsewhere w2 w3 -> same_elsewhere w1 w3.
Proof.
  intros [Ht1 Hp1] [Ht2 Hp2]. split; [by rewrite Ht2|].
  intros key H1 H2. by rewrite Hp2, Hp1.
Qed.

Lemma same_elsewhere_eq w w' :
  triggers w' = triggers w -> props w' = props w -> same_elsewhere w w'.
Proof. intros Ht Hp. unfold same_elsewhere, other_triggers. by rewrite Ht, Hp. Qed.

Lemma same_elsewhere_started env w : same_elsewhere w (started_world env w).
Proof.
  split; [reflexivity|]. intros key H1 H2. unfold started_world. cbn [props].
  by rewrite !lookup_delete_ne.
Qed.

Lemma same_elsewhere_processDriveAuditBatch env w :
  same_elsewhere w (snd (processDriveAuditBatch env w)).
Proof.
  apply (keeps_processDriveAuditBatch same_elsewhere same_elsewhere_refl same_elsewhere_trans).
  - intros site w0. by apply same_elsewhere_eq.
  - intros st w0. split; [reflexivity|]. intros key H1 H2. cbn. by rewrite lookup_insert_ne.
  - intros w0. split; [reflexivity|]. intros key H1 H2. cbn. by rewrite lookup_delete_ne.
  - intros w0. split; [reflexivity|]. intros key H1 H2. cbn. by rewrite lookup_delete_ne.
  - intros token w0. unfold Drive_Files_list.
    destruct (Files_list env (trace w0) token 100); by apply same_elsewhere_eq.
  - intros fileId w0. unfold Drive_Permissions_list.
    destruct (Permissions_list env (trace w0) fileId); by apply same_elsewhere_eq.
  - intros firstRow rows w0. unfold setValues.
    destruct (auditSheet w0); by apply same_elsewhere_eq.
  - intros status message processed total _ w0. by apply same_elsewhere_eq.
  - intros w0. split; [|done]. unfold other_triggers. cbn. apply other_triggers_deleted.
  - intros w0. split; [|done]. unfold other_triggers. cbn.
    rewrite List.filter_app. cbn. by rewrite app_nil_r.
  - intros totalFiles totalPermissions w0. by apply same_elsewhere_eq.
  - intros w0. by apply same_elsewhere_eq.
Qed.

(** X10.  An invocation of the batch processor, and a start of the audit,
    touch only what is theirs: the triggers of other handlers (the weekly
    schedule among them) are the same afterwards, in the same order, and so
    is every script property other than ['AUDIT_STATE'] and
    ['AUDIT_PAGE_TOKEN'], however the invocation ends. *)
Theorem invocation_touches_only_its_own (env : Env) (w : World) :
  (let w' := exec (processDriveAuditBatch env) w in
   other_triggers w' = other_triggers w /\
   scheduled_triggers w' = scheduled_triggers w /\
   forall key, key <> "AUDIT_STATE" -> key <> "AUDIT_PAGE_TOKEN" ->
               props w' !! key = props w !! key) /\
  (let w' := exec (runDriveAudit env) w in
   other_triggers w' = other_triggers w /\
   scheduled_triggers w' = scheduled_triggers w /\
   forall key, key <> "AUDIT_STATE" -> key <> "AUDIT_PAGE_TOKEN" ->
               props w' !! key = props w !! key).
Proof.
  assert (Hsched : forall w1 w2, other_triggers w2 = other_triggers w1 ->
                                 scheduled_triggers w2 = scheduled_triggers w1).
  { intros w1 w2 Hother. unfold scheduled_triggers.
    rewrite <- (filter_scheduled_other (triggers w2)), <- (filter_scheduled_other (triggers w1)).
    unfold other_triggers in Hother. by rewrite Hother. }
  cbv zeta. unfold exec. split.
  - destruct (same_elsewhere_processDriveAuditBatch env w) as [Ht Hp]. auto.
  - rewrite runDriveAudit_run.
    destruct (same_elsewhere_trans _ _ _ (same_elsewhere_started env w)
                (same_elsewhere_processDriveAuditBatch env (started_world env w))) as [Ht Hp].
    auto.
Qed.

Lemma processor_calls_refl w : processor_calls w w.
Proof. exists []. by rewrite app_nil_r. Qed.

Lemma processor_calls_trans w1 w2 w3 :
  processor_calls w1 w2 -> processor_calls w2 w3 -> processor_calls w1 w3.
Proof.
  intros (evs1 & Ht1 & H1) (evs2 & Ht2 & H2). exists (evs1 ++ evs2).
  split; [by rewrite Ht2, Ht1, app_assoc|by apply Forall_app].
Qed.

Lemma processor_calls_step e w w' :
  trace w' = trace w ++ [e] -> processor_event e -> processor_calls w w'.
Proof. intros Htrace He. exists [e]. split; [exact Htrace|by constructor]. Qed.

Lemma processor_calls_processDriveAuditBatch env w :
  processor_calls w (snd (processDriveAuditBatch env w)).
Proof.
  apply (keeps_processDriveAuditBatch processor_calls processor_calls_refl processor_calls_trans).
  - intros site w0. by eapply processor_calls_step.
  - intros st w0. by eapply processor_calls_step.
  - intros w0. eapply processor_calls_step; [reflexivity|by left].
  - intros w0. eapply processor_calls_step; [reflexivity|by right].
  - intros token w0. unfold Drive_Files_list.
    destruct (Files_list env (trace w0) token 100); by eapply processor_calls_step.
  - intros fileId w0. unfold Drive_Permissions_list.
    destruct (Permissions_list env (trace w0) fileId); by eapply processor_calls_step.
  - intros firstRow rows w0. unfold setValues.
    destruct (auditSheet w0); [|apply processor_calls_refl].
    by eapply processor_calls_step.
  - intros status message processed total Htotal w0.
    eapply processor_calls_step; [reflexivity|exact Htotal].
  - intros w0. by eapply processor_calls_step.
  - intros w0. by eapply processor_calls_step.
  - intros totalFiles totalPermissions w0. by eapply processor_calls_step.
  - intros w0. by eapply processor_calls_step.
Qed.

(** X11.  Whatever Drive, the clock and the stored state are, the calls of
    one invocation of the batch processor stay within a fixed repertoire:
    it shows no dialog; every page it asks for has size 100; the only
    property it writes is ['AUDIT_STATE']; the only trigger it registers
    is the one-minute continuation of itself and the only triggers it
    deletes are those of its own handler; and a status it reports with a
    positive total has the processed count equal to the total, so the
    progress rows of the status sheet are written at 100 percent only. *)
Theorem invocation_repertoire (env : Env) (w : World) :
  let evs := added w (exec (processDriveAuditBatch env) w) in
  Forall processor_event evs /\
  (forall title answer, ~ In (EvAlert title answer) evs) /\
  (forall token pageSize result, In (EvFilesList token pageSize result) evs -> pageSize = 100) /\
  (forall key st, In (EvSetProperty key st) evs -> key = "AUDIT_STATE") /\
  (forall trigger, In (EvNewTrigger trigger) evs -> trigger = continuation_trigger) /\
  (forall handler, In (EvDeleteTriggers handler) evs -> handler = "processDriveAuditBatch") /\
  (forall status message processed total,
     In (EvStatus status message processed total) evs -> 0 < total -> processed = total).
Proof.
  cbv zeta. unfold exec.
  destruct (processor_calls_processDriveAuditBatch env w) as (evs & Htrace & Hall).
  rewrite (added_app _ _ _ Htrace). split; [exact Hall|].
  rewrite Forall_forall in Hall.
  repeat apply conj; unfold not; intros;
    match goal with
    | H : In _ evs |- _ => apply list_elem_of_In, Hall in H; cbn in H
    end; try done.
  match goal with H : _ \/ _ |- _ => destruct H; [lia|done] end.
Qed.

Lemma sheet_extended_refl w : sheet_extended w w.
Proof.
  unfold sheet_extended. destruct (auditSheet w) as [old|]; [|done].
  exists []. by rewrite app_nil_r.
Qed.

Lemma sheet_extended_trans w1 w2 w3 :
  sheet_extended w1 w2 -> sheet_extended w2 w3 -> sheet_extended w1 w3.
Proof.
  unfold sheet_extended. destruct (auditSheet w1) as [old|].
  - intros [new1 ->] [new2 ->]. exists (new1 ++ new2). by rewrite app_assoc.
  - by intros ->.
Qed.

Lemma sheet_extended_eq w w' : auditSheet w' = auditSheet w -> sheet_extended w w'.
Proof. intros H. unfold sheet_extended. rewrite H. apply sheet_extended_refl. Qed.

(** X12.  An invocation that resumes a stored job (any phase but SETUP)
    only appends to the audit sheet: the rows that were there are still
    there, unchanged and in place, with the new rows after them; and a
    missing sheet is not created. *)
Theorem resumed_invocation_appends (env : Env) (w : World) (st : AuditState) :
  props w !! "AUDIT_STATE" = Some (PJson st) -> phase st <> "SETUP" ->
  (forall old, auditSheet w = Some old ->
     exists new, auditSheet (exec (processDriveAuditBatch env) w) = Some (old ++ new)) /\
  (auditSheet w = None -> auditSheet (exec (processDriveAuditBatch env) w) = None).
Proof.
  intros Hprops Hphase.
  assert (H : sheet_extended w (exec (processDriveAuditBatch env) w)).
  { apply (keeps_resumed sheet_extended sheet_extended_refl sheet_extended_trans env)
      with (st := st); try done.
    - intros site w0. by apply sheet_extended_eq.
    - intros st0 w0. by apply sheet_extended_eq.
    - intros w0. by apply sheet_extended_eq.
    - intros w0. by apply sheet_extended_eq.
    - intros token w0. unfold Drive_Files_list.
      destruct (Files_list env (trace w0) token 100); by apply sheet_extended_eq.
    - intros fileId w0. unfold Drive_Permissions_list.
      destruct (Permissions_list env (trace w0) fileId); by apply sheet_extended_eq.
    - intros firstRow rows w0. unfold setValues, sheet_extended.
      destruct (auditSheet w0) as [old|] eqn:Hold; cbn; rewrite ?Hold; [by exists rows|done].
    - intros status message processed total _ w0. by apply sheet_extended_eq.
    - intros w0. by apply sheet_extended_eq.
    - intros w0. by apply sheet_extended_eq.
    - intros totalFiles totalPermissions w0. by apply sheet_extended_eq. }
  unfold sheet_extended in H. split.
  - intros old Hold. by rewrite Hold in H.
  - intros Hnone. by rewrite Hnone in H.
Qed.

Lemma resumed_invocation_appends_witness :
  exists new,
    auditSheet (exec (processDriveAuditBatch two_page_env) (resumed_world processing_state))
    = Some ([headers] ++ new).
Proof.
  assert (Hphase : phase processing_state <> "SETUP") by discriminate.
  exact (proj1 (resumed_invocation_appends two_page_env (resumed_world processing_state)
                  processing_state eq_refl Hphase) [headers] eq_refl).
Defined.

(** ** The counters and the audit sheet *)

Lemma turns_rows env t0 v w v' w' old :
  turns env t0 v w v' w' -> auditSheet w = Some old ->
  exists new,
    auditSheet w' = Some (old ++ new) /\
    auditDataCount (auditState v') = auditDataCount (auditState v) + Z.of_nat (length new) /\
    filesProcessed (auditState v') - filesProcessed (auditState v) <= Z.of_nat (length new).
Proof.
  intros Hturns. revert old.
  induction Hturns as [v w|v w v1 w1 v' w' Hturn _ IH]; intros old Hold.
  - exists []. rewrite app_nil_r. simpl. split; [done|]. lia.
  - destruct Hturn as (Hg & Ht & r & fs & old0 & Ho & Hf & Hne & Hsheet & Hv1 & Hw1).
    rewrite Hold in Hsheet. injection Hsheet as <-.
    set (outs := turn_outcomes env v w fs) in *.
    assert (Hlen : length outs = length fs) by apply fan_out_length.
    destruct (IH (old ++ fan_out_rows fs outs)) as (new & Hnew & Hcount & Hfiles);
      [by subst w1|].
    exists (fan_out_rows fs outs ++ new).
    split; [by rewrite Hnew, app_assoc|].
    pose proof (fan_out_rows_length_ge fs outs Hlen) as Hge.
    subst v1. cbn [next_vars auditState] in Hcount, Hfiles.
    rewrite next_state_auditDataCount in Hcount.
    rewrite next_state_filesProcessed in Hfiles.
    rewrite length_app. lia.
Qed.

Lemma finalizing_phase_summary env st w :
  phase st = "FINALIZING" -> is_Some (auditSheet w) ->
  summarySheet (snd (finalizing_phase env st w)) = Some (filesProcessed st, auditDataCount st).
Proof.
  intros Hphase [rows Hrows]. unfold finalizing_phase. rewrite Hphase.
  cbn [String.eqb Ascii.eqb Bool.eqb].
  unfold bind, updateAuditStatus, getLastRow, now, deleteProperty, call,
    deleteContinuationTriggers. simpl. rewrite Hrows. reflexivity.
Qed.

Lemma finalizing_completed env st w rows :
  phase st = "FINALIZING" ->
  auditSheet w = Some (headers :: rows) ->
  auditDataCount st = Z.of_nat (length rows) ->
  filesProcessed st <= auditDataCount st ->
  fst (finalizing_phase env st w) = Normal tt /\ completed (snd (finalizing_phase env st w)).
Proof.
  intros Hphase Hsheet Hcount Hfiles.
  assert (Hsome : is_Some (auditSheet w)) by (by rewrite Hsheet).
  destruct (finalizing_phase_done env st w Hphase Hsome) as (t & Hc & _ & Hclean & Hsh & _).
  split; [exact Hc|].
  exists (filesProcessed st), rows.
  rewrite Hsh, Hsheet, (finalizing_phase_summary env st w Hphase Hsome), Hcount.
  split; [done|]. split; [done|]. split; [lia|exact Hclean].
Qed.

(** The rest of the [try] block, from a state whose counters agree with
    the sheet: a checkpoint that agrees again, or a finished job. *)
Lemma phases_consistent env t0 st w rows :
  phase st = "PROCESSING" \/ phase st = "FINALIZING" ->
  auditSheet w = Some (headers :: rows) ->
  auditDataCount st = Z.of_nat (length rows) ->
  filesProcessed st <= auditDataCount st ->
  (fst (phases env t0 st w) = Return /\
   consistent (snd (phases env t0 st w)) /\
   continuation_triggers (snd (phases env t0 st w)) = [continuation_trigger]) \/
  (fst (phases env t0 st w) = Normal tt /\ completed (snd (phases env t0 st w))).
Proof.
  intros [Hphase|Hphase] Hsheet Hcount Hfiles; rewrite phases_unfold.
  - destruct (processing_phase_run env t0 st w Hphase) as (v & w1 & Hturns & Hagree & Hend).
    destruct (turns_rows _ _ _ _ _ _ (headers :: rows) Hturns) as (new & Hnew & Hc & Hf);
      [done|].
    cbn [auditState] in Hc, Hf.
    assert (Hc' : auditDataCount (auditState v) = Z.of_nat (length (rows ++ new)))
      by (rewrite length_app; lia).
    assert (Hf' : filesProcessed (auditState v) <= auditDataCount (auditState v)) by lia.
    destruct (processing_phase env t0 st w) as [c w2]. cbn [fst snd] in Hend.
    inversion Hend as [Hg Hp|Hg Hp|Hg Ht|Hg Ht Hno|r fs Hg Ht Ho Hfs Hne Hnone]; subst.
    + left. split; [done|]. split.
      * exists (auditState v), (rows ++ new). cbn. rewrite lookup_insert_eq, Hnew.
        repeat apply conj; try done. by left.
      * by apply (continuation_triggers_after_checkpoint w1).
    + right. by apply (finalizing_completed env _ _ (rows ++ new)).
    + left. destruct (loop_guard_true_inv v Hg Hagree) as [Hp _]. split; [done|]. split.
      * exists (auditState v), (rows ++ new). cbn. rewrite lookup_insert_eq, Hnew.
        repeat apply conj; try done. by left.
      * by apply (continuation_triggers_after_checkpoint w1).
    + right. by apply (finalizing_completed env _ _ (rows ++ new)).
    + by rewrite Hnew in Hnone.
  - rewrite processing_phase_skip by (by rewrite Hphase).
    right. by apply (finalizing_completed env _ _ rows).
Qed.

(** The start of the [try] block when no state is stored: the state is
    created, the sheet is reset to its header row, the state is saved. *)
Lemma prologue_fresh env w :
  has_state w = false ->
  prologue env w =
  let t := clock env (trace w) in
  let st := mkState "PROCESSING" 0 0 0 None t in
  (Normal st,
   mkWorld (<["AUDIT_STATE" := PJson st]> (props w)) (Some [headers])
           (statusSheet w) (summarySheet w) (triggers w)
           (trace w ++ [EvClock AtStateInit t; EvSheetSetup; EvSetProperty "AUDIT_STATE" st])).
Proof.
  unfold has_state. intros Hfalsy%negb_false_iff.
  unfold prologue, load_state, getProperty, bind. cbv beta.
  destruct (props w !! "AUDIT_STATE") as [v|] eqn:Hprops.
  - rewrite Hfalsy. unfold now, ret, setup_phase, bind, prepare_audit_sheet, setProperty, ret.
    cbn. f_equal. apply world_eq; cbn; try done. by rewrite <- !app_assoc.
  - unfold now, ret, setup_phase, bind, prepare_audit_sheet, setProperty, ret.
    cbn. f_equal. apply world_eq; cbn; try done. by rewrite <- !app_assoc.
Qed.

Lemma invocation_consistent env w :
  has_state w = false \/ consistent w ->
  fst (processDriveAuditBatch env w) = Normal tt /\
  ((consistent (snd (processDriveAuditBatch env w)) /\
    continuation_triggers (snd (processDriveAuditBatch env w)) = [continuation_trigger]) \/
   completed (snd (processDriveAuditBatch env w))).
Proof.
  intros Hw. rewrite processDriveAuditBatch_unfold. cbv zeta.
  set (t0 := clock env (trace w)). set (w0 := record (EvClock AtInvocationStart t0) w).
  rewrite try_block_unfold.
  assert (Hphases : exists st w1 rows,
             prologue env w0 = (Normal st, w1) /\
             (phase st = "PROCESSING" \/ phase st = "FINALIZING") /\
             auditSheet w1 = Some (headers :: rows) /\
             auditDataCount st = Z.of_nat (length rows) /\
             filesProcessed st <= auditDataCount st).
  { destruct Hw as [Hfresh|(st & rows & Hprops & Hphase & Hsheet & Hcount & Hfiles)].
    - rewrite (prologue_fresh env w0) by exact Hfresh. cbv zeta.
      eexists _, _, []. split; [reflexivity|]. cbn. repeat apply conj; try done. by left.
    - exists st, w0, rows. split; [|done].
      apply prologue_stored; [exact Hprops|]. by destruct Hphase as [-> | ->]. }
  destruct Hphases as (st & w1 & rows & -> & Hphase & Hsheet & Hcount & Hfiles).
  destruct (phases_consistent env t0 st w1 rows Hphase Hsheet Hcount Hfiles)
    as [(Hc & Hcons & Htrig)|(Hc & Hdone)];
    destruct (phases env t0 st w1) as [c w2]; cbn [fst snd] in *; subst c.
  - split; [done|]. by left.
  - split; [done|]. by right.
Qed.

(** X13.  From the start of an audit on, after any number of further runs
    of the batch processor, the counters agree with the audit sheet.
    Either a job is under way: its state is stored with one continuation
    pending, the sheet is the header row followed by exactly
    [auditDataCount] rows, and no more items than rows were counted.  Or
    the job is finished: nothing is stored, no continuation is pending,
    and the 'Total Permission Entries' of the summary is the number of
    rows below the header, which is at least the 'Total Files Audited'.
    Rows that were on the sheet before the start play no part. *)
Theorem job_counters_agree (env : Env) (w : World) (n : nat) :
  let w' := Nat.iter n (exec (processDriveAuditBatch env)) (exec (runDriveAudit env) w) in
  (consistent w' /\ continuation_triggers w' = [continuation_trigger]) \/ completed w'.
Proof.
  cbv zeta. induction n as [|n IH].
  - change (Nat.iter 0 (exec (processDriveAuditBatch env)) (exec (runDriveAudit env) w))
      with (snd (runDriveAudit env w)).
    rewrite runDriveAudit_run.
    apply invocation_consistent. left.
    unfold has_state, started_world. cbn [props].
    by rewrite lookup_delete_ne, lookup_delete_eq.
  - set (w1 := Nat.iter n (exec (processDriveAuditBatch env)) (exec (runDriveAudit env) w)) in *.
    change (Nat.iter (S n) (exec (processDriveAuditBatch env)) (exec (runDriveAudit env) w))
      with (snd (processDriveAuditBatch env w1)).
    apply invocation_consistent.
    destruct IH as [[Hcons _]|(totalFiles & rows & _ & _ & _ & Hnone & _)]; [by right|left].
    unfold has_state. by rewrite Hnone.
Qed.

(** ** Stored states the code did not write *)

(** Texts that are surely not JSON, and texts that may be JSON. *)
Example json_rejects_examples :
  json_rejects "oops" = true /\ json_rejects "<html>" = true /\
  json_rejects "{}" = false /\ json_rejects "123" = false /\
  json_rejects "[]" = false /\ json_rejects " null" = false.
Proof. by repeat split. Qed.

(** X14.  When ['AUDIT_STATE'] holds a non-empty text that [JSON.parse]
    rejects, the invocation ends in the error handler at once: ERROR is
    reported, both properties and the continuation triggers are deleted,
    no page is asked for and the sheets keep their rows. *)
Theorem corrupt_state_ends_in_error (env : Env) (w : World) (s : string)
        (rejected : json_rejects s = true) :
  props w !! "AUDIT_STATE" = Some (PText s rejected) -> s <> "" ->
  let w' := exec (processDriveAuditBatch env) w in
  fst (processDriveAuditBatch env w) = Normal tt /\
  (exists e, added w w' = EvClock AtInvocationStart (clock env (trace w)) :: error_events e) /\
  cleaned w' /\ auditSheet w' = auditSheet w /\ summarySheet w' = summarySheet w /\
  other_triggers w' = other_triggers w.
Proof.
  intros Hprops Hs%String.eqb_neq. cbv zeta. unfold exec.
  rewrite processDriveAuditBatch_unfold. cbv zeta.
  set (w0 := record _ w).
  assert (Htry : try_block env (clock env (trace w)) w0
                 = (Throw ("SyntaxError: Unexpected token in JSON: " +:+ s), w0)).
  { rewrite try_block_unfold. unfold prologue, load_state, getProperty, bind. cbv beta.
    change (props w0) with (props w). rewrite Hprops. cbn [is_falsy]. rewrite Hs.
    reflexivity. }
  rewrite Htry.
  destruct (catch_block_spec ("SyntaxError: Unexpected token in JSON: " +:+ s) w0)
    as (_ & Htrace & Hclean & Hsheet & Hother).
  cbn [fst snd]. split; [reflexivity|]. split.
  { eexists. apply added_app. rewrite Htrace. unfold w0. cbn [record trace].
    by rewrite <- app_assoc. }
  split; [exact Hclean|]. split; [exact Hsheet|]. split; [reflexivity|exact Hother].
Qed.

Lemma corrupt_state_ends_in_error_witness :
  fst (processDriveAuditBatch (quiet_env YES) corrupt_world) = Normal tt /\
  cleaned (exec (processDriveAuditBatch (quiet_env YES)) corrupt_world).
Proof.
  assert (Hs : "oops" <> "") by discriminate.
  pose proof (corrupt_state_ends_in_error (quiet_env YES) corrupt_world
                "oops" eq_refl eq_refl Hs) as (Hc & _ & Hclean & _).
  exact (conj Hc Hclean).
Defined.

(** X15.  A stored state whose phase is none of SETUP, PROCESSING and
    FINALIZING makes the invocation do nothing but read the clock: no
    status is reported, the state stays stored, and no continuation is
    registered or deleted. *)
Theorem unknown_phase_does_nothing (env : Env) (w : World) (st : AuditState) :
  props w !! "AUDIT_STATE" = Some (PJson st) ->
  phase st <> "SETUP" -> phase st <> "PROCESSING" -> phase st <> "FINALIZING" ->
  processDriveAuditBatch env w
  = (Normal tt, record (EvClock AtInvocationStart (clock env (trace w))) w).
Proof.
  intros Hprops Hsetup Hprocessing Hfinalizing.
  rewrite processDriveAuditBatch_unfold. cbv zeta.
  rewrite try_block_unfold, (prologue_stored env _ st); [|exact Hprops|exact Hsetup].
  rewrite phases_unfold, processing_phase_skip by exact Hprocessing.
  by rewrite finalizing_phase_skip.
Qed.

Lemma unknown_phase_does_nothing_witness :
  processDriveAuditBatch (quiet_env YES) (resumed_world (mkState "DONE" 0 0 0 None 0))
  = (Normal tt,
     record (EvClock AtInvocationStart 0) (resumed_world (mkState "DONE" 0 0 0 None 0))).
Proof.
  assert (H1 : "DONE" <> "SETUP") by discriminate.
  assert (H2 : "DONE" <> "PROCESSING") by discriminate.
  assert (H3 : "DONE" <> "FINALIZING") by discriminate.
  exact (unknown_phase_does_nothing (quiet_env YES)
           (resumed_world (mkState "DONE" 0 0 0 None 0))
           (mkState "DONE" 0 0 0 None 0) eq_refl H1 H2 H3).
Defined.

(** ** The Google Workspace types *)

Lemma prefix_app p x : String.prefix p (p +:+ x) = true.
Proof.
  induction p as [|c p IH]; [by destruct x|].
  simpl. by destruct (Ascii.ascii_dec c c).
Qed.

Lemma index_prefix p s :
  p <> "" -> String.prefix p s = true -> String.index 0 p s = Some 0%nat.
Proof.
  intros Hp Hpre. destruct s as [|b s]; [by destruct p|].
  cbn [String.index]. by rewrite Hpre.
Qed.

Lemma substring_all s : String.substring 0 (String.length s) s = s.
Proof. induction s as [|c s IH]; [done|]. cbn. by rewrite IH. Qed.

Lemma substring_after p x :
  String.substring (String.length p) (String.length (p +:+ x) - String.length p) (p +:+ x) = x.
Proof.
  induction p as [|c p IH]; simpl.
  - rewrite Nat.sub_0_r. apply substring_all.
  - exact IH.
Qed.

Lemma replace_prefix p x : p <> "" -> replace (p +:+ x) p "" = x.
Proof.
  intros Hp. unfold replace. rewrite (index_prefix p (p +:+ x) Hp (prefix_app p x)).
  cbn [Nat.add]. rewrite substring_after.
  by destruct (p +:+ x).
Qed.

(** X16.  For a MIME type ['application/vnd.google-apps.' + x] with [x]
    other than ['folder'], [getFileType] answers ['Google '] followed by
    [x] with its first hyphen, and only the first, replaced by a space; so
    [x] itself when it has no hyphen.  With ['folder'] the answer is
    'Folder'. *)
Theorem getFileType_google (file : File) (x : string) :
  mimeType file = "application/vnd.google-apps." +:+ x ->
  (x = "folder" -> getFileType file = "Folder") /\
  (x <> "folder" -> getFileType file = "Google " +:+ replace x "-" " ") /\
  (x <> "folder" -> includes x "-" = false -> getFileType file = "Google " +:+ x).
Proof.
  intros Hmime. unfold getFileType. cbv zeta. rewrite Hmime.
  assert (Heqb : String.eqb ("application/vnd.google-apps." +:+ x)
                            "application/vnd.google-apps.folder"
                 = String.eqb x "folder") by reflexivity.
  rewrite Heqb. unfold startsWith. rewrite prefix_app, replace_prefix by discriminate.
  split; [by intros ->|].
  split.
  - intros Hx%String.eqb_neq. by rewrite Hx.
  - intros Hx%String.eqb_neq Hno. rewrite Hx. unfold includes in Hno. unfold replace.
    by destruct (String.index 0 "-" x).
Qed.

Lemma getFileType_google_witness :
  getFileType (mkFile "id4" "kit" "application/vnd.google-apps.drive-sdk-app" None None None None None)
  = "Google drive sdk-app".
Proof.
  assert (Hx : "drive-sdk-app" <> "folder") by discriminate.
  exact (proj1 (proj2 (getFileType_google
                         (mkFile "id4" "kit" "application/vnd.google-apps.drive-sdk-app"
                                 None None None None None)
                         "drive-sdk-app" eq_refl)) Hx).
Defined.

(** ** The stored state from one invocation to the next *)

Lemma next_state_fixed st fs next outs :
  startTime (next_state st fs next outs) = startTime st /\
  totalFilesFound (next_state st fs next outs) = totalFilesFound st.
Proof. unfold next_state. by destruct (truthy next). Qed.

Lemma turns_fields env t0 v w v' w' :
  turns env t0 v w v' w' ->
  startTime (auditState v') = startTime (auditState v) /\
  totalFilesFound (auditState v') = totalFilesFound (auditState v) /\
  filesProcessed (auditState v) <= filesProcessed (auditState v') /\
  auditDataCount (auditState v) <= auditDataCount (auditState v').
Proof.
  induction 1 as [v w|v w v1 w1 v' w' Hturn _ (IH1 & IH2 & IH3 & IH4)]; [by repeat split|].
  destruct Hturn as (_ & _ & r & fs & old & _ & _ & _ & _ & Hv1 & _).
  subst v1. cbn [next_vars auditState] in *.
  destruct (next_state_fixed (auditState v) fs (nextPageToken r) (turn_outcomes env v w fs))
    as [E1 E2].
  rewrite next_state_filesProcessed in IH3. rewrite next_state_auditDataCount in IH4.
  rewrite E1 in IH1. rewrite E2 in IH2.
  repeat split; try done; lia.
Qed.

(** After a finalization, whether it goes through or ends in the error
    handler, nothing is stored. *)
Lemma finalization_clears env st w :
  phase st = "FINALIZING" ->
  props (snd (match finalizing_phase env st w with
              | (Throw e, w1) => (Normal tt, snd (catch_block e w1))
              | (Normal _, w1) => (Normal tt, w1)
              | (Return, w1) => (Normal tt, w1)
              | (OutOfFuel, w1) => (@OutOfFuel unit, w1)
              end)) !! "AUDIT_STATE" = None.
Proof.
  intros Hphase. destruct (auditSheet w) as [rows|] eqn:Hsheet.
  - destruct (finalizing_phase_done env st w Hphase) as (t & Hc & _ & [Hnone _] & _);
      [by rewrite Hsheet|].
    destruct (finalizing_phase env st w) as [c w1]. cbn [fst snd] in *. by subst c.
  - destruct (finalizing_phase_throws env st w Hphase Hsheet) as (Hc & _).
    destruct (finalizing_phase env st w) as [c w1]. cbn [fst snd] in *. subst c.
    by destruct (catch_block_spec (null_error "getLastRow") w1) as (_ & _ & [Hnone _] & _).
Qed.

(** X17.  When an invocation resumes a job in phase PROCESSING and leaves
    a state stored, that state is a later state of the same job: it is in
    phase PROCESSING with one continuation pending, [startTime] is the one
    the job began with (so the duration reported at the end counts from
    the first invocation), [filesProcessed] and [auditDataCount] have not
    gone down, and [totalFilesFound] is what it was: no page changes
    it. *)
Theorem stored_state_only_advances (env : Env) (w : World) (st st' : AuditState) :
  props w !! "AUDIT_STATE" = Some (PJson st) -> phase st = "PROCESSING" ->
  props (exec (processDriveAuditBatch env) w) !! "AUDIT_STATE" = Some (PJson st') ->
  phase st' = "PROCESSING" /\
  startTime st' = startTime st /\
  totalFilesFound st' = totalFilesFound st /\
  filesProcessed st <= filesProcessed st' /\
  auditDataCount st <= auditDataCount st' /\
  continuation_triggers (exec (processDriveAuditBatch env) w) = [continuation_trigger].
Proof.
  intros Hprops Hphase. unfold exec.
  set (t0 := clock env (trace w)). set (w0 := record (EvClock AtInvocationStart t0) w).
  assert (Hrun : processDriveAuditBatch env w =
                 match processing_phase env t0 st w0 with
                 | (Normal st2, w2) =>
                     match finalizing_phase env st2 w2 with
                     | (Throw e, w3) => (Normal tt, snd (catch_block e w3))
                     | (Normal _, w3) => (Normal tt, w3)
                     | (Return, w3) => (Normal tt, w3)
                     | (OutOfFuel, w3) => (OutOfFuel, w3)
                     end
                 | (Return, w2) => (Normal tt, w2)
                 | (Throw e, w2) => (Normal tt, snd (catch_block e w2))
                 | (OutOfFuel, w2) => (OutOfFuel, w2)
                 end).
  { rewrite processDriveAuditBatch_unfold. cbv zeta. fold t0 w0.
    rewrite try_block_unfold, (prologue_stored env w0 st Hprops) by (by rewrite Hphase).
    rewrite phases_unfold. by destruct (processing_phase env t0 st w0) as [[st2| |e|] w2]. }
  rewrite Hrun. clear Hrun.
  destruct (processing_phase_run env t0 st w0 Hphase) as (v & w1 & Hturns & Hagree & Hend).
  destruct (turns_fields _ _ _ _ _ _ Hturns) as (Hstart & Htotal & Hfiles & Hcount).
  cbn [auditState] in Hstart, Htotal, Hfiles, Hcount.
  destruct (processing_phase env t0 st w0) as [c w2]. cbn [fst snd] in Hend.
  inversion Hend as [Hg Hp|Hg Hp|Hg Ht|Hg Ht Hno|r fs Hg Ht Ho Hfs Hne Hnone]; subst.
  - cbn [snd]. intros Hst'. cbn in Hst'. rewrite lookup_insert_eq in Hst'.
    injection Hst' as <-. repeat apply conj; try done.
    by apply (continuation_triggers_after_checkpoint w1).
  - intros Hst'. by rewrite (finalization_clears env _ w2 Hp) in Hst'.
  - cbn [snd]. intros Hst'. cbn in Hst'. rewrite lookup_insert_eq in Hst'.
    injection Hst' as <-. destruct (loop_guard_true_inv v Hg Hagree) as [Hp _].
    repeat apply conj; try done.
    by apply (continuation_triggers_after_checkpoint
                (record (EvClock AtBudgetCheck (turn_time env w1)) w1)).
  - intros Hst'. by rewrite finalization_clears in Hst'.
  - cbn [snd]. intros Hst'.
    by destruct (catch_block_spec (null_error "getLastRow")
                   (record_all
                      ([EvClock AtBudgetCheck (turn_time env w1);
                        EvFilesList (pageToken (auditState v)) 100 (Returns r)]
                         ++ fan_out_events fs (turn_outcomes env v w1 fs)) w1))
      as (_ & _ & [Hnone' _] & _); rewrite Hnone' in Hst'.
Qed.

Lemma stored_state_only_advances_witness :
  props (exec (processDriveAuditBatch late_env) (resumed_world processing_state)) !! "AUDIT_STATE"
  = Some (PJson (mkState "PROCESSING" 0 3 3 (Some "page1") 0)) /\
  continuation_triggers (exec (processDriveAuditBatch late_env) (resumed_world processing_state))
  = [continuation_trigger].
Proof.
  assert (Hst : props (exec (processDriveAuditBatch late_env) (resumed_world processing_state))
                !! "AUDIT_STATE"
                = Some (PJson (mkState "PROCESSING" 0 3 3 (Some "page1") 0)))
    by (vm_compute; reflexivity).
  split; [exact Hst|].
  exact (proj2 (proj2 (proj2 (proj2 (proj2
           (stored_state_only_advances late_env (resumed_world processing_state)
              processing_state (mkState "PROCESSING" 0 3 3 (Some "page1") 0)
              eq_refl eq_refl Hst)))))).
Defined.

(** ** The number of pages of one invocation *)

Lemma turns_pages env t0 v w v' w' :
  turns env t0 v w v' w' ->
  exists evs,
    trace w' = trace w ++ evs /\
    budget_checks evs = pages_fetched evs /\
    pages_fetched evs <= filesInThisBatch v' - filesInThisBatch v /\
    (loop_guard v = false -> evs = []) /\
    (filesInThisBatch v <= BATCH_SIZE -> filesInThisBatch v + pages_fetched evs <= BATCH_SIZE).
Proof.
  induction 1 as [v w|v w v1 w1 v' w' Hturn _ (evs & Htrace & Hchecks & Hle & Hnil & Hcap)].
  - exists []. rewrite app_nil_r. repeat apply conj; try done.
    + unfold pages_fetched. simpl. lia.
    + unfold pages_fetched. simpl. lia.
  - pose proof Hturn as (Hguard & _).
    destruct (page_turn_trace env t0 _ _ _ _ Hturn)
      as (t & r & fs & outs & lastRow & _ & _ & Hne & Hlen & _ & Hfiles & _ & Htrace1).
    destruct (page_events_counts t (auditState v) r fs outs lastRow Hlen)
      as (_ & Hpages & Hbudget & _).
    assert (Hpos : 1 <= Z.of_nat (length fs)) by (destruct fs; [done|simpl; lia]).
    assert (Hlt : filesInThisBatch v < BATCH_SIZE).
    { unfold loop_guard in Hguard. apply andb_true_iff in Hguard as [_ Hlt]. lia. }
    exists (page_events t (auditState v) r fs outs lastRow ++ evs).
    split; [by rewrite Htrace, Htrace1, app_assoc|].
    rewrite budget_checks_app, pages_fetched_app, Hpages, Hbudget.
    split; [lia|]. split; [lia|]. split; [by rewrite Hguard|].
    intros _. destruct (Z.le_gt_cases (filesInThisBatch v1) BATCH_SIZE) as [Hin|Hout].
    + specialize (Hcap Hin). lia.
    + rewrite Hnil.
      * unfold pages_fetched. simpl. lia.
      * unfold loop_guard. apply andb_false_iff. right. lia.
Qed.

(** X18.  The processing phase of one invocation asks Drive for at most
    [BATCH_SIZE] (500) pages and checks the time budget at most 500 times,
    whatever the sizes of the pages: each page that is processed counts at
    least one file towards the batch. *)
Theorem pages_per_invocation_bounded (env : Env) (t0 : Z) (st : AuditState) (w : World) :
  phase st = "PROCESSING" ->
  pages_fetched (added w (snd (processing_phase env t0 st w))) <= BATCH_SIZE /\
  budget_checks (added w (snd (processing_phase env t0 st w))) <= BATCH_SIZE.
Proof.
  intros Hphase.
  destruct (processing_phase_run env t0 st w Hphase) as (v & w1 & Hturns & Hagree & Hend).
  destruct (turns_pages _ _ _ _ _ _ Hturns) as (evs & Htrace & Hchecks & Hle & _ & Hcap).
  cbn [filesInThisBatch] in Hle, Hcap.
  assert (Hcap' : pages_fetched evs <= BATCH_SIZE) by (unfold BATCH_SIZE in *; lia).
  assert (Htrace1 : trace w1
                    = trace w ++ [EvStatus "RUNNING" processing_message (filesProcessed st) 0]
                        ++ evs)
    by (rewrite Htrace; cbn; by rewrite <- app_assoc).
  assert (Hlt : loop_guard v = true -> filesInThisBatch v < BATCH_SIZE)
    by (intros Hg; by destruct (loop_guard_true_inv v Hg Hagree)).
  destruct (processing_phase env t0 st w) as [c w2]. cbn [fst snd] in Hend |- *.
  unfold pages_fetched, budget_checks, BATCH_SIZE in *.
  inversion Hend as [Hg Hp|Hg Hp|Hg Ht|Hg Ht Hno|r fs Hg Ht Ho Hfs Hne Hnone]; subst;
    try specialize (Hlt Hg);
    (erewrite added_app;
     [|cbn [checkpoint_world record record_all trace]; rewrite Htrace1, <- ?app_assoc;
       reflexivity]);
    rewrite !List.filter_app, !length_app; cbn [List.filter length checkpoint_events app];
    try lia.
  destruct (fan_out_events_counts fs (turn_outcomes env v w1 fs))
    as (_ & Hfp & Hfb & _); [apply fan_out_length|].
  unfold pages_fetched, budget_checks in Hfp, Hfb. lia.
Qed.

Lemma pages_per_invocation_bounded_witness :
  pages_fetched
    (added (resumed_world processing_state)
           (snd (processing_phase two_page_env 0 processing_state (resumed_world processing_state))))
  <= BATCH_SIZE.
Proof.
  exact (proj1 (pages_per_invocation_bounded two_page_env 0 processing_state
                  (resumed_world processing_state) eq_refl)).
Defined.

(** ** What the status sheet shows *)

Lemma status_follows_refl w : status_follows w w.
Proof. exists []. by rewrite app_nil_r. Qed.

Lemma status_follows_trans w1 w2 w3 :
  status_follows w1 w2 -> status_follows w2 w3 -> status_follows w1 w3.
Proof.
  intros (evs1 & Ht1 & H1) (evs2 & Ht2 & H2). exists (evs1 ++ evs2).
  split; [by rewrite Ht2, Ht1, app_assoc|].
  unfold shown_after in *. by rewrite fold_left_app, <- H1, <- H2.
Qed.

Lemma status_follows_step e w w' :
  trace w' = trace w ++ [e] -> statusSheet w' = shown_after (statusSheet w) [e] ->
  status_follows w w'.
Proof. intros Htrace Hshown. by exists [e]. Qed.

Lemma status_follows_processDriveAuditBatch env w :
  status_follows w (snd (processDriveAuditBatch env w)).
Proof.
  apply (keeps_processDriveAuditBatch status_follows status_follows_refl status_follows_trans).
  - intros site w0. by eapply status_follows_step.
  - intros st w0. by eapply status_follows_step.
  - intros w0. by eapply status_follows_step.
  - intros w0. by eapply status_follows_step.
  - intros token w0. unfold Drive_Files_list.
    destruct (Files_list env (trace w0) token 100); by eapply status_follows_step.
  - intros fileId w0. unfold Drive_Permissions_list.
    destruct (Permissions_list env (trace w0) fileId); by eapply status_follows_step.
  - intros firstRow rows w0. unfold setValues.
    destruct (auditSheet w0); [|apply status_follows_refl].
    by eapply status_follows_step.
  - intros status message processed total _ w0. by eapply status_follows_step.
  - intros w0. by eapply status_follows_step.
  - intros w0. by eapply status_follows_step.
  - intros totalFiles totalPermissions w0. by eapply status_follows_step.
  - intros w0. by eapply status_follows_step.
Qed.

Lemma shown_after_app shown evs1 evs2 :
  shown_after shown (evs1 ++ evs2) = shown_after (shown_after shown evs1) evs2.
Proof. unfold shown_after. by rewrite fold_left_app. Qed.

(** X19.  After an invocation the status sheet shows the last status that
    was reported, and is untouched when none was.  So when ERROR was
    reported the sheet shows ERROR with the error text and no progress
    rows; when COMPLETED was reported it shows COMPLETED with the totals,
    and the progress rows say that all files are processed. *)
Theorem status_sheet_shows_last_report (env : Env) (w : World) :
  let w' := exec (processDriveAuditBatch env) w in
  statusSheet w' = shown_after (statusSheet w) (added w w') /\
  (statuses (added w w') = [] -> statusSheet w' = statusSheet w) /\
  (In "ERROR" (statuses (added w w')) ->
   exists e, statusSheet w' = Some (mkStatusData "ERROR" (error_message e) None)) /\
  (In "COMPLETED" (statuses (added w w')) ->
   exists st t,
     statusSheet w'
     = Some (mkStatusData "COMPLETED" (completed_message st t)
               (if 0 <? filesProcessed st
                then Some (filesProcessed st, filesProcessed st) else None))).
Proof.
  cbv zeta. unfold exec.
  destruct (status_follows_processDriveAuditBatch env w) as (evs & Htrace & Hshown).
  rewrite (added_app _ _ _ Htrace), Hshown.
  split; [reflexivity|]. split.
  { clear. generalize (statusSheet w). induction evs as [|e evs IH]; intros shown; [done|].
    destruct e; cbn [statuses flat_map app]; try apply IH. done. }
  destruct (processDriveAuditBatch_outcome env w) as (t0 & evs' & c & w1 & Hout & _ & Hcase).
  assert (Hnot : forall l s, Forall (eq "RUNNING") l -> In s l -> s = "RUNNING").
  { intros l s Hall Hin. rewrite Forall_forall in Hall.
    symmetry. by apply Hall, list_elem_of_In. }
  inversion Hout as [w' evs0 Hrun| e w' evs0 Hrun | w' evs0 st t Hrun | w' evs0 Hnone]; subst;
    destruct Hcase as [Htrace' _]; rewrite Htrace in Htrace';
    apply app_inv_head in Htrace' as ->.
  - split; intros Hin; cbn [statuses flat_map app] in Hin;
      by apply (Hnot _ _ Hrun) in Hin.
  - change (EvClock AtInvocationStart t0 :: evs' ++ error_events e)
      with ((EvClock AtInvocationStart t0 :: evs') ++ error_events e).
    rewrite shown_after_app, statuses_app. split.
    + intros _. by exists e.
    + intros Hin. apply in_app_or in Hin as [Hin|Hin].
      * cbn [statuses flat_map app] in Hin. by apply (Hnot _ _ Hrun) in Hin.
      * cbn in Hin. by destruct Hin as [|[]].
  - change (EvClock AtInvocationStart t0 :: evs0 ++ finalize_events st t)
      with ((EvClock AtInvocationStart t0 :: evs0) ++ finalize_events st t).
    rewrite shown_after_app, statuses_app. split.
    + intros Hin. apply in_app_or in Hin as [Hin|Hin].
      * cbn [statuses flat_map app] in Hin. by apply (Hnot _ _ Hrun) in Hin.
      * cbn in Hin. by destruct Hin as [|[|[]]].
    + intros _. by exists st, t.
  - cbn [statuses flat_map app]. fold (statuses evs'). rewrite Hnone.
    by split.
Qed.

(** * The processing phase, call by call and row by row *)

Lemma written_rows_app evs1 evs2 :
  written_rows (evs1 ++ evs2) = written_rows evs1 ++ written_rows evs2.
Proof. apply flat_map_app. Qed.

Lemma written_rows_fan_out fs outs : written_rows (fan_out_events fs outs) = [].
Proof.
  revert outs. induction fs as [|f fs IH]; intros [|o outs]; try done.
  cbn [fan_out_events]. apply IH.
Qed.

Lemma written_rows_page t st r fs outs lastRow :
  written_rows (page_events t st r fs outs lastRow) = fan_out_rows fs outs.
Proof.
  unfold page_events, cadence_events.
  rewrite !written_rows_app, written_rows_fan_out.
  destruct (_ =? _); cbn; by rewrite !app_nil_r.
Qed.

Lemma page_trace_rows t0 st evs st1 :
  page_trace t0 st evs st1 ->
  auditDataCount st1 = auditDataCount st + Z.of_nat (length (written_rows evs)).
Proof.
  induction 1 as [st|st t r fs outs lastRow evs st1 Ht Hf Hne Hlen _ IH]; [simpl; lia|].
  rewrite written_rows_app, written_rows_page, length_app, IH, next_state_auditDataCount. lia.
Qed.

Lemma page_trace_no_items t0 st evs st1 :
  page_trace t0 st evs st1 -> items_processed evs = 0 -> evs = [].
Proof.
  intros Hpt. destruct Hpt as [st|st t r fs outs lastRow evs st1 Ht Hf Hne Hlen Hrest]; [done|].
  rewrite items_processed_app.
  destruct (page_events_counts t st r fs outs lastRow Hlen) as (-> & _).
  assert (0 <= items_processed evs) by (unfold items_processed; lia).
  destruct fs; [done|]. simpl. lia.
Qed.

Lemma below_cap_fan_out n fs outs rest :
  length outs = length fs ->
  fetches_below_cap (n + Z.of_nat (length fs)) rest ->
  fetches_below_cap n (fan_out_events fs outs ++ rest).
Proof.
  revert outs n. induction fs as [|f fs IH]; intros [|o outs] n Hlen; try done.
  - simpl. by rewrite Z.add_0_r.
  - simpl in Hlen. cbn [fan_out_events app fetches_below_cap length]. intros H.
    apply IH; [lia|]. by replace (n + 1 + Z.of_nat (length fs))
                          with (n + Z.of_nat (S (length fs))) by lia.
Qed.

Lemma loop_guard_below v : loop_guard v = true -> filesInThisBatch v < BATCH_SIZE.
Proof. unfold loop_guard. intros [_ H]%andb_true_iff. lia. Qed.

(** What a run of page turns leaves behind: the calls, the rows on the
    sheet, the stored state. *)
Lemma turns_account env t0 v w v' w' :
  turns env t0 v w v' w' ->
  exists evs,
    trace w' = trace w ++ evs /\
    page_trace t0 (auditState v) evs (auditState v') /\
    filesInThisBatch v' = filesInThisBatch v + items_processed evs /\
    (forall old, auditSheet w = Some old -> auditSheet w' = Some (old ++ written_rows evs)) /\
    (evs <> [] \/ props w !! "AUDIT_STATE" = Some (PJson (auditState v)) ->
     props w' !! "AUDIT_STATE" = Some (PJson (auditState v'))) /\
    (forall rest, fetches_below_cap (filesInThisBatch v') rest ->
                  fetches_below_cap (filesInThisBatch v) (evs ++ rest)).
Proof.
  induction 1 as [v w|v w v1 w1 v' w' Hturn _
                  (evs & Htrace & Hpt & Hfiles & Hsheet & Hprops & Hcap)].
  - exists []. rewrite app_nil_r. split; [done|]. split; [constructor|].
    split; [unfold items_processed; simpl; lia|].
    split; [intros old ->; by rewrite app_nil_r|].
    split; [by intros [|]|done].
  - destruct Hturn as (Hguard & Ht & r & fs & old & Ho & Hf & Hne & Hold & Hv1 & Hw1).
    set (outs := turn_outcomes env v w fs) in *.
    assert (Hlen : length outs = length fs) by apply fan_out_length.
    destruct (page_events_counts (turn_time env w) (auditState v) r fs outs
                                 (Z.of_nat (length old)) Hlen) as (Hitems & _).
    exists (page_events (turn_time env w) (auditState v) r fs outs (Z.of_nat (length old))
              ++ evs).
    split; [rewrite Htrace, Hw1; cbn [page_world trace]; by rewrite app_assoc|].
    split; [constructor; try done; by rewrite Hv1 in Hpt|].
    split; [rewrite Hfiles, Hv1, items_processed_app, Hitems; cbn; lia|].
    split.
    { intros old' Hold'. rewrite Hold in Hold'. injection Hold' as <-.
      rewrite written_rows_app, written_rows_page, app_assoc.
      apply Hsheet. by rewrite Hw1. }
    split.
    { intros _. apply Hprops. right. rewrite Hw1, Hv1. cbn. by rewrite lookup_insert_eq. }
    intros rest Hrest. specialize (Hcap rest Hrest).
    rewrite Hv1 in Hcap. cbn [next_vars filesInThisBatch] in Hcap.
    unfold page_events. rewrite <- !app_assoc.
    cbn [app fetches_below_cap]. split; [by apply loop_guard_below|].
    apply below_cap_fan_out; [done|]. cbn [app fetches_below_cap].
    unfold cadence_events. by destruct (_ =? _).
Qed.

(** After at least one page turn the loop goes on exactly when the last
    page carried a next-page token. *)
Lemma turns_token env t0 v w v' w' :
  turns env t0 v w v' w' ->
  v' = v \/
  (continueProcessing v' = truthy (pageToken (auditState v')) /\
   phase (auditState v')
   = if truthy (pageToken (auditState v')) then phase (auditState v) else "FINALIZING").
Proof.
  induction 1 as [v w|v w v1 w1 v' w' Hturn Hturns IH]; [by left|]. right.
  destruct Hturn as (Hguard & _ & r & fs & old & _ & _ & _ & _ & Hv1 & _).
  assert (Hcont : continueProcessing v = true)
    by (unfold loop_guard in Hguard; by apply andb_true_iff in Hguard as [? _]).
  assert (H1 : continueProcessing v1 = truthy (pageToken (auditState v1)) /\
               phase (auditState v1)
               = if truthy (pageToken (auditState v1)) then phase (auditState v)
                 else "FINALIZING").
  { rewrite Hv1. cbn [next_vars continueProcessing auditState].
    rewrite next_state_pageToken, next_state_phase, Hcont.
    by destruct (truthy (nextPageToken r)). }
  inversion Hturns as [|? ? v2 w2 ? ? Hturn2 _]; subst; [exact H1|].
  destruct IH as [->|[IH1 IH2]]; [exact H1|].
  split; [exact IH1|]. rewrite IH2.
  destruct Hturn2 as (Hguard2 & _).
  assert (Hcont2 : continueProcessing
                     (next_vars v fs (nextPageToken r) (turn_outcomes env v w fs)) = true)
    by (unfold loop_guard in Hguard2; by apply andb_true_iff in Hguard2 as [? _]).
  destruct H1 as [H1a H1b]. rewrite Hcont2 in H1a. rewrite <- H1a in H1b.
  by rewrite H1b.
Qed.

Lemma processing_phase_account env t0 st w :
  phase st = "PROCESSING" ->
  exists evs st1 tail,
    trace (snd (processing_phase env t0 st w))
      = trace w ++ EvStatus "RUNNING" processing_message (filesProcessed st) 0 :: evs ++ tail /\
    page_trace t0 st evs st1 /\
    ending t0 st1 (items_processed evs) tail (fst (processing_phase env t0 st w)) /\
    (forall old, auditSheet w = Some old ->
       auditSheet (snd (processing_phase env t0 st w)) = Some (old ++ written_rows evs)) /\
    ((forall e, fst (processing_phase env t0 st w) <> Throw e) ->
     evs <> [] \/ props w !! "AUDIT_STATE" = Some (PJson st) ->
     props (snd (processing_phase env t0 st w)) !! "AUDIT_STATE" = Some (PJson st1)) /\
    fetches_below_cap 0 (evs ++ tail) /\
    (0 < items_processed evs ->
     phase st1 = if truthy (pageToken st1) then "PROCESSING" else "FINALIZING") /\
    (fst (processing_phase env t0 st w) = Return ->
     continuation_triggers (snd (processing_phase env t0 st w)) = [continuation_trigger]) /\
    summarySheet (snd (processing_phase env t0 st w)) = summarySheet w /\
    ((exists e, fst (processing_phase env t0 st w) = Throw e) ->
     auditSheet (snd (processing_phase env t0 st w)) = None).
Proof.
  intros Hphase.
  destruct (processing_phase_run env t0 st w Hphase) as (v & w1 & Hturns & Hagree & Hend).
  destruct (turns_account _ _ _ _ _ _ Hturns)
    as (evs & Htr & Hpt & Hn & Hsheet & Hprops & Hcap).
  destruct (turns_world _ _ _ _ _ _ Hturns) as (_ & Hsum & _).
  cbn [auditState filesInThisBatch status_world trace auditSheet props summarySheet]
    in Htr, Hpt, Hn, Hsheet, Hprops, Hcap, Hsum.
  rewrite <- app_assoc in Htr. cbn [app] in Htr. rewrite Z.add_0_l in Hn.
  assert (Htoken : 0 < items_processed evs ->
                   phase (auditState v)
                   = if truthy (pageToken (auditState v)) then "PROCESSING" else "FINALIZING").
  { intros Hpos. destruct (turns_token _ _ _ _ _ _ Hturns) as [->|[_ Hph]].
    - cbn in Hn. lia.
    - cbn [auditState] in Hph. by rewrite Hphase in Hph. }
  destruct (processing_phase env t0 st w) as [c w']. cbn [fst snd] in Hend |- *.
  exists evs, (auditState v).
  inversion Hend as [Hg Hp| Hg Hp | Hg Ht | Hg Ht Hno | r fs Hg Ht Ho Hf Hne Hns]; subst.
  - destruct (loop_guard_false_inv _ Hg Hagree) as [[_ Hcapped]|Hfin]; [|congruence].
    exists (checkpoint_events (auditState v)).
    split; [cbn [checkpoint_world trace]; by rewrite Htr, <- !app_assoc|].
    split; [done|]. split; [constructor; [lia|done]|].
    split; [intros old Hold; cbn; by apply Hsheet|].
    split; [intros _ _; cbn; by rewrite lookup_insert_eq|].
    split; [by apply Hcap|]. split; [done|].
    split; [intros _; by apply (continuation_triggers_after_checkpoint w1)|].
    split; [done|by intros [e [=]]].
  - exists []. split; [by rewrite app_nil_r|].
    split; [done|]. split; [by constructor|].
    split; [done|]. split; [intros _; exact Hprops|].
    split; [rewrite app_nil_r; by rewrite <- (app_nil_r evs) at 1; apply Hcap|].
    split; [done|]. split; [done|]. split; [done|by intros [e [=]]].
  - destruct (loop_guard_true_inv _ Hg Hagree) as [Hp Hlt].
    exists (EvClock AtBudgetCheck (turn_time env w1) :: checkpoint_events (auditState v)).
    split; [cbn [checkpoint_world record trace]; rewrite Htr, <- !app_assoc; by cbn|].
    split; [done|]. split; [constructor; [lia|done|done]|].
    split; [intros old Hold; cbn; by apply Hsheet|].
    split; [intros _ _; cbn; by rewrite lookup_insert_eq|].
    split; [by apply Hcap|]. split; [done|].
    split; [|split; [done|by intros [e [=]]]]. intros _.
    by apply (continuation_triggers_after_checkpoint
                (record (EvClock AtBudgetCheck (turn_time env w1)) w1)).
  - destruct (loop_guard_true_inv _ Hg Hagree) as [Hp Hlt].
    exists [EvClock AtBudgetCheck (turn_time env w1);
            EvFilesList (pageToken (auditState v)) 100 (turn_answer env v w1)].
    split; [cbn [record_all trace]; by rewrite Htr, <- !app_assoc|].
    split; [done|]. split; [constructor; [lia|done|done|done]|].
    split; [intros old Hold; cbn; by apply Hsheet|].
    split; [intros _; exact Hprops|].
    split; [apply Hcap; cbn; split; [lia|done]|].
    split; [done|]. split; [done|]. split; [done|by intros [e [=]]].
  - destruct (loop_guard_true_inv _ Hg Hagree) as [Hp Hlt].
    exists ([EvClock AtBudgetCheck (turn_time env w1);
             EvFilesList (pageToken (auditState v)) 100 (Returns r)]
              ++ fan_out_events fs (turn_outcomes env v w1 fs)).
    split; [cbn [record_all trace]; by rewrite Htr, <- !app_assoc|].
    split; [done|].
    split; [econstructor; try done; [lia|apply fan_out_length]|].
    split; [intros old Hold; cbn; by apply Hsheet|].
    split; [intros He; by destruct (He (null_error "getLastRow"))|].
    split.
    { apply Hcap. cbn [app fetches_below_cap]. split; [lia|].
      rewrite <- (app_nil_r (fan_out_events _ _)).
      apply below_cap_fan_out; [apply fan_out_length|done]. }
    split; [done|]. split; [done|]. split; [done|]. intros _. exact Hns.
Qed.

(** ** The state is saved after every page *)

(** C9.  In the processing phase, started from a world that stores the
    state [st] it runs on, the calls are the opening status report, then
    page after page (budget check, fetch, one permission call per file, the
    rows, the status every 50 files, and the save of the whole state after
    the page: advanced cursor, item counter and row counter), then the
    ending.  Every page fetch is made with the cursor of the state stored
    at that moment, and that stored state counts every item handled and
    every row written before the fetch.  The state after the pages counts
    the items and the rows of the pages, the rows are on the sheet, and
    when the phase ends without throwing that state is the one stored. *)
Theorem state_saved_after_every_page (env : Env) (t0 : Z) (st : AuditState) (w : World) :
  phase st = "PROCESSING" ->
  props w !! "AUDIT_STATE" = Some (PJson st) ->
  exists evs st1 tail,
    added w (snd (processing_phase env t0 st w))
      = EvStatus "RUNNING" processing_message (filesProcessed st) 0 :: evs ++ tail /\
    page_trace t0 st evs st1 /\
    ending t0 st1 (items_processed evs) tail (fst (processing_phase env t0 st w)) /\
    fetches_see_saved_state (Some st) (filesProcessed st) (auditDataCount st)
                            (added w (snd (processing_phase env t0 st w))) /\
    filesProcessed st1 = filesProcessed st + items_processed evs /\
    auditDataCount st1 = auditDataCount st + Z.of_nat (length (written_rows evs)) /\
    (forall old, auditSheet w = Some old ->
       auditSheet (snd (processing_phase env t0 st w)) = Some (old ++ written_rows evs)) /\
    ((forall e, fst (processing_phase env t0 st w) <> Throw e) ->
     props (snd (processing_phase env t0 st w)) !! "AUDIT_STATE" = Some (PJson st1) /\
     filesProcessed st1
     = filesProcessed st + items_processed (added w (snd (processing_phase env t0 st w)))).
Proof.
  intros Hphase Hstored.
  destruct (processing_phase_account env t0 st w Hphase)
    as (evs & st1 & tail & Htr & Hpt & Hend & Hsheet & Hsaved & _).
  exists evs, st1, tail. rewrite (added_app _ _ _ Htr).
  destruct (page_trace_counts _ _ _ _ Hpt) as (Hfp & _ & _).
  split; [done|]. split; [done|]. split; [done|].
  split.
  { cbn [fetches_see_saved_state]. eapply fetches_page_trace; [done|].
    by eapply fetches_ending. }
  split; [done|]. split; [exact (page_trace_rows _ _ _ _ Hpt)|]. split; [done|].
  intros Hc. split; [apply Hsaved; [done|by right]|].
  change (?e :: evs ++ tail) with ([e] ++ evs ++ tail).
  rewrite !items_processed_app, (ending_items_not_thrown _ _ _ _ _ Hend Hc).
  unfold items_processed at 1. simpl. lia.
Qed.

Lemma state_saved_after_every_page_witness :
  phase processing_state = "PROCESSING" /\
  props (resumed_world processing_state) !! "AUDIT_STATE" = Some (PJson processing_state) /\
  fetches_see_saved_state (Some processing_state) 0 0
    (added (resumed_world processing_state)
           (snd (processing_phase two_page_env 0 processing_state
                                  (resumed_world processing_state)))) /\
  exists st1,
    props (snd (processing_phase two_page_env 0 processing_state
                                 (resumed_world processing_state))) !! "AUDIT_STATE"
    = Some (PJson st1) /\
    filesProcessed st1 = 6.
Proof.
  assert (Hitems : items_processed
                     (added (resumed_world processing_state)
                            (snd (processing_phase two_page_env 0 processing_state
                                                   (resumed_world processing_state)))) = 6)
    by (vm_compute; reflexivity).
  assert (Hnot : forall e, fst (processing_phase two_page_env 0 processing_state
                                                 (resumed_world processing_state)) <> Throw e)
    by (intros e; vm_compute; discriminate).
  destruct (state_saved_after_every_page two_page_env 0 processing_state
              (resumed_world processing_state) eq_refl eq_refl)
    as (evs & st1 & tail & _ & _ & _ & Hfetch & _ & _ & _ & Hstored).
  destruct (Hstored Hnot) as [Hprops Hfp].
  split; [reflexivity|]. split; [reflexivity|]. split; [exact Hfetch|].
  exists st1. split; [exact Hprops|]. rewrite Hfp, Hitems. reflexivity.
Defined.

(** ** The batch cap *)

(** C10 (as amended).  The calls of the processing phase are page turns
    followed by an ending, and every page fetch is made while fewer than
    500 items have been handled in the invocation.  Once the items of the
    pages handled in the invocation reach 500, no further page is fetched
    and no further item is handled, and the state with the counters of
    those pages is stored; if the last page carried a next-page token the
    state is in phase PROCESSING, one continuation is registered and the
    phase returns; if it carried none the state is in phase FINALIZING and
    the phase hands over to finalization. *)
Theorem batch_cap_between_pages (env : Env) (t0 : Z) (st : AuditState) (w : World) :
  phase st = "PROCESSING" ->
  exists evs st1 tail,
    added w (snd (processing_phase env t0 st w))
      = EvStatus "RUNNING" processing_message (filesProcessed st) 0 :: evs ++ tail /\
    page_trace t0 st evs st1 /\
    ending t0 st1 (items_processed evs) tail (fst (processing_phase env t0 st w)) /\
    fetches_below_cap 0 (added w (snd (processing_phase env t0 st w))) /\
    filesProcessed st1 = filesProcessed st + items_processed evs /\
    ((forall e, fst (processing_phase env t0 st w) <> Throw e) ->
     items_processed (added w (snd (processing_phase env t0 st w))) = items_processed evs) /\
    (BATCH_SIZE <= items_processed evs ->
     pages_fetched tail = 0 /\ items_processed tail = 0 /\
     props (snd (processing_phase env t0 st w)) !! "AUDIT_STATE" = Some (PJson st1) /\
     (truthy (pageToken st1) = true /\
      phase st1 = "PROCESSING" /\
      fst (processing_phase env t0 st w) = Return /\
      tail = checkpoint_events st1 /\
      continuation_triggers (snd (processing_phase env t0 st w)) = [continuation_trigger]
      \/
      truthy (pageToken st1) = false /\
      phase st1 = "FINALIZING" /\
      fst (processing_phase env t0 st w) = Normal st1 /\
      tail = [])).
Proof.
  intros Hphase.
  destruct (processing_phase_account env t0 st w Hphase)
    as (evs & st1 & tail & Htr & Hpt & Hend & _ & Hsaved & Hbelow & Htoken & Htrig & _).
  exists evs, st1, tail. rewrite (added_app _ _ _ Htr).
  destruct (page_trace_counts _ _ _ _ Hpt) as (Hfp & _ & _).
  split; [done|]. split; [done|]. split; [done|]. split; [exact Hbelow|].
  split; [done|]. split.
  { intros Hc. change (?e :: evs ++ tail) with ([e] ++ evs ++ tail).
    rewrite !items_processed_app, (ending_items_not_thrown _ _ _ _ _ Hend Hc).
    unfold items_processed at 1. simpl. lia. }
  intros Hcap.
  assert (Hpos : 0 < items_processed evs) by (unfold BATCH_SIZE in Hcap; lia).
  assert (Hne : evs <> []) by (intros ->; unfold items_processed in Hpos; simpl in Hpos; lia).
  specialize (Htoken Hpos).
  destruct (processing_phase env t0 st w) as [c w']. cbn [fst snd] in *.
  inversion Hend as [Hcap' Hp|Hp|t Hlt|t o Hlt|t r fs outs Hlt]; subst; try lia.
  - split; [reflexivity|]. split; [reflexivity|].
    split; [apply Hsaved; [done|by left]|]. left.
    destruct (truthy (pageToken st1)); [|by rewrite Hp in Htoken].
    repeat apply conj; try done. by apply Htrig.
  - split; [reflexivity|]. split; [reflexivity|].
    split; [apply Hsaved; [done|by left]|]. right.
    destruct (truthy (pageToken st1)); [by rewrite Hp in Htoken|done].
Qed.

Lemma batch_cap_between_pages_witness :
  phase processing_state = "PROCESSING" /\
  items_processed
    (added (resumed_world processing_state)
           (snd (processing_phase six_page_env 0 processing_state
                                  (resumed_world processing_state)))) = 500 /\
  fst (processing_phase six_page_env 0 processing_state (resumed_world processing_state))
  = Return /\
  continuation_triggers
    (snd (processing_phase six_page_env 0 processing_state (resumed_world processing_state)))
  = [continuation_trigger] /\
  exists st1,
    props (snd (processing_phase six_page_env 0 processing_state
                                 (resumed_world processing_state))) !! "AUDIT_STATE"
    = Some (PJson st1) /\
    phase st1 = "PROCESSING" /\ filesProcessed st1 = 500.
Proof.
  assert (Hitems : items_processed
                     (added (resumed_world processing_state)
                            (snd (processing_phase six_page_env 0 processing_state
                                                   (resumed_world processing_state)))) = 500)
    by (vm_compute; reflexivity).
  assert (Hc : fst (processing_phase six_page_env 0 processing_state
                                     (resumed_world processing_state)) = Return)
    by (vm_compute; reflexivity).
  destruct (batch_cap_between_pages six_page_env 0 processing_state
              (resumed_world processing_state) eq_refl)
    as (evs & st1 & tail & _ & _ & _ & _ & Hfp & Hsame & Hcap).
  assert (Hn : items_processed evs = 500).
  { rewrite <- Hsame; [exact Hitems|]. intros e. rewrite Hc. discriminate. }
  destruct Hcap as (_ & _ & Hprops & Hcase); [rewrite Hn; unfold BATCH_SIZE; lia|].
  split; [reflexivity|]. split; [exact Hitems|]. split; [exact Hc|].
  destruct Hcase as [(_ & Hp & _ & _ & Htrig)|(_ & _ & Hnormal & _)].
  - split; [exact Htrig|]. exists st1. split; [exact Hprops|]. split; [exact Hp|].
    rewrite Hfp, Hn. reflexivity.
  - rewrite Hc in Hnormal. discriminate.
Defined.

(** ** A page fetch that fails: what is completed *)

Lemma no_failed_fetch evs token n e :
  failed_fetches evs = 0 -> ~ In (EvFilesList token n (Throws e)) evs.
Proof. intros Hnone Hin%failed_fetches_in. lia. Qed.

Lemma finalizing_phase_status env st w :
  phase st = "FINALIZING" -> is_Some (auditSheet w) ->
  exists t,
    trace (snd (finalizing_phase env st w)) = trace w ++ finalize_events st t /\
    statusSheet (snd (finalizing_phase env st w)) = Some (completed_status st t).
Proof.
  intros Hphase [rows Hrows]. unfold finalizing_phase. rewrite Hphase.
  cbn [String.eqb Ascii.eqb Bool.eqb].
  unfold bind, updateAuditStatus, getLastRow, now, deleteProperty, call,
    deleteContinuationTriggers. simpl. rewrite Hrows. simpl.
  eexists. split; [|reflexivity]. by rewrite <- !app_assoc.
Qed.

(** The start of the [try] block makes no Drive call and writes no row;
    the state it hands on has the counters of the stored state, or 0. *)
Lemma prologue_counts env w :
  exists evs,
    trace (snd (prologue env w)) = trace w ++ evs /\
    items_processed evs = 0 /\ written_rows evs = [] /\
    failed_fetches evs = 0 /\ statuses evs = [] /\
    match fst (prologue env w) with
    | Normal st =>
        phase st <> "SETUP" /\
        filesProcessed st = stored_filesProcessed w /\
        auditDataCount st = stored_auditDataCount w
    | Throw e => True
    | Return => False
    | OutOfFuel => False
    end.
Proof.
  unfold stored_filesProcessed, stored_auditDataCount.
  destruct (props w !! "AUDIT_STATE") as [[st|s Hs]|] eqn:Hprops;
    unfold prologue, load_state, getProperty, bind; cbv beta; rewrite Hprops;
    cbn [is_falsy].
  - cbn [JSON_parse ret]. unfold setup_phase.
    destruct (String.eqb (phase st) "SETUP") eqn:Hsetup.
    + unfold bind, prepare_audit_sheet, setProperty, ret. cbn.
      eexists [_; _]. split; [by rewrite <- app_assoc|]. by repeat split.
    + unfold ret. cbn. exists []. rewrite app_nil_r.
      apply String.eqb_neq in Hsetup. by repeat split.
  - destruct (String.eqb s "") eqn:Hempty.
    + unfold bind, now, ret, setup_phase, bind, prepare_audit_sheet, setProperty, ret. cbn.
      eexists [_; _; _]. split; [by rewrite <- !app_assoc|]. by repeat split.
    + unfold JSON_parse, throw. cbn. exists []. by rewrite app_nil_r.
  - unfold bind, now, ret, setup_phase, bind, prepare_audit_sheet, setProperty, ret. cbn.
    eexists [_; _; _]. split; [by rewrite <- !app_assoc|]. by repeat split.
Qed.

(** The rest of the [try] block and a failed page fetch: either no fetch
    failed, or the failed fetch is followed by the finalization of the
    state the pages left, or the audit sheet is missing. *)
Lemma phases_fetch_failure env t0 st w :
  phase st <> "SETUP" ->
  exists evs,
    trace (snd (phases env t0 st w)) = trace w ++ evs /\
    ((failed_fetches evs = 0 /\ forall e, fst (phases env t0 st w) <> Throw e)
     \/
     (exists pre st1 e t,
        evs = pre ++ EvFilesList (pageToken st1) 100 (Throws e)
                  :: finalize_events (set_phase "FINALIZING" st1) t /\
        failed_fetches pre = 0 /\
        Forall (eq "RUNNING") (statuses pre) /\
        filesProcessed st1 = filesProcessed st + items_processed pre /\
        auditDataCount st1 = auditDataCount st + Z.of_nat (length (written_rows pre)) /\
        fst (phases env t0 st w) = Normal tt /\
        cleaned (snd (phases env t0 st w)) /\
        summarySheet (snd (phases env t0 st w))
        = Some (filesProcessed st1, auditDataCount st1) /\
        statusSheet (snd (phases env t0 st w))
        = Some (completed_status (set_phase "FINALIZING" st1) t))
     \/
     ((exists e, fst (phases env t0 st w) = Throw e) /\
      auditSheet (snd (phases env t0 st w)) = None)).
Proof.
  intros Hsetup. rewrite phases_unfold.
  assert (Hfinal : forall st2 w2 pre,
             phase st2 = "FINALIZING" -> trace w2 = trace w ++ pre -> failed_fetches pre = 0 ->
             exists evs,
               trace (snd (finalizing_phase env st2 w2)) = trace w ++ evs /\
               ((failed_fetches evs = 0 /\ forall e, fst (finalizing_phase env st2 w2) <> Throw e)
                \/ ((exists e, fst (finalizing_phase env st2 w2) = Throw e) /\
                    auditSheet (snd (finalizing_phase env st2 w2)) = None))).
  { intros st2 w2 pre Hp Htr Hpre. destruct (auditSheet w2) as [rows|] eqn:Hrows.
    - destruct (finalizing_phase_done env st2 w2 Hp) as (t & Hc & Htr' & _);
        [by rewrite Hrows|].
      exists (pre ++ finalize_events st2 t). split; [by rewrite Htr', Htr, app_assoc|].
      left. split; [by rewrite failed_fetches_app, Hpre|]. intros e. by rewrite Hc.
    - destruct (finalizing_phase_throws env st2 w2 Hp Hrows) as (Hc & Htr' & Hnone & _).
      eexists. split; [by rewrite Htr', Htr, <- app_assoc|].
      right. split; [by eexists|done]. }
  destruct (String.eqb_spec (phase st) "PROCESSING") as [Hphase|Hphase].
  - destruct (processing_phase_account env t0 st w Hphase)
      as (evs & st1 & tail & Htr & Hpt & Hend & _ & _ & _ & _ & _ & Hsum & Hnosheet).
    destruct (page_trace_counts _ _ _ _ Hpt) as (Hfp & _ & Hrun).
    pose proof (page_trace_rows _ _ _ _ Hpt) as Hrows.
    pose proof (failed_fetches_page_trace _ _ _ _ Hpt) as Hfail.
    set (head := EvStatus "RUNNING" processing_message (filesProcessed st) 0) in *.
    assert (Hhead : failed_fetches (head :: evs) = 0).
    { change (head :: evs) with ([head] ++ evs). by rewrite failed_fetches_app, Hfail. }
    destruct (processing_phase env t0 st w) as [c w2]. cbn [fst snd] in *.
    inversion Hend as [Hcap Hp|Hp|t Hlt Hp Ht|t o Hlt Hp Ht Hno|t r fs outs Hlt Hp Ht Hf Hne Hlen];
      subst.
    + eexists. split; [exact Htr|]. left. split; [|done].
      change (head :: evs ++ ?l) with ((head :: evs) ++ l).
      by rewrite failed_fetches_app, Hhead.
    + rewrite app_nil_r in Htr.
      destruct (Hfinal st1 w2 (head :: evs) Hp Htr Hhead) as (evs' & Htr' & [H|H]);
        exists evs'; (split; [exact Htr'|]); [by left|by right; right].
    + eexists. split; [exact Htr|]. left. split; [|done].
      change (head :: evs ++ ?l) with ((head :: evs) ++ l).
      by rewrite failed_fetches_app, Hhead.
    + destruct o as [r|e].
      * destruct (Hfinal (set_phase "FINALIZING" st1) w2
                         (head :: evs ++ [EvClock AtBudgetCheck t;
                                          EvFilesList (pageToken st1) 100 (Returns r)])
                         eq_refl Htr) as (evs' & Htr' & [H|H]).
        { change (head :: evs ++ ?l) with ((head :: evs) ++ l).
          by rewrite failed_fetches_app, Hhead. }
        { exists evs'. split; [exact Htr'|]. by left. }
        { exists evs'. split; [exact Htr'|]. by right; right. }
      * destruct (auditSheet w2) as [rows|] eqn:Hsheet.
        -- assert (Hsome : is_Some (auditSheet w2)) by (by rewrite Hsheet).
           destruct (finalizing_phase_done env (set_phase "FINALIZING" st1) w2 eq_refl Hsome)
             as (t' & Hc & Htr' & Hclean & _).
           destruct (finalizing_phase_status env (set_phase "FINALIZING" st1) w2 eq_refl Hsome)
             as (t'' & Htr'' & Hstatus).
           assert (t'' = t') as ->.
           { rewrite Htr' in Htr''. apply app_inv_head in Htr''. by injection Htr''. }
           pose proof (finalizing_phase_summary env (set_phase "FINALIZING" st1) w2
                         eq_refl Hsome) as Hsummary.
           eexists. split; [rewrite Htr', Htr; by rewrite <- app_assoc|].
           right. left.
           exists (head :: evs ++ [EvClock AtBudgetCheck t]), st1, e, t'.
           split; [cbn; by rewrite <- !app_assoc|].
           change (head :: evs ++ ?l) with ((head :: evs) ++ l).
           split; [by rewrite failed_fetches_app, Hhead|].
           split.
           { rewrite statuses_app. apply Forall_app. split; [|constructor].
             cbn [statuses flat_map app]. by constructor. }
           split.
           { rewrite Hfp. change ((head :: evs) ++ ?l) with ([head] ++ evs ++ l).
             rewrite !items_processed_app. unfold items_processed at 2 4. simpl. lia. }
           split.
           { rewrite Hrows. change ((head :: evs) ++ ?l) with ([head] ++ evs ++ l).
             rewrite !written_rows_app. cbn. by rewrite app_nil_r. }
           done.
        -- destruct (finalizing_phase_throws env (set_phase "FINALIZING" st1) w2 eq_refl Hsheet)
             as (Hc & Htr' & Hnone & _).
           eexists. split; [rewrite Htr', Htr; by rewrite <- app_assoc|].
           right. right. split; [by eexists|done].
    + eexists. split; [exact Htr|]. right. right.
      split; [by eexists|]. apply Hnosheet. by eexists.
  - rewrite (processing_phase_skip env t0 st w Hphase).
    destruct (String.eqb_spec (phase st) "FINALIZING") as [Hfin|Hfin].
    + destruct (Hfinal st w [] Hfin) as (evs & Htr & [H|H]);
        [by rewrite app_nil_r|done| |]; exists evs; (split; [done|]); [by left|by right; right].
    + rewrite (finalizing_phase_skip env st w Hfin). exists []. cbn.
      split; [by rewrite app_nil_r|]. left. by split.
Qed.

(** C1 (as amended).  A page fetch that throws does not abort the job: the
    failure is caught where the page is fetched and the batch processor
    goes on as after an empty last page.  In an invocation in which a page
    fetch threw, and whose world has the audit sheet: the failed fetch is
    the last call before the finalization, whose calls end the invocation
    (no further page is fetched); the state that is finalized has the
    cursor of the failed fetch, and its counters are those stored before
    the invocation plus the items handled and the rows written in it; the
    summary and the COMPLETED report carry these counters; the last status
    reported is COMPLETED and ERROR is not reported; afterwards no state
    is stored and no continuation is pending. *)
Theorem page_fetch_failure_ends_listing (env : Env) (w : World)
        (token : option string) (n : Z) (e : string) :
  In (EvFilesList token n (Throws e)) (added w (exec (processDriveAuditBatch env) w)) ->
  is_Some (auditSheet (exec (processDriveAuditBatch env) w)) ->
  fst (processDriveAuditBatch env w) = Normal tt /\
  (exists pre st t,
     added w (exec (processDriveAuditBatch env) w)
       = pre ++ EvFilesList token n (Throws e) :: finalize_events st t /\
     failed_fetches pre = 0 /\
     phase st = "FINALIZING" /\ pageToken st = token /\ n = 100 /\
     filesProcessed st = stored_filesProcessed w + items_processed pre /\
     auditDataCount st = stored_auditDataCount w + Z.of_nat (length (written_rows pre)) /\
     summarySheet (exec (processDriveAuditBatch env) w)
     = Some (filesProcessed st, auditDataCount st) /\
     statusSheet (exec (processDriveAuditBatch env) w) = Some (completed_status st t)) /\
  last (statuses (added w (exec (processDriveAuditBatch env) w))) = Some "COMPLETED" /\
  ~ In "ERROR" (statuses (added w (exec (processDriveAuditBatch env) w))) /\
  cleaned (exec (processDriveAuditBatch env) w).
Proof.
  unfold exec. rewrite processDriveAuditBatch_unfold. cbv zeta.
  set (t0 := clock env (trace w)). set (w0 := record (EvClock AtInvocationStart t0) w).
  rewrite try_block_unfold.
  destruct (prologue_counts env w0)
    as (evs0 & Htr0 & Hitems0 & Hrows0 & Hfail0 & Hst0 & Hcase).
  change (stored_filesProcessed w0) with (stored_filesProcessed w) in Hcase.
  change (stored_auditDataCount w0) with (stored_auditDataCount w) in Hcase.
  assert (Hhead : failed_fetches (EvClock AtInvocationStart t0 :: evs0) = 0).
  { change (?x :: evs0) with ([x] ++ evs0). by rewrite failed_fetches_app, Hfail0. }
  destruct (prologue env w0) as [[st0| |e0|] w1]; cbn [fst snd] in Htr0, Hcase; try done.
  - destruct Hcase as (Hsetup & Hfp0 & Hadc0).
    destruct (phases_fetch_failure env t0 st0 w1 Hsetup) as (evs & Htr & Hcases).
    assert (Htrace : trace (snd (phases env t0 st0 w1))
                     = trace w ++ (EvClock AtInvocationStart t0 :: evs0) ++ evs).
    { rewrite Htr, Htr0. unfold w0. cbn [record trace]. by rewrite <- !app_assoc. }
    destruct Hcases as [[Hnone Hnot]|[(pre & st1 & e' & t & -> & Hpre & Hrun & Hfp & Hadc & Hc
                                       & Hclean & Hsummary & Hstatus)
                                     |[[e' Hc] Hnosheet]]].
    + (* no fetch failed *)
      intros Hin _. exfalso.
      assert (Hzero : failed_fetches ((EvClock AtInvocationStart t0 :: evs0) ++ evs) = 0)
        by (by rewrite failed_fetches_app, Hhead, Hnone).
      destruct (phases env t0 st0 w1) as [[[]| |e'|] w2]; cbn [fst snd] in *;
        try (by destruct (Hnot e'));
        rewrite (added_app _ _ _ Htrace) in Hin;
        by apply (no_failed_fetch _ _ _ _ Hzero) in Hin.
    + (* the failed fetch, then the finalization *)
      destruct (phases env t0 st0 w1) as [c w2]. cbn [fst snd] in *. subst c. cbn [fst snd].
      rewrite (added_app _ _ _ Htrace). intros Hin _.
      assert (Hpre' : failed_fetches ((EvClock AtInvocationStart t0 :: evs0) ++ pre) = 0)
        by (by rewrite failed_fetches_app, Hhead, Hpre).
      assert (Hthis : EvFilesList token n (Throws e)
                      = EvFilesList (pageToken st1) 100 (Throws e')).
      { rewrite app_assoc in Hin. apply in_app_iff in Hin as [Hin|[Hin|Hin]].
        - by apply no_failed_fetch in Hin.
        - done.
        - by apply no_failed_fetch in Hin. }
      injection Hthis as -> -> ->.
      split; [reflexivity|]. split.
      { exists ((EvClock AtInvocationStart t0 :: evs0) ++ pre), (set_phase "FINALIZING" st1), t.
        split; [by rewrite <- app_assoc|]. split; [exact Hpre'|].
        split; [reflexivity|]. split; [reflexivity|]. split; [reflexivity|].
        cbn [set_phase filesProcessed auditDataCount].
        split.
        { rewrite Hfp, Hfp0. change (?x :: evs0) with ([x] ++ evs0).
          rewrite !items_processed_app, Hitems0.
          change (items_processed [EvClock AtInvocationStart t0]) with 0. lia. }
        split.
        { rewrite Hadc, Hadc0. change (?x :: evs0) with ([x] ++ evs0).
          rewrite !written_rows_app, Hrows0. reflexivity. }
        done. }
      split.
      { rewrite app_assoc.
        change (?l ++ ?x :: finalize_events ?s t) with (l ++ [x] ++ finalize_events s t).
        rewrite !statuses_app. cbn [finalize_events statuses flat_map app].
        change [?a; ?b] with ([a] ++ [b]). by rewrite !app_assoc, last_snoc. }
      split; [|exact Hclean].
      intros Herr. rewrite !statuses_app in Herr.
      change (statuses (EvClock AtInvocationStart t0 :: evs0)) with (statuses evs0) in Herr.
      rewrite Hst0 in Herr. cbn [app] in Herr.
      apply in_app_iff in Herr as [Herr|Herr].
      * rewrite Forall_forall in Hrun. by apply list_elem_of_In, Hrun in Herr.
      * cbn in Herr. by destruct Herr as [|[|[]]].
    + (* the audit sheet is missing *)
      destruct (phases env t0 st0 w1) as [c w2]. cbn [fst snd] in *. subst c. cbn [snd].
      intros _ Hsheet. destruct (catch_block_spec e' w2) as (_ & _ & _ & Hsh & _).
      rewrite Hsh, Hnosheet in Hsheet. by apply is_Some_None in Hsheet.
  - (* the stored text is not JSON *)
    cbn [snd]. intros Hin _. exfalso.
    destruct (catch_block_spec e0 w1) as (_ & Htr' & _).
    rewrite (added_app _ _ ((EvClock AtInvocationStart t0 :: evs0) ++ error_events e0)) in Hin.
    + assert (Hnone : failed_fetches ((EvClock AtInvocationStart t0 :: evs0)
                                        ++ error_events e0) = 0)
        by (by rewrite failed_fetches_app, Hhead).
      by apply (no_failed_fetch _ _ _ _ Hnone) in Hin.
    + rewrite Htr', Htr0. unfold w0. cbn [record trace]. by rewrite <- !app_assoc.
Qed.

Lemma page_fetch_failure_ends_listing_witness :
  In (EvFilesList (Some "page1") 100 (Throws "Exception: Internal error encountered"))
     (added (resumed_world processing_state)
            (exec (processDriveAuditBatch flaky_env) (resumed_world processing_state))) /\
  is_Some (auditSheet (exec (processDriveAuditBatch flaky_env) (resumed_world processing_state))) /\
  last (statuses (added (resumed_world processing_state)
                        (exec (processDriveAuditBatch flaky_env) (resumed_world processing_state))))
    = Some "COMPLETED" /\
  cleaned (exec (processDriveAuditBatch flaky_env) (resumed_world processing_state)) /\
  exists st,
    summarySheet (exec (processDriveAuditBatch flaky_env) (resumed_world processing_state))
    = Some (filesProcessed st, auditDataCount st) /\
    pageToken st = Some "page1".
Proof.
  assert (Hin : In (EvFilesList (Some "page1") 100 (Throws "Exception: Internal error encountered"))
                   (added (resumed_world processing_state)
                          (exec (processDriveAuditBatch flaky_env)
                                (resumed_world processing_state)))).
  { vm_compute. do 10 right. left. reflexivity. }
  assert (Hsheet : is_Some (auditSheet (exec (processDriveAuditBatch flaky_env)
                                             (resumed_world processing_state)))).
  { vm_compute. eexists. reflexivity. }
  split; [exact Hin|]. split; [exact Hsheet|].
  destruct (page_fetch_failure_ends_listing flaky_env (resumed_world processing_state)
              _ _ _ Hin Hsheet)
    as (_ & (pre & st & t & _ & _ & _ & Htoken & _ & _ & _ & Hsummary & _) & Hlast & _ & Hclean).
  split; [exact Hlast|]. split; [exact Hclean|]. by exists st.
Defined.

(** ** Row expansion *)

Lemma fan_out_rows_concat fs outs :
  fan_out_rows fs outs
  = concat (zip_with (fun file o => file_rows file (permissions_of o)) fs outs).
Proof.
  revert outs. induction fs as [|f fs IH]; intros [|o outs]; try done.
  cbn [fan_out_rows zip_with concat]. by rewrite IH.
Qed.

(** C2.  Row expansion law.  When the batch processor handles one item, the
    rows it makes for the item are [file_rows] of the permissions returned
    for it; their number is [max 1 k] for [k] permissions; with no
    permission there is one row whose permission fields are [0] and five
    empty strings; all rows of the item agree on the nine item fields; and
    with [k > 0] permissions the [i]-th row carries the count [k] and the
    fields of the [i]-th permission.  The rows reach the sheet: a turn of
    the loop on a page with files appends to the audit sheet, after the
    rows it had, the rows of the items of the page, item by item in the
    order of the page, in one write that begins at the row after the last;
    nothing else is written to the sheet in that turn. *)
Theorem row_expansion_law (env : Env) (file : File) (st : AuditState) (n : Z)
        (auditData : list Row) (w : World) :
  let ps := permissions_of (Permissions_list env (trace w) (id file)) in
  let rows := file_rows file ps in
  process_file env file (st, n, auditData) w =
    (Normal (set_filesProcessed (filesProcessed st + 1) st, n + 1, auditData ++ rows),
     record (EvPermissionsList (id file) (Permissions_list env (trace w) (id file))) w) /\
  length rows = Nat.max 1 (length ps) /\
  (ps = [] ->
   exists r, rows = [r] /\
     permission_fields r = [CNum 0; CStr ""; CStr ""; CStr ""; CStr ""; CStr ""]) /\
  (forall r1 r2, In r1 rows -> In r2 rows -> item_fields r1 = item_fields r2) /\
  (forall i p, ps !! i = Some p ->
     exists r, rows !! i = Some r /\
       permission_fields r =
       [ CNum (Z.of_nat (length ps)); CStr (perm_type p); CStr (role p);
         or_empty (emailAddress p); or_empty (domain p); or_empty (displayName p) ]) /\
  (forall t0 v r fs old,
     turn_time env w - t0 <= MAX_EXECUTION_TIME ->
     turn_answer env v w = Returns r -> files r = Some fs -> fs <> [] ->
     auditSheet w = Some old ->
     let outs := turn_outcomes env v w fs in
     length outs = length fs /\
     auditSheet (snd (loop_body env t0 v w))
     = Some (old ++ concat (zip_with (fun file o => file_rows file (permissions_of o)) fs outs)) /\
     In (EvSetValues (Z.of_nat (length old) + 1)
                     (concat (zip_with (fun file o => file_rows file (permissions_of o)) fs outs)))
        (added w (snd (loop_body env t0 v w))) /\
     written_rows (added w (snd (loop_body env t0 v w)))
     = concat (zip_with (fun file o => file_rows file (permissions_of o)) fs outs)).
Proof.
  intros ps rows.
  split; [unfold process_file, bind; by rewrite getFilePermissions_spec|].
  split; [apply file_rows_length|].
  split; [intros Hps; subst rows; rewrite Hps; eexists; by split|].
  split.
  { intros r1 r2 H1 H2.
    by rewrite (file_rows_item_fields _ _ _ H1), (file_rows_item_fields _ _ _ H2). }
  split; [intros i p Hp; by apply file_rows_lookup|].
  intros t0 v r fs old Ht Ho Hf Hne Hold outs.
  rewrite (loop_body_page env t0 v w r fs old Ht Ho Hf Hne Hold). fold outs.
  rewrite <- fan_out_rows_concat.
  split; [apply fan_out_length|]. split; [reflexivity|].
  erewrite added_app; [|reflexivity].
  split; [|apply written_rows_page].
  unfold page_events. apply in_app_iff. right. apply in_app_iff. right.
  apply in_app_iff. left. by left.
Qed.

Lemma row_expansion_law_witness :
  auditSheet (snd (loop_body scenarioC_env 0 (mkLoopVars processing_state 0 true)
                             (resumed_world processing_state)))
  = Some ([headers]
            ++ concat (zip_with (fun file o => file_rows file (permissions_of o))
                                (plain_files 1 3)
                                (turn_outcomes scenarioC_env (mkLoopVars processing_state 0 true)
                                               (resumed_world processing_state)
                                               (plain_files 1 3)))) /\
  length (concat (zip_with (fun file o => file_rows file (permissions_of o))
                           (plain_files 1 3)
                           (turn_outcomes scenarioC_env (mkLoopVars processing_state 0 true)
                                          (resumed_world processing_state)
                                          (plain_files 1 3)))) = 4%nat.
Proof.
  assert (Ht : turn_time scenarioC_env (resumed_world processing_state) - 0
               <= MAX_EXECUTION_TIME) by (vm_compute; discriminate).
  assert (Hne : plain_files 1 3 <> []) by discriminate.
  split; [|reflexivity].
  pose proof (row_expansion_law scenarioC_env (plain_file 1) processing_state 0 []
                (resumed_world processing_state)) as (_ & _ & _ & _ & _ & Hsheet).
  exact (proj1 (proj2 (Hsheet 0 (mkLoopVars processing_state 0 true)
                         (mkFilesResponse (Some (plain_files 1 3)) None) (plain_files 1 3)
                         [headers] Ht eq_refl eq_refl Hne eq_refl))).
Defined.

(** ** Terminal cleanup *)

Section TryBlock.

Variable env : Env.

(** The calls of the [try] block come after those made before it. *)
Lemma try_block_extends t0 w :
  exists evs, trace (snd (try_block env t0 w)) = trace w ++ evs.
Proof.
  rewrite try_block_unfold.
  destruct (prologue_spec env w) as (evs0 & Htr0 & _ & _ & _ & _ & Hcase).
  destruct (prologue env w) as [[st| |e|] w1]; cbn [fst snd] in *; try done.
  - destruct Hcase as [Hsetup _].
    destruct (phases_outcome env t0 st w1 Hsetup) as (evs & Htr & _).
    exists (evs0 ++ evs). by rewrite Htr, Htr0, app_assoc.
  - by exists evs0.
Qed.

End TryBlock.

(** C4.  Terminal cleanup.  Whenever one call of the batch processor, of
    the start operation or of the cancel operation reports COMPLETED, ERROR
    or CANCELLED, the world it leaves stores no audit state and has no
    continuation trigger for the batch processor.  And the three
    transitions are made where they are due.  When the [try] block of the
    batch processor throws, the [catch] block runs: ERROR is the last
    status reported, and the state and the continuations are gone.  When
    the finalization runs on a world that has the audit sheet, it reports
    RUNNING and then COMPLETED, and the state and the continuations are
    gone; so does an invocation that finds a stored state in phase
    FINALIZING.  When the cancel operation is confirmed for a stored job,
    CANCELLED is reported and the state and the continuations are gone. *)
Theorem terminal_cleanup (env : Env) (w : World) :
  (forall s,
     In s (statuses (added w (exec (processDriveAuditBatch env) w))) ->
     terminal s = true ->
     cleaned (exec (processDriveAuditBatch env) w)) /\
  (forall s,
     In s (statuses (added w (exec (runDriveAudit env) w))) ->
     terminal s = true ->
     cleaned (exec (runDriveAudit env) w)) /\
  (forall s,
     In s (statuses (added w (exec (cancelRunningAudit env) w))) ->
     terminal s = true ->
     cleaned (exec (cancelRunningAudit env) w)) /\
  (forall e w1,
     try_block env (clock env (trace w))
               (record (EvClock AtInvocationStart (clock env (trace w))) w) = (Throw e, w1) ->
     exec (processDriveAuditBatch env) w = snd (catch_block e w1) /\
     statuses (added w1 (exec (processDriveAuditBatch env) w)) = ["ERROR"] /\
     last (statuses (added w (exec (processDriveAuditBatch env) w))) = Some "ERROR" /\
     cleaned (exec (processDriveAuditBatch env) w)) /\
  (forall st2 w2,
     phase st2 = "FINALIZING" -> is_Some (auditSheet w2) ->
     fst (finalizing_phase env st2 w2) = Normal tt /\
     statuses (added w2 (snd (finalizing_phase env st2 w2))) = ["RUNNING"; "COMPLETED"] /\
     cleaned (snd (finalizing_phase env st2 w2))) /\
  (forall st,
     props w !! "AUDIT_STATE" = Some (PJson st) -> phase st = "FINALIZING" ->
     is_Some (auditSheet w) ->
     statuses (added w (exec (processDriveAuditBatch env) w)) = ["RUNNING"; "COMPLETED"] /\
     cleaned (exec (processDriveAuditBatch env) w)) /\
  (has_state w = true ->
   alert_answer env (trace w) "Cancel Running Audit?" = YES ->
   statuses (added w (exec (cancelRunningAudit env) w)) = ["CANCELLED"] /\
   cleaned (exec (cancelRunningAudit env) w)).
Proof.
  unfold exec. split; [|split; [|split; [|split; [|split; [|split]]]]].
  - intros s. apply processDriveAuditBatch_cleanup.
  - intros s Hin Hterm. rewrite runDriveAudit_run in Hin |- *.
    apply (processDriveAuditBatch_cleanup env (started_world env w) s); [|done].
    pose proof (processDriveAuditBatch_extends env (started_world env w)) as Hext.
    set (w' := snd (processDriveAuditBatch env (started_world env w))) in *.
    rewrite (added_app w w'
               ([EvDeleteProperty "AUDIT_STATE"; EvDeleteProperty "AUDIT_PAGE_TOKEN";
                 EvStatus "RUNNING"
                   "Audit is in progress. For large Drive accounts, this may take some time. The audit will automatically continue every minute if needed."
                   0 0;
                 EvAlert "Drive Audit"
                   (alert_answer env
                      (trace w ++ [EvDeleteProperty "AUDIT_STATE";
                                   EvDeleteProperty "AUDIT_PAGE_TOKEN";
                                   EvStatus "RUNNING"
                                     "Audit is in progress. For large Drive accounts, this may take some time. The audit will automatically continue every minute if needed."
                                     0 0]) "Drive Audit")]
                  ++ added (started_world env w) w')) in Hin.
    + rewrite statuses_app in Hin. apply in_app_iff in Hin as [Hin|Hin]; [|done].
      simpl in Hin. destruct Hin as [<-|[]]. done.
    + rewrite Hext. unfold started_world. cbn [trace]. by rewrite <- !app_assoc.
  - intros s Hin Hterm. rewrite cancelRunningAudit_run in Hin |- *.
    destruct (is_falsy (props w !! "AUDIT_STATE")).
    { unfold added in Hin. simpl in Hin. by rewrite drop_app_length in Hin. }
    destruct (alert_answer env (trace w) "Cancel Running Audit?");
      try (unfold added in Hin; simpl in Hin; by rewrite drop_app_length in Hin).
    split; simpl.
    + by rewrite lookup_delete_ne, lookup_delete_eq.
    + unfold continuation_triggers. simpl. apply continuation_triggers_deleted.
  - intros e w1 Htry. rewrite processDriveAuditBatch_unfold. cbv zeta. rewrite Htry.
    cbn [snd].
    destruct (catch_block_spec e w1) as (_ & Htr & Hclean & _).
    destruct (try_block_extends env (clock env (trace w))
                (record (EvClock AtInvocationStart (clock env (trace w))) w)) as (evs & Hevs).
    rewrite Htry in Hevs. cbn [snd record trace] in Hevs.
    split; [reflexivity|]. split; [by rewrite (added_app _ _ _ Htr)|].
    split; [|exact Hclean].
    erewrite added_app; [|rewrite Htr, Hevs, <- !app_assoc; reflexivity].
    rewrite !statuses_app. cbn [error_events statuses flat_map app].
    by rewrite last_snoc.
  - intros st2 w2 Hphase Hsheet.
    destruct (finalizing_phase_done env st2 w2 Hphase Hsheet) as (t & Hc & Htr & Hclean & _).
    split; [exact Hc|]. split; [by rewrite (added_app _ _ _ Htr)|exact Hclean].
  - intros st Hprops Hphase Hsheet.
    rewrite (processDriveAuditBatch_finalizing env w st Hprops Hphase). cbv zeta.
    set (w0 := record _ w).
    destruct (finalizing_phase_done env st w0 Hphase) as (t & Hc & Htr & Hclean & _);
      [exact Hsheet|].
    destruct (finalizing_phase env st w0) as [c w2]. cbn [fst snd] in *. subst c. cbn [snd].
    split; [|exact Hclean].
    erewrite added_app; [|rewrite Htr; unfold w0; cbn [record trace];
                          rewrite <- app_assoc; reflexivity].
    reflexivity.
  - intros Hstate Hyes. rewrite cancelRunningAudit_run.
    unfold has_state in Hstate. apply negb_true_iff in Hstate. rewrite Hstate, Hyes.
    cbn [snd]. split.
    + erewrite added_app; [|unfold cancelled_world; cbn [trace];
                            rewrite <- app_assoc; reflexivity].
      reflexivity.
    + split; cbn.
      * by rewrite lookup_delete_ne, lookup_delete_eq.
      * unfold continuation_triggers. cbn. apply continuation_triggers_deleted.
Qed.

Lemma terminal_cleanup_witness :
  (statuses (added stranded_world (exec (processDriveAuditBatch (quiet_env YES)) stranded_world))
   = ["RUNNING"; "ERROR"] /\
   cleaned (exec (processDriveAuditBatch (quiet_env YES)) stranded_world)) /\
  (statuses (added finishing_world (exec (processDriveAuditBatch (quiet_env YES)) finishing_world))
   = ["RUNNING"; "COMPLETED"] /\
   cleaned (exec (processDriveAuditBatch (quiet_env YES)) finishing_world)) /\
  (statuses (added (resumed_world processing_state)
                   (exec (cancelRunningAudit (quiet_env YES)) (resumed_world processing_state)))
   = ["CANCELLED"] /\
   cleaned (exec (cancelRunningAudit (quiet_env YES)) (resumed_world processing_state))).
Proof.
  split; [|split].
  - assert (Hst : statuses (added stranded_world
                                  (exec (processDriveAuditBatch (quiet_env YES)) stranded_world))
                  = ["RUNNING"; "ERROR"]) by (vm_compute; reflexivity).
    split; [exact Hst|].
    apply (proj1 (terminal_cleanup (quiet_env YES) stranded_world) "ERROR"); [|reflexivity].
    rewrite Hst. right. by left.
  - exact (proj1 (proj2 (proj2 (proj2 (proj2 (proj2
             (terminal_cleanup (quiet_env YES) finishing_world))))))
             finalizing_state eq_refl eq_refl (ex_intro _ [headers] eq_refl)).
  - exact (proj2 (proj2 (proj2 (proj2 (proj2 (proj2
             (terminal_cleanup (quiet_env YES) (resumed_world processing_state)))))))
             eq_refl eq_refl).
Defined.
